(** * bob.db.lfw: the query layer and the import routine of the
      Labeled Faces in the Wild database, over a shallow embedding.

    The development follows the Python sources:
    - [Py]      the fragment of Python the sources rely on (exceptions,
                [str], [int], string slicing, [os.path]);
    - [Models]  [models.py]: the rows of the tables and [File.__init__];
    - [Sql]     the fragment of the ORM query language the sources use,
                read as list comprehensions over the tables;
    - [Query]   [query.py]: the [Database] class;
    - [Create]  [create.py]: the import routine;
    - [Checkfiles]  [checkfiles.py]: the check of the installed files;
    - [Props]   the vocabulary of the properties, and two small
                examples, a database and an image tree.

    Conventions.  Strings are byte strings; text is taken to be ASCII.
    A Python call that may raise returns a [result]; code that reads or
    writes the database or the file system runs in a state-and-exception
    monad over the part of the world it touches.  Console output
    ([print]) is not part of the model; a test that guards a [print]
    is kept where evaluating it can raise.  The report that [checkfiles]
    writes is what the command is for, and is modelled.  Columns are not nullable in the
    model: every row is built by its class constructor. *)

From Stdlib Require Import ZArith List String Ascii Bool Lia.
From Stdlib Require Import Permutation Sorted DecimalString.
Import ListNotations.

Local Open Scope list_scope.
Local Open Scope string_scope.
Local Open Scope Z_scope.

(* ===================================================================== *)
(** ** Python fragment                                                    *)
(* ===================================================================== *)

Module Py.

(** Exceptions the sources can raise, by class. *)
Inductive exn : Type :=
| ValueError | RuntimeError | KeyError | TypeError | AttributeError
| AssertionError | IndexError | UnboundLocalError | FileNotFoundError
| IsADirectoryError | NotADirectoryError | OperationalError | IntegrityError.

Inductive result (A : Type) : Type :=
| Ok (a : A)
| Raise (e : exn).
Arguments Ok {A} a.
Arguments Raise {A} e.

Definition is_ok {A} (r : result A) : bool :=
  match r with Ok _ => true | Raise _ => false end.

Definition rbind {A B} (r : result A) (k : A -> result B) : result B :=
  match r with Ok a => k a | Raise e => Raise e end.

(** State-and-exception monad: an exception leaves the state as it was
    when it was raised. *)
Definition M (S A : Type) : Type := S -> result A * S.

Definition ret {S A} (a : A) : M S A := fun s => (Ok a, s).
Definition raise {S A} (e : exn) : M S A := fun s => (Raise e, s).
Definition lift {S A} (r : result A) : M S A := fun s => (r, s).
Definition bind {S A B} (m : M S A) (k : A -> M S B) : M S B :=
  fun s => match m s with
           | (Ok a, s') => k a s'
           | (Raise e, s') => (Raise e, s')
           end.
Definition gets {S A} (f : S -> A) : M S A := fun s => (Ok (f s), s).
Definition modify {S} (f : S -> S) : M S unit := fun s => (Ok tt, f s).

(** [for x in l: body x] *)
Fixpoint for_each {S A} (l : list A) (body : A -> M S unit) : M S unit :=
  match l with
  | [] => ret tt
  | x :: l' => bind (body x) (fun _ => for_each l' body)
  end.

(** *** Strings *)

Definition str_in (s : string) (l : list string) : bool :=
  existsb (String.eqb s) l.

(** [s[n:]] for [0 <= n] *)
Fixpoint str_drop (n : nat) (s : string) : string :=
  match n, s with
  | O, _ => s
  | S _, EmptyString => EmptyString
  | S n', String _ s' => str_drop n' s'
  end.

(** [s[:n]] for [0 <= n] *)
Fixpoint str_take (n : nat) (s : string) : string :=
  match n, s with
  | O, _ => EmptyString
  | S _, EmptyString => EmptyString
  | S n', String c s' => String c (str_take n' s')
  end.

Definition len (s : string) : Z := Z.of_nat (String.length s).

(** [s[0:stop]] with Python's treatment of a negative [stop]: it counts
    from the end, and is clipped at 0. *)
Definition slice_to (s : string) (stop : Z) : string :=
  let stop' := if stop <? 0 then Z.max 0 (len s + stop) else stop in
  str_take (Z.to_nat stop') s.

(** [s * n]: the empty string when [n <= 0]. *)
Fixpoint str_repeat (s : string) (n : nat) : string :=
  match n with
  | O => EmptyString
  | S n' => s ++ str_repeat s n'
  end.
Definition str_mul (s : string) (n : Z) : string := str_repeat s (Z.to_nat n).

Fixpoint str_rev_onto (s acc : string) : string :=
  match s with
  | EmptyString => acc
  | String c s' => str_rev_onto s' (String c acc)
  end.
Definition str_rev (s : string) : string := str_rev_onto s EmptyString.

Definition startswith (s p : string) : bool := String.prefix p s.
Definition endswith (s p : string) : bool :=
  String.prefix (str_rev p) (str_rev s).

(** [str(n)] and ["%d" % n] for an integer *)
Definition str_of_int (n : Z) : string := NilZero.string_of_int (Z.to_int n).

(** White space as [str.split()] sees it, on ASCII text *)
Definition is_space (c : ascii) : bool :=
  let n := nat_of_ascii c in
  (((9 <=? n) && (n <=? 13)) || ((28 <=? n) && (n <=? 32)))%nat.

(** White space as [int] strips it *)
Definition is_int_space (c : ascii) : bool :=
  let n := nat_of_ascii c in
  (((9 <=? n) && (n <=? 13)) || (n =? 32))%nat.

Definition is_digit (c : ascii) : bool :=
  let n := nat_of_ascii c in ((48 <=? n) && (n <=? 57))%nat.

Definition digit_val (c : ascii) : Z := Z.of_nat (nat_of_ascii c) - 48.

Fixpoint lstrip (s : string) : string :=
  match s with
  | EmptyString => EmptyString
  | String c s' => if is_int_space c then lstrip s' else s
  end.
Definition strip (s : string) : string := str_rev (lstrip (str_rev (lstrip s))).

(** Where [int] is in a run of digits: single underscores may separate
    digits. *)
Inductive digits_state : Type := AtStart | AfterDigit | AfterUnderscore.

Fixpoint parse_digits (st : digits_state) (acc : Z) (s : string) : option Z :=
  match s with
  | EmptyString =>
      match st with AfterDigit => Some acc | _ => None end
  | String c s' =>
      if is_digit c then parse_digits AfterDigit (10 * acc + digit_val c) s'
      else if (c =? "_")%char then
        match st with
        | AfterDigit => parse_digits AfterUnderscore acc s'
        | _ => None
        end
      else None
  end.

(** [int(s)] for a string, base 10 *)
Definition int (s : string) : result Z :=
  let body :=
    match strip s with
    | String "-" r => option_map Z.opp (parse_digits AtStart 0 r)
    | String "+" r => parse_digits AtStart 0 r
    | r => parse_digits AtStart 0 r
    end in
  match body with Some n => Ok n | None => Raise ValueError end.

(** [s.split()]: the maximal runs of characters that are not white space *)
Fixpoint split_ws (cur : string) (s : string) : list string :=
  match s with
  | EmptyString =>
      match cur with EmptyString => [] | _ => [str_rev cur] end
  | String c s' =>
      if is_space c
      then match cur with
           | EmptyString => split_ws EmptyString s'
           | _ => str_rev cur :: split_ws EmptyString s'
           end
      else split_ws (String c cur) s'
  end.
Definition split (s : string) : list string := split_ws EmptyString s.

(** [s.split(sep)[-1]] for a one-character [sep]: what follows the last
    [sep], or all of [s]. *)
Fixpoint last_field (sep : ascii) (cur : string) (s : string) : string :=
  match s with
  | EmptyString => str_rev cur
  | String c s' =>
      if (c =? sep)%char then last_field sep EmptyString s'
      else last_field sep (String c cur) s'
  end.
Definition split_last (s : string) (sep : ascii) : string :=
  last_field sep EmptyString s.

(** The lines of a text file as iteration over the open file yields
    them: a line ends at a line feed, a carriage return, or the pair;
    the terminator is dropped here (the sources only [split()] a line). *)
Fixpoint lines_from (cur : string) (s : string) : list string :=
  match s with
  | EmptyString =>
      match cur with EmptyString => [] | _ => [str_rev cur] end
  | String c s' =>
      if (c =? "010")%char then str_rev cur :: lines_from EmptyString s'
      else if (c =? "013")%char then
        match s' with
        | String c' s'' =>
            if (c' =? "010")%char
            then str_rev cur :: lines_from EmptyString s''
            else str_rev cur :: lines_from EmptyString s'
        | EmptyString => [str_rev cur]
        end
      else lines_from (String c cur) s'
  end.
Definition lines (s : string) : list string := lines_from EmptyString s.

(** [v > n] for a value [v] that is an integer or [None]: Python 3
    does not order [None] and an integer. *)
Definition gt (v : option Z) (n : Z) : result bool :=
  match v with
  | Some x => Ok (n <? x)
  | None => Raise TypeError
  end.

(** [sorted(l)] for a list of strings: ascending, by code point. *)
Fixpoint insert_sorted (x : string) (l : list string) : list string :=
  match l with
  | [] => [x]
  | y :: l' => if String.leb x y then x :: l else y :: insert_sorted x l'
  end.
Fixpoint sorted (l : list string) : list string :=
  match l with
  | [] => []
  | x :: l' => insert_sorted x (sorted l')
  end.

(** *** [os.path] (POSIX) *)

(** [os.path.join(a, b)] *)
Definition os_path_join (a b : string) : string :=
  if startswith b "/" then b
  else if (a =? "")%string || endswith a "/" then a ++ b
  else a ++ "/" ++ b.

(** [os.path.basename(p)]: what follows the last slash *)
Definition os_path_basename (p : string) : string := split_last p "/".

(** [os.path.dirname(p)]: what precedes the last slash, without trailing
    slashes unless it is made of slashes only *)
Fixpoint rstrip_slash_rev (r : string) : string :=
  match r with
  | String "/" r' => rstrip_slash_rev r'
  | _ => r
  end.
Definition os_path_dirname (p : string) : string :=
  let head := str_take (String.length p - String.length (os_path_basename p))%nat p in
  match rstrip_slash_rev (str_rev head) with
  | EmptyString => head
  | r => str_rev r
  end.

(** [os.path.splitext(p)[0]]: [p] up to its last dot, when that dot is
    in the last component and some character other than a dot comes
    before it there. *)
Fixpoint all_dots (s : string) : bool :=
  match s with
  | EmptyString => true
  | String c s' => (c =? ".")%char && all_dots s'
  end.
Definition os_path_splitext_root (p : string) : string :=
  let base := os_path_basename p in
  let ext := split_last base "." in
  if (String.length ext <? String.length base)%nat then
    (* a dot exists in the last component; [stem] is what precedes it *)
    let stem := str_take (String.length base - String.length ext - 1)%nat base in
    if all_dots stem then p
    else str_take (String.length p - String.length ext - 1)%nat p
  else p.

End Py.

Declare Scope py_scope.
Delimit Scope py_scope with py.
Notation "x <- m ;; k" := (Py.bind m (fun x => k))
  (at level 61, m at next level, right associativity) : py_scope.
Notation "m ;; k" := (Py.bind m (fun _ => k))
  (at level 61, right associativity) : py_scope.

(* ===================================================================== *)
(** ** models.py                                                          *)
(* ===================================================================== *)

Module Models.
Import Py.

(** [class Client]: [id] is the primary key. *)
Record Client : Type := mkClient { Client_id : string }.

(** What [File.__init__] is given as [shot_id]: the column is an
    integer, the import routine passes the digits of the file name. *)
Inductive shot : Type :=
| ShotInt (n : Z)
| ShotStr (s : string).

(** [str(shot_id)] *)
Definition str (x : shot) : string :=
  match x with
  | ShotInt n => str_of_int n
  | ShotStr s => s
  end.

(** [class File]: [id] is the primary key, [client_id] refers to
    [client.id]. *)
Record File : Type := mkFile {
  File_id : string;
  File_client_id : string;
  File_path : string;
  File_shot_id : shot
}.

(** [File.__init__(self, client_id, shot_id)] *)
Definition File_init (client_id : string) (shot_id : shot) : File :=
  let id :=
    ((client_id ++ "_") ++ str_mul "0" (4 - len (str shot_id))) ++ str shot_id in
  {| File_id := id;
     File_client_id := client_id;
     File_path := os_path_join client_id id;
     File_shot_id := shot_id |}.

(** [File.make_path(self, directory=None, extension=None)] *)
Definition make_path (self : File) (directory extension : option string)
  : string :=
  let directory :=
    match directory with
    | None | Some EmptyString => ""
    | Some d => d
    end in
  let extension :=
    match extension with
    | None | Some EmptyString => ""
    | Some e => e
    end in
  os_path_join directory (File_path self ++ extension).

(** [class People]: [id] is the integer primary key the database
    assigns, [file_id] refers to [file.id]. *)
Record People : Type := mkPeople {
  People_id : Z;
  People_protocol : string;
  People_file_id : string
}.

(** [class Pair]: [id] is the integer primary key the database assigns,
    [enrol_file_id] and [probe_file_id] refer to [file.id]. *)
Record Pair : Type := mkPair {
  Pair_id : Z;
  Pair_protocol : string;
  Pair_enrol_file_id : string;
  Pair_probe_file_id : string;
  Pair_is_match : bool
}.

End Models.

(* ===================================================================== *)
(** ** The ORM query fragment                                             *)
(* ===================================================================== *)

Module Sql.

(** An inner join, as a nested loop: every row of the outer table [q]
    with every row of [t] that [on] relates to it, the rows of [q] in
    their order and, for each, the rows of [t] in theirs. *)
Definition join {R B : Type} (q : list R) (t : list B) (on : R -> B -> bool)
  : list (R * B) :=
  flat_map (fun r => map (fun b => (r, b)) (filter (on r) t)) q.

(** [column.in_(values)] *)
Definition in_ (x : string) (values : list string) : bool := Py.str_in x values.

(** [q.order_by(column)] for a string column: ascending, the rows of
    equal key in their order. *)
Fixpoint insert_by {R : Type} (key : R -> string) (x : R) (l : list R)
  : list R :=
  match l with
  | [] => [x]
  | y :: l' =>
      if String.leb (key x) (key y) then x :: l else y :: insert_by key x l'
  end.
Fixpoint order_by {R : Type} (key : R -> string) (l : list R) : list R :=
  match l with
  | [] => []
  | x :: l' => insert_by key x (order_by key l')
  end.

(** Iterating over a query of one mapped class yields every object once:
    the result rows are passed through [unique_list], which keeps the
    first row of each object.  An object is identified by its primary
    key.  ([test.py] counts on it: it expects fewer models than pairs
    in every group, although [models] joins each file to its pairs.) *)
Fixpoint unique_from {E K : Type} (eqb : K -> K -> bool) (key : E -> K)
  (seen : list K) (l : list E) : list E :=
  match l with
  | [] => []
  | x :: l' =>
      if existsb (eqb (key x)) seen then unique_from eqb key seen l'
      else x :: unique_from eqb key (key x :: seen) l'
  end.
Definition unique_list {E K : Type} (eqb : K -> K -> bool) (key : E -> K)
  (l : list E) : list E := unique_from eqb key [] l.

End Sql.

(* ===================================================================== *)
(** ** query.py                                                           *)
(* ===================================================================== *)

Module Query.
Import Py Models Sql.
Local Open Scope py_scope.

(** The four tables [query.py] reads. *)
Record Tables : Type := mkTables {
  client_table : list Client;
  file_table : list File;
  people_table : list People;
  pair_table : list Pair
}.

(** The part of the world the class touches: the file [SQLITE_FILE],
    when it exists, with the tables it holds. *)
Record World : Type := mkWorld { sqlite_file : option Tables }.

(** What [utils.session_try_readonly] returns. *)
Inductive Session : Type := ReadonlySession.

(** [class Database]; the tuples and the dictionary that [__init__]
    stores in the object are the constants below. *)
Record Database : Type := mkDatabase { m_session : option Session }.

Definition m_valid_protocols : list string :=
  ["view1"; "fold1"; "fold2"; "fold3"; "fold4"; "fold5"; "fold6"; "fold7";
   "fold8"; "fold9"; "fold10"].
Definition m_valid_groups : list string := ["world"; "dev"; "eval"].
Definition m_valid_purposes : list string := ["enrol"; "probe"].
Definition m_valid_classes : list string := ["matched"; "unmatched"].
Definition m_subworld_counts : list (string * Z) :=
  [("onefolds", 1); ("twofolds", 2); ("threefolds", 3); ("fourfolds", 4);
   ("fivefolds", 5); ("sixfolds", 6); ("sevenfolds", 7)].
Definition m_valid_types : list string := ["restricted"; "unrestricted"].

(** [d.keys()] and [d[k]] for the dictionary; [None] is no key of it. *)
Definition keys {V} (d : list (string * V)) : list string := map fst d.
Fixpoint getitem {V} (d : list (string * V)) (k : option string) : result V :=
  match d with
  | [] => Raise KeyError
  | (k', v) :: d' =>
      match k with
      | Some s => if (s =? k')%string then Ok v else getitem d' k
      | None => Raise KeyError
      end
  end.

(** [Database.connect] *)
Definition connect : M World Database :=
  exists_ <- gets (fun w => match sqlite_file w with
                            | Some _ => true
                            | None => false
                            end) ;;
  if negb exists_ then ret {| m_session := None |}
  else ret {| m_session := Some ReadonlySession |}.

(** [Database.__init__] *)
Definition __init__ : M World Database := connect.

(** [Database.is_valid] *)
Definition is_valid (self : Database) : bool :=
  match m_session self with Some _ => true | None => false end.

(** [Database.assert_validity] *)
Definition assert_validity (self : Database) : M World unit :=
  if negb (is_valid self) then raise RuntimeError else ret tt.

(** [Database.__check_single__]; a value that is no [str] is [None]
    here.  The checked value is handed back as the string it is. *)
Definition __check_single__ (value : option string) (valid : list string)
  : result string :=
  match value with
  | None => Raise ValueError
  | Some v => if negb (str_in v valid) then Raise ValueError else Ok v
  end.

(** An argument that takes "one or several of" a set of names: [None],
    a string, or a list or tuple of strings. *)
Inductive names : Type :=
| ANone
| AStr (s : string)
| ASeq (l : list string).

(** The loop of [__check_validity__] over a sequence. *)
Fixpoint check_each (l : list string) (valid : list string) : result unit :=
  match l with
  | [] => Ok tt
  | k :: l' =>
      if negb (str_in k valid) then Raise RuntimeError else check_each l' valid
  end.

(** [Database.__check_validity__] *)
Definition __check_validity__ (list_ : names) (valid : list string)
  : result (list string) :=
  match list_ with
  | ANone | AStr EmptyString | ASeq [] => Ok valid        (* [not list] *)
  | AStr s => rbind (check_each [s] valid) (fun _ => Ok [s])
  | ASeq l => rbind (check_each l valid) (fun _ => Ok l)
  end.

(** [Database.__eval__] *)
Definition __eval__ (fold : string) : result Z := int (str_drop 4 fold).

(** [Database.__dev__] *)
Definition __dev__ (eval : Z) : Z * Z :=
  ((eval + 7) mod 10 + 1, (eval + 8) mod 10 + 1).

(** ["fold%d" % f] *)
Definition fold_name (f : Z) : string := "fold" ++ str_of_int f.

(** [Database.__dev_for__] *)
Definition __dev_for__ (fold : string) : result (list string) :=
  rbind (__eval__ fold) (fun eval =>
  let '(d1, d2) := __dev__ eval in
  Ok (map fold_name [d1; d2])).

(** [range(n)] *)
Definition range (n : Z) : list Z := map Z.of_nat (seq 0 (Z.to_nat n)).

(** [Database.__world_for__] *)
Definition __world_for__ (fold : string) (subworld : option string)
  : result (list string) :=
  rbind (__eval__ fold) (fun eval =>
  let dev := __dev__ eval in
  rbind (getitem m_subworld_counts subworld) (fun world_count =>
  let world := map (fun i => (eval + i) mod 10 + 1) (range world_count) in
  Ok (map fold_name world))).

(** A query that was built and not yet run: its result rows, given the
    tables. *)
Definition query (R : Type) : Type := Tables -> list R.

(** Running a query on the session. *)
Definition run {R} (q : query R) : M World (list R) :=
  fun w => match sqlite_file w with
           | Some t => (Ok (q t), w)
           | None => (Raise OperationalError, w)
           end.

(** [for x in query] for a query of [Client], [File] or [Pair] objects. *)
Definition iter_clients (q : query Client) : M World (list Client) :=
  rows <- run q ;; ret (unique_list String.eqb Client_id rows).
Definition iter_files (q : query File) : M World (list File) :=
  rows <- run q ;; ret (unique_list String.eqb File_id rows).
Definition iter_pairs (q : query Pair) : M World (list Pair) :=
  rows <- run q ;; ret (unique_list Z.eqb Pair_id rows).

(** [if subworld != None: self.__check_single__(subworld, ...)] *)
Definition check_subworld (subworld : option string) : result unit :=
  match subworld with
  | None => Ok tt
  | Some _ =>
      rbind (__check_single__ subworld (keys m_subworld_counts))
            (fun _ => Ok tt)
  end.

(** [session.query(Client).join(File).join(People).filter(cond)
    .order_by(Client.id)]; the joins follow the foreign keys. *)
Definition clients_query (cond : People -> bool) : query Client :=
  fun t =>
    map (fun r => fst (fst r))
      (order_by (fun r => Client_id (fst (fst r)))
        (filter (fun r => cond (snd r))
          (join
            (join (client_table t) (file_table t)
                  (fun c f => (File_client_id f =? Client_id c)%string))
            (people_table t)
            (fun r p => (People_file_id p =? File_id (snd r))%string)))).

(** The loop that collects the objects of every query. *)
Fixpoint collect {E} (iter : query E -> M World (list E))
  (queries : list (query E)) : M World (list E) :=
  match queries with
  | [] => ret []
  | q :: qs =>
      found <- iter q ;;
      rest <- collect iter qs ;;
      ret (found ++ rest)%list
  end.

(** [[q] if c else []], for the conditional [queries.append(q)] *)
Definition when {A} (c : bool) (q : A) : list A := if c then [q] else [].

(** [Database.clients] *)
Definition clients (self : Database) (protocol : option string)
  (groups : names) (subworld : option string) : M World (list Client) :=
  assert_validity self ;;
  protocol <- lift (__check_single__ protocol m_valid_protocols) ;;
  groups <- lift (__check_validity__ groups m_valid_groups) ;;
  lift (check_subworld subworld) ;;
  queries <- lift (
    if (protocol =? "view1")%string then
      Ok (when (str_in "world" groups)
            (clients_query (fun p => (People_protocol p =? "train")%string))
          ++ when (str_in "dev" groups)
            (clients_query (fun p => (People_protocol p =? "test")%string)))%list
    else
      rbind (if str_in "world" groups then
               rbind (__world_for__ protocol subworld) (fun trainset =>
               Ok [clients_query (fun p => in_ (People_protocol p) trainset)])
             else Ok []) (fun q_world =>
      rbind (if str_in "dev" groups then
               rbind (__dev_for__ protocol) (fun devset =>
               Ok [clients_query (fun p => in_ (People_protocol p) devset)])
             else Ok []) (fun q_dev =>
      Ok (q_world ++ q_dev
          ++ when (str_in "eval" groups)
               (clients_query
                  (fun p => (People_protocol p =? protocol)%string)))%list))) ;;
  collect iter_clients queries.

(** [q.filter(cond)] *)
Definition qfilter {R} (cond : R -> bool) (q : query R) : query R :=
  fun t => filter cond (q t).

(** The order of the rows of a join.  No query of the class but that
    of [clients] has an [ORDER BY].  The database is an SQLite file, and
    SQLite runs these joins with the table that has no index on the
    joined column (pair, people) as the outer loop, and finds the file
    by its primary key: the rows come in the order of the pairs (of the
    people rows). *)

(** [session.query(File).join((Pair, or_(File.id == Pair.enrol_file_id,
    File.id == Pair.probe_file_id))).filter(cond)]; the files of one
    pair are found through the index of [file.id], in the order of
    their ids. *)
Definition pair_files_query (cond : Pair -> bool) : query File :=
  fun t =>
    flat_map
      (fun p =>
         order_by File_id
           (filter (fun f => (File_id f =? Pair_enrol_file_id p)%string
                             || (File_id f =? Pair_probe_file_id p)%string)
              (file_table t)))
      (filter cond (pair_table t)).

(** [session.query(File).join((Pair, File.id == Pair.enrol_file_id))
    .filter(cond)] *)
Definition enrol_files_query (cond : Pair -> bool) : query File :=
  fun t =>
    map snd
      (filter (fun r => cond (fst r))
        (join (pair_table t) (file_table t)
              (fun p f => (File_id f =? Pair_enrol_file_id p)%string))).

(** [session.query(File).join(People).filter(cond)] *)
Definition people_files_query (cond : People -> bool) : query File :=
  fun t =>
    map snd
      (filter (fun r => cond (fst r))
        (join (people_table t) (file_table t)
              (fun p f => (People_file_id p =? File_id f)%string))).

(** [session.query(File).join((Pair, File.id == Pair.probe_file_id))
    .join((file_alias, file_alias.id == Pair.enrol_file_id)).filter(cond)];
    a row is the probe file, the pair and the enrol file. *)
Definition probe_files_query (cond : Pair -> bool)
  : query ((File * Pair) * File) :=
  fun t =>
    map (fun r => ((snd (fst r), fst (fst r)), snd r))
      (filter (fun r => cond (fst (fst r)))
        (join
          (join (pair_table t) (file_table t)
                (fun p f => (File_id f =? Pair_probe_file_id p)%string))
          (file_table t)
          (fun r fa => (File_id fa =? Pair_enrol_file_id (fst r))%string))).

(** [Database.models] *)
Definition models (self : Database) (protocol : option string)
  (groups : names) (subworld : option string) : M World (list File) :=
  assert_validity self ;;
  protocol <- lift (__check_single__ protocol m_valid_protocols) ;;
  groups <- lift (__check_validity__ groups m_valid_groups) ;;
  lift (check_subworld subworld) ;;
  queries <- lift (
    if (protocol =? "view1")%string then
      Ok (when (str_in "world" groups)
            (pair_files_query (fun p => (Pair_protocol p =? "train")%string))
          ++ when (str_in "dev" groups)
            (enrol_files_query (fun p => (Pair_protocol p =? "test")%string)))%list
    else
      rbind (if str_in "world" groups then
               rbind (__world_for__ protocol subworld) (fun trainset =>
               Ok [pair_files_query (fun p => in_ (Pair_protocol p) trainset)])
             else Ok []) (fun q_world =>
      rbind (if str_in "dev" groups then
               rbind (__dev_for__ protocol) (fun devset =>
               Ok [enrol_files_query (fun p => in_ (Pair_protocol p) devset)])
             else Ok []) (fun q_dev =>
      Ok (q_world ++ q_dev
          ++ when (str_in "eval" groups)
               (enrol_files_query
                  (fun p => (Pair_protocol p =? protocol)%string)))%list))) ;;
  collect iter_files queries.

(** [Database.get_client_id_from_file_id] *)
Definition get_client_id_from_file_id (self : Database) (file_id : string)
  : M World string :=
  assert_validity self ;;
  let q : query File :=
    fun t => filter (fun f => (File_id f =? file_id)%string) (file_table t) in
  rows <- run q ;;
  if negb (Z.of_nat (List.length rows) =? 1) then raise AssertionError
  else
    first <- run q ;;
    match first with
    | f :: _ => ret (File_client_id f)
    | [] => raise AttributeError
    end.

(** [Database.get_client_id_from_model_id] *)
Definition get_client_id_from_model_id (self : Database) (model_id : string)
  : M World string :=
  get_client_id_from_file_id self model_id.

(** The test [model_ids and len(model_ids)] and the values to filter on *)
Definition wanted_ids (model_ids : names) : option (list string) :=
  match model_ids with
  | ASeq (x :: l) => Some (x :: l)
  | _ => None
  end.

(** The first loop of [objects] *)
Fixpoint collect_files (model_ids : names) (queries : list (query File))
  : M World (list File) :=
  match queries with
  | [] => ret []
  | q :: qs =>
      let q :=
        match wanted_ids model_ids with
        | Some ids => qfilter (fun f => in_ (File_id f) ids) q
        | None => q
        end in
      found <- iter_files q ;;
      rest <- collect_files model_ids qs ;;
      ret (found ++ rest)%list
  end.

(** The second loop of [objects] *)
Fixpoint collect_probes (model_ids : names)
  (probe_queries : list (query ((File * Pair) * File)))
  : M World (list File) :=
  match probe_queries with
  | [] => ret []
  | q :: qs =>
      let q :=
        match wanted_ids model_ids with
        | Some ids => qfilter (fun r => in_ (File_id (snd r)) ids) q
        | None => q
        end in
      found <- iter_files (fun t => map (fun r => fst (fst r)) (q t)) ;;
      rest <- collect_probes model_ids qs ;;
      ret (found ++ rest)%list
  end.

(** [Database.objects] *)
Definition objects (self : Database) (protocol : option string)
  (model_ids : names) (groups purposes : names) (subworld : option string)
  (world_type : option string) : M World (list File) :=
  assert_validity self ;;
  protocol <- lift (__check_single__ protocol m_valid_protocols) ;;
  groups <- lift (__check_validity__ groups m_valid_groups) ;;
  purposes <- lift (__check_validity__ purposes m_valid_purposes) ;;
  world_type <- lift (__check_single__ world_type m_valid_types) ;;
  lift (check_subworld subworld) ;;
  let model_ids :=
    match model_ids with
    | AStr s => ASeq [s]
    | _ => model_ids
    end in
  both <- lift (
    if (protocol =? "view1")%string then
      let q_world :=
        when (str_in "world" groups)
          (if (world_type =? "restricted")%string
           then pair_files_query
                  (fun p => (Pair_protocol p =? "train")%string)
           else people_files_query
                  (fun p => (People_protocol p =? "train")%string)) in
      let q_dev :=
        if str_in "dev" groups
        then when (str_in "enrol" purposes)
               (enrol_files_query
                  (fun p => (Pair_protocol p =? "test")%string))
        else [] in
      let p_dev :=
        if str_in "dev" groups
        then when (str_in "probe" purposes)
               (probe_files_query
                  (fun p => (Pair_protocol p =? "test")%string))
        else [] in
      Ok ((q_world ++ q_dev)%list, p_dev)
    else
      rbind (if str_in "world" groups then
               rbind (__world_for__ protocol subworld) (fun trainset =>
               Ok [if (world_type =? "restricted")%string
                   then pair_files_query
                          (fun p => in_ (Pair_protocol p) trainset)
                   else people_files_query
                          (fun p => in_ (People_protocol p) trainset)])
             else Ok []) (fun q_world =>
      rbind (if str_in "dev" groups then
               rbind (__dev_for__ protocol) (fun devset =>
               Ok (when (str_in "enrol" purposes)
                     (enrol_files_query
                        (fun p => in_ (Pair_protocol p) devset)),
                   when (str_in "probe" purposes)
                     (probe_files_query
                        (fun p => in_ (Pair_protocol p) devset))))
             else Ok ([], [])) (fun '(q_dev, p_dev) =>
      let q_eval :=
        if str_in "eval" groups
        then when (str_in "enrol" purposes)
               (enrol_files_query
                  (fun p => (Pair_protocol p =? protocol)%string))
        else [] in
      let p_eval :=
        if str_in "eval" groups
        then when (str_in "probe" purposes)
               (probe_files_query
                  (fun p => (Pair_protocol p =? protocol)%string))
        else [] in
      Ok ((q_world ++ q_dev ++ q_eval)%list, (p_dev ++ p_eval)%list)))) ;;
  let '(queries, probe_queries) := both in
  found <- collect_files model_ids queries ;;
  probes <- collect_probes model_ids probe_queries ;;
  ret (found ++ probes)%list.

(** [default_query] of [pairs]: [session.query(Pair)
    .join(File1, File1.id == Pair.enrol_file_id)
    .join(File2, File2.id == Pair.probe_file_id)] *)
Definition default_query : query ((Pair * File) * File) :=
  fun t =>
    join
      (join (pair_table t) (file_table t)
            (fun p f1 => (File_id f1 =? Pair_enrol_file_id p)%string))
      (file_table t)
      (fun r f2 => (File_id f2 =? Pair_probe_file_id (fst r))%string).

(** [default_query().filter(cond)] for a condition on the pair *)
Definition pairs_query (cond : Pair -> bool) : query ((Pair * File) * File) :=
  qfilter (fun r => cond (fst (fst r))) default_query.

(** The loop of [pairs] *)
Fixpoint collect_pairs (classes : list string)
  (queries : list (query ((Pair * File) * File))) : M World (list Pair) :=
  match queries with
  | [] => ret []
  | q :: qs =>
      let q :=
        if negb (str_in "matched" classes)
        then qfilter (fun r => Bool.eqb (Pair_is_match (fst (fst r))) false) q
        else q in
      let q :=
        if negb (str_in "unmatched" classes)
        then qfilter (fun r => Bool.eqb (Pair_is_match (fst (fst r))) true) q
        else q in
      found <- iter_pairs (fun t => map (fun r => fst (fst r)) (q t)) ;;
      rest <- collect_pairs classes qs ;;
      ret (found ++ rest)%list
  end.

(** [Database.pairs] *)
Definition pairs (self : Database) (protocol : option string)
  (groups classes : names) (subworld : option string) : M World (list Pair) :=
  assert_validity self ;;
  protocol <- lift (__check_single__ protocol m_valid_protocols) ;;
  groups <- lift (__check_validity__ groups m_valid_groups) ;;
  classes <- lift (__check_validity__ classes m_valid_classes) ;;
  lift (check_subworld subworld) ;;
  queries <- lift (
    if (protocol =? "view1")%string then
      Ok (when (str_in "world" groups)
            (pairs_query (fun p => (Pair_protocol p =? "train")%string))
          ++ when (str_in "dev" groups)
            (pairs_query (fun p => (Pair_protocol p =? "test")%string)))%list
    else
      rbind (if str_in "world" groups then
               rbind (__world_for__ protocol subworld) (fun trainset =>
               Ok [pairs_query (fun p => in_ (Pair_protocol p) trainset)])
             else Ok []) (fun q_world =>
      rbind (if str_in "dev" groups then
               rbind (__dev_for__ protocol) (fun devset =>
               Ok [pairs_query (fun p => in_ (Pair_protocol p) devset)])
             else Ok []) (fun q_dev =>
      Ok (q_world ++ q_dev
          ++ when (str_in "eval" groups)
               (pairs_query
                  (fun p => (Pair_protocol p =? protocol)%string)))%list))) ;;
  collect_pairs classes queries.

(** [Database.paths]: the body reads [self.session], an attribute the
    class never sets (the session is [self.m_session]). *)
Definition paths (self : Database) (file_ids : list string)
  (prefix suffix : string) : M World (list string) :=
  assert_validity self ;;
  raise AttributeError.

(** [Database.reverse]: as [paths], the body reads [self.session]. *)
Definition reverse (self : Database) (paths : list string)
  : M World (list string) :=
  assert_validity self ;;
  raise AttributeError.

End Query.

(* ===================================================================== *)
(** ** create.py                                                          *)
(* ===================================================================== *)

Module Create.
Import Py Models.
Local Open Scope py_scope.

(** Modelled from the spec: the class [Annotation], the fifth table.
    It is not declared in [models.py]; its fields are the three
    arguments [add_annotations] builds it from. *)
Record Annotation : Type := mkAnnotation {
  Annotation_file_id : string;
  Annotation_type : string;
  Annotation_content : string
}.

(** An object handed to [session.add]: [People] and [Pair] objects have
    no [id] before the database assigns one. *)
Inductive obj : Type :=
| NewClient (c : Client)
| NewFile (f : File)
| NewPeople (protocol file_id : string)
| NewPair (protocol enrol_file_id probe_file_id : string) (is_match : bool)
| NewAnnotation (a : Annotation).

(** A row of a table. *)
Inductive row : Type :=
| RClient (c : Client)
| RFile (f : File)
| RPeople (p : People)
| RPair (p : Pair)
| RAnnotation (a : Annotation).

(** [__tablename__] of the class of an object.  Modelled from the spec:
    the name of the table of [Annotation], a class [models.py] does not
    declare, is formed as the other four are. *)
Definition tablename (o : obj) : string :=
  match o with
  | NewClient _ => "client"
  | NewFile _ => "file"
  | NewPeople _ _ => "people"
  | NewPair _ _ _ _ => "pair"
  | NewAnnotation _ => "annotation"
  end.

(** Modelled from the spec: the tables of [Base.metadata], one for each
    class of the models.  [models.py] declares the first four, whose
    [__tablename__] is read there; the fifth stands for the class
    [Annotation], which [create.py] uses and [models.py] does not declare,
    under the name its siblings would give it. *)
Definition metadata : list string :=
  ["client"; "file"; "people"; "pair"; "annotation"].

(** The content of a database: its tables by name, each with its rows
    in the order they were inserted. *)
Definition Store : Type := list (string * list row).

(** What a path names in the file system: a directory, with its entries
    in the order [os.listdir] gives them, or a regular file, with its
    text. *)
Inductive node : Type :=
| Dir (entries : list string)
| Reg (content : string).

(** A read of the file system. *)
Inductive access : Type :=
| Listed (path : string)
| Opened (path : string).

(** The world of the import routine. *)
Record State : Type := mkState {
  fs : string -> option node;      (* the file system, by path *)
  reads : list access;             (* the reads made so far, oldest first *)
  database : option Store;         (* the database file, when it exists *)
  tables : Store;                  (* the tables as the session sees them *)
  pending : list obj               (* added and not yet flushed *)
}.

Definition set_fs (f : string -> option node) (s : State) : State :=
  mkState f (reads s) (database s) (tables s) (pending s).
Definition set_reads (r : list access) (s : State) : State :=
  mkState (fs s) r (database s) (tables s) (pending s).
Definition set_database (d : option Store) (s : State) : State :=
  mkState (fs s) (reads s) d (tables s) (pending s).
Definition set_tables (t : Store) (s : State) : State :=
  mkState (fs s) (reads s) (database s) t (pending s).
Definition set_pending (l : list obj) (s : State) : State :=
  mkState (fs s) (reads s) (database s) (tables s) l.

(** *** The file system *)

(** [os.listdir(path)] *)
Definition listdir (path : string) : M State (list string) :=
  fun s =>
    match fs s path with
    | Some (Dir entries) =>
        (Ok entries, set_reads (reads s ++ [Listed path])%list s)
    | Some (Reg _) => (Raise NotADirectoryError, s)
    | None => (Raise FileNotFoundError, s)
    end.

(** [open(path).read()], and the text [for line in open(path)] runs
    over *)
Definition open_read (path : string) : M State string :=
  fun s =>
    match fs s path with
    | Some (Reg content) =>
        (Ok content, set_reads (reads s ++ [Opened path])%list s)
    | Some (Dir _) => (Raise IsADirectoryError, s)
    | None => (Raise FileNotFoundError, s)
    end.

(** [os.path.exists(path)] *)
Definition os_path_exists (path : string) : M State bool :=
  gets (fun s => match fs s path with Some _ => true | None => false end).

(** [os.makedirs(path)], called on a path that does not exist; the
    ancestors of the path are taken to be directories or creatable. *)
Definition os_makedirs (path : string) : M State unit :=
  if (path =? "")%string then raise FileNotFoundError
  else modify (fun s =>
         set_fs (fun p => if (p =? path)%string then Some (Dir [])
                          else fs s p) s).

(** *** The database *)

Definition has_table (name : string) (st : Store) : bool :=
  existsb (fun e => (fst e =? name)%string) st.

Fixpoint table_rows (name : string) (st : Store) : option (list row) :=
  match st with
  | [] => None
  | (n, rows) :: st' =>
      if (n =? name)%string then Some rows else table_rows name st'
  end.

Fixpoint append_row (name : string) (r : row) (st : Store) : Store :=
  match st with
  | [] => []
  | (n, rows) :: st' =>
      if (n =? name)%string then (n, (rows ++ [r])%list) :: st'
      else (n, rows) :: append_row name r st'
  end.

(** [metadata.create_all(engine)]: the tables of the metadata that the
    database does not have yet are created, empty. *)
Definition create_all (st : Store) : Store :=
  fold_left
    (fun st name => if has_table name st then st
                    else (st ++ [(name, [])])%list)
    metadata st.

(** The integer key the database gives a new row: one more than the
    largest in the table. *)
Definition row_id (r : row) : Z :=
  match r with
  | RPeople p => People_id p
  | RPair p => Pair_id p
  | _ => 0
  end.
Definition next_id (rows : list row) : Z :=
  1 + fold_right (fun r m => Z.max (row_id r) m) 0 rows.

(** The string primary key of a row of the client or the file table *)
Definition string_key (r : row) : option string :=
  match r with
  | RClient c => Some (Client_id c)
  | RFile f => Some (File_id f)
  | _ => None
  end.
Definition has_key (k : string) (rows : list row) : bool :=
  existsb (fun r => match string_key r with
                    | Some k' => (k' =? k)%string
                    | None => false
                    end) rows.

(** The INSERT of one object: the table must exist, and a primary key
    that is not assigned by the database must be new. *)
Definition insert (o : obj) (st : Store) : result Store :=
  match table_rows (tablename o) st with
  | None => Raise OperationalError
  | Some rows =>
      match o with
      | NewClient c =>
          if has_key (Client_id c) rows then Raise IntegrityError
          else Ok (append_row "client" (RClient c) st)
      | NewFile f =>
          if has_key (File_id f) rows then Raise IntegrityError
          else Ok (append_row "file" (RFile f) st)
      | NewPeople protocol file_id =>
          Ok (append_row "people"
                (RPeople (mkPeople (next_id rows) protocol file_id)) st)
      | NewPair protocol e p m =>
          Ok (append_row "pair"
                (RPair (mkPair (next_id rows) protocol e p m)) st)
      | NewAnnotation a => Ok (append_row "annotation" (RAnnotation a) st)
      end
  end.

Fixpoint insert_all (l : list obj) (st : Store) : result Store :=
  match l with
  | [] => Ok st
  | o :: l' => rbind (insert o st) (insert_all l')
  end.

(** [session.add(o)] *)
Definition session_add (o : obj) : M State unit :=
  modify (fun s => set_pending (pending s ++ [o])%list s).

(** [session.flush()]: the pending objects are inserted, in the order
    they were added. *)
Definition session_flush : M State unit :=
  fun s =>
    match insert_all (pending s) (tables s) with
    | Ok st => (Ok tt, set_pending [] (set_tables st s))
    | Raise e => (Raise e, s)
    end.

(** [session.commit()] *)
Definition session_commit : M State unit :=
  session_flush ;;
  modify (fun s => set_database (Some (tables s)) s).

(** [session_try_nolock(...)]: a session on the database file *)
Definition session_try_nolock : M State unit :=
  modify (fun s =>
    set_pending []
      (set_tables (match database s with Some st => st | None => [] end) s)).

(** The rows of the file table, as [File] objects *)
Definition file_rows (st : Store) : list File :=
  match table_rows "file" st with
  | Some rows =>
      flat_map (fun r => match r with RFile f => [f] | _ => [] end) rows
  | None => []
  end.

(** Running [session.query(File)]; a query flushes the session first. *)
Definition query_File : M State (list File) :=
  session_flush ;;
  st <- gets tables ;;
  match table_rows "file" st with
  | Some _ => ret (file_rows st)
  | None => raise OperationalError
  end.

Section MissingModels.

(** Two names that [create.py] takes from the models and that
    [models.py] does not declare: the function [filename] and the
    column [File.name]. *)
Variable filename : string -> Z -> string.
Variable File_name : File -> string.

(** [session.query(File).filter(File.name == name).first().id] *)
Definition first_file_id (name : string) : M State string :=
  files <- query_File ;;
  match filter (fun f => (File_name f =? name)%string) files with
  | f :: _ => ret (File_id f)
  | [] => raise AttributeError
  end.

(** *** [add_files] *)

(** [nodot] *)
Definition nodot (item : string) : result bool :=
  match item with
  | EmptyString => Raise IndexError
  | String c _ => Ok (negb (c =? ".")%char)
  end.

(** [for x in filter(nodot, l): body x] *)
Definition for_each_nodot (l : list string) (body : string -> M State unit)
  : M State unit :=
  for_each l (fun x =>
    keep <- lift (nodot x) ;;
    if keep then body x else ret tt).

(** [add_client] of [add_files]; the client is built from the directory
    the enclosing loop is at. *)
Definition add_files_add_client (client_dir : string) : M State string :=
  let c := mkClient client_dir in
  session_add (NewClient c) ;;
  ret (Client_id c).

(** [add_file] of [add_files] *)
Definition add_file (file_name : string) : M State unit :=
  let base_name := os_path_splitext_root (os_path_basename file_name) in
  let shot_id := split_last base_name "_" in
  let client_id := slice_to base_name (- len shot_id - 1) in
  let f := File_init client_id (ShotStr shot_id) in
  session_add (NewFile f).

(** [add_files] *)
Definition add_files (basedir : string) (verbose : option Z)
  : M State unit :=
  let imagedir := os_path_join basedir "all_images" in
  entries <- listdir imagedir ;;
  for_each_nodot (sorted entries) (fun client_dir =>
    client_name <- add_files_add_client client_dir ;;
    lift (gt verbose 1) ;;
    entries <- listdir (os_path_join imagedir client_dir) ;;
    for_each_nodot (sorted entries) (fun filename_ =>
      if endswith filename_ ".jpg" then
        lift (gt verbose 1) ;;
        add_file filename_
      else ret tt)).

(** *** [add_people] *)

(** [range(1, count + 1)] *)
Definition range1 (count : Z) : list Z :=
  map (fun i => Z.of_nat i + 1) (seq 0 (Z.to_nat count)).

(** [add_client] of [add_people]; [verbose] is the argument of
    [add_people]. *)
Definition add_people_add_client (verbose : option Z)
  (protocol client_id : string) (count : Z) : M State unit :=
  for_each (range1 count) (fun i =>
    lift (gt verbose 1) ;;
    file_id <- first_file_id (filename client_id i) ;;
    session_add (NewPeople protocol file_id)).

(** [llist[i]] *)
Definition item (llist : list string) (i : nat) : string :=
  nth i llist EmptyString.

(** [parse_view1] of [add_people] *)
Definition parse_view1 (verbose : option Z) (path protocol : string)
  : M State unit :=
  text <- open_read path ;;
  for_each (lines text) (fun line =>
    let llist := split line in
    if (List.length llist =? 2)%nat then
      count <- lift (int (item llist 1)) ;;
      add_people_add_client verbose protocol (item llist 0) count
    else ret tt).

(** The loop of [parse_view2]; [protocol] is not bound before the first
    line of one field. *)
Fixpoint parse_view2_lines (verbose : option Z) (ls : list string)
  (fold_id : Z) (protocol : option string) : M State unit :=
  match ls with
  | [] => ret tt
  | line :: rest =>
      let llist := split line in
      if (List.length llist =? 1)%nat then
        parse_view2_lines verbose rest (fold_id + 1)
          (Some ("fold" ++ str_of_int fold_id))
      else if (List.length llist =? 2)%nat then
        match protocol with
        | None => raise UnboundLocalError
        | Some p =>
            count <- lift (int (item llist 1)) ;;
            add_people_add_client verbose p (item llist 0) count ;;
            count <- lift (int (item llist 1)) ;;
            add_people_add_client verbose "view2" (item llist 0) count ;;
            parse_view2_lines verbose rest fold_id protocol
        end
      else parse_view2_lines verbose rest fold_id protocol
  end.

(** [parse_view2] of [add_people] *)
Definition parse_view2 (verbose : option Z) (path : string) : M State unit :=
  text <- open_read path ;;
  parse_view2_lines verbose (lines text) 0 None.

(** [os.path.join(basedir, view, name)] *)
Definition protocol_file (basedir view name : string) : string :=
  os_path_join (os_path_join basedir view) name.

(** [add_people] *)
Definition add_people (basedir : string) (verbose : option Z)
  : M State unit :=
  parse_view1 verbose
    (protocol_file basedir "view1" "peopleDevTrain.txt") "train" ;;
  parse_view1 verbose
    (protocol_file basedir "view1" "peopleDevTest.txt") "test" ;;
  parse_view2 verbose (protocol_file basedir "view2" "people.txt").

(** *** [add_pairs] *)

(** [add_mpair] and [add_upair] of [add_pairs] *)
Definition add_mpair (protocol file_id1 file_id2 : string) : M State unit :=
  session_add (NewPair protocol file_id1 file_id2 true).
Definition add_upair (protocol file_id1 file_id2 : string) : M State unit :=
  session_add (NewPair protocol file_id1 file_id2 false).

(** [parse_file] of [add_pairs]; [verbose] is the argument of
    [add_pairs]. *)
Definition parse_file (verbose : option Z) (list_filename protocol : string)
  : M State unit :=
  text <- open_read list_filename ;;
  for_each (lines text) (fun line =>
    let llist := split line in
    if (List.length llist =? 3)%nat then
      n1 <- lift (int (item llist 1)) ;;
      file_id1 <- first_file_id (filename (item llist 0) n1) ;;
      n2 <- lift (int (item llist 2)) ;;
      file_id2 <- first_file_id (filename (item llist 0) n2) ;;
      lift (gt verbose 1) ;;
      add_mpair protocol file_id1 file_id2
    else if (List.length llist =? 4)%nat then
      n1 <- lift (int (item llist 1)) ;;
      file_id1 <- first_file_id (filename (item llist 0) n1) ;;
      n2 <- lift (int (item llist 3)) ;;
      file_id2 <- first_file_id (filename (item llist 2) n2) ;;
      lift (gt verbose 1) ;;
      add_upair protocol file_id1 file_id2
    else ret tt).

(** The file and the protocol of fold [fold] of view 2 *)
Definition pairs_fold_file (basedir : string) (fold : Z) : string :=
  protocol_file basedir "view2" ("pairs_fold" ++ str_of_int fold ++ ".txt").

(** [add_pairs] *)
Definition add_pairs (basedir : string) (verbose : option Z)
  : M State unit :=
  session_flush ;;
  parse_file verbose
    (protocol_file basedir "view1" "pairsDevTrain.txt") "train" ;;
  parse_file verbose
    (protocol_file basedir "view1" "pairsDevTest.txt") "test" ;;
  for_each (range1 10) (fun fold =>
    parse_file verbose (pairs_fold_file basedir fold)
      ("fold" ++ str_of_int fold) ;;
    parse_file verbose (pairs_fold_file basedir fold) "view2").

(** *** [add_annotations] *)

(** The body of the loop of [add_annotations] *)
Definition add_annotation (annotation_directory : option string)
  (annotation_extension annotation_type : string) (verbose : option Z)
  (file : File) : M State unit :=
  let annotation_file :=
    make_path file annotation_directory (Some annotation_extension) in
  found <- os_path_exists annotation_file ;;
  if negb found then ret tt              (* [continue] *)
  else
    lift (gt verbose 1) ;;
    annotation_file_content <- open_read annotation_file ;;
    session_add
      (NewAnnotation
         (mkAnnotation (File_id file) annotation_type
            annotation_file_content)).

(** [add_annotations] *)
Definition add_annotations (annotation_directory : option string)
  (annotation_extension annotation_type : string) (verbose : option Z)
  : M State unit :=
  session_flush ;;
  files <- query_File ;;
  for_each files
    (add_annotation annotation_directory annotation_extension
       annotation_type verbose).

(** *** [create] *)

(** The arguments of the command; [verbose] counts the [-v] flags and
    is [None] when there is none. *)
Record Args : Type := mkArgs {
  files : list string;
  recreate : bool;
  verbose : option Z;
  basedir : string;
  annotation_types : list string;
  idiap_annotation_dir : option string;
  funneled_annotation_dir : option string
}.

(** [args.files[0]] *)
Definition files_0 (args : Args) : result string :=
  match files args with
  | f :: _ => Ok f
  | [] => Raise IndexError
  end.

(** One [X.metadata.create_all(engine)]; the engine creates the
    database file when it is not there. *)
Definition metadata_create_all : M State unit :=
  modify (fun s =>
    set_database
      (Some (create_all (match database s with
                         | Some st => st
                         | None => []
                         end))) s).

(** [create_tables] *)
Definition create_tables (args : Args) : M State unit :=
  lift (files_0 args) ;;
  lift (gt (verbose args) 2) ;;
  metadata_create_all ;;      (* Client *)
  metadata_create_all ;;      (* File *)
  metadata_create_all ;;      (* People *)
  metadata_create_all ;;      (* Pair *)
  metadata_create_all.        (* Annotation *)

(** [os.path.exists(dbfile)] and [os.unlink(dbfile)] *)
Definition dbfile_exists : M State bool :=
  gets (fun s => match database s with Some _ => true | None => false end).
Definition unlink_dbfile : M State unit :=
  modify (set_database None).

(** [create] *)
Definition create (args : Args) : M State unit :=
  dbfile <- lift (files_0 args) ;;
  (if recreate args then
     found <- dbfile_exists ;;
     if found then unlink_dbfile else ret tt
   else ret tt) ;;
  found <- os_path_exists (os_path_dirname dbfile) ;;
  (if negb found then os_makedirs (os_path_dirname dbfile) else ret tt) ;;
  create_tables args ;;
  lift (files_0 args) ;;
  lift (gt (verbose args) 2) ;;
  session_try_nolock ;;
  add_files (basedir args) (verbose args) ;;
  add_people (basedir args) (verbose args) ;;
  add_pairs (basedir args) (verbose args) ;;
  (if str_in "idiap" (annotation_types args) then
     add_annotations (idiap_annotation_dir args) ".pos" "idiap" (verbose args)
   else ret tt) ;;
  (if str_in "funneled" (annotation_types args) then
     add_annotations (funneled_annotation_dir args) ".jpg.pts" "funneled"
       (verbose args)
   else ret tt) ;;
  session_commit.

End MissingModels.

End Create.

(* ===================================================================== *)
(** ** Vocabulary of the properties                                       *)
(* ===================================================================== *)

Module Props.
Import Py Models Sql Query Create.

(** The ten folds of view 2, by name. *)
Definition all_folds : list string :=
  ["fold1"; "fold2"; "fold3"; "fold4"; "fold5"; "fold6"; "fold7"; "fold8";
   "fold9"; "fold10"].

Definition disjoint (l1 l2 : list string) : Prop :=
  forall s, In s l1 -> ~ In s l2.

Definition same_elements (l1 l2 : list string) : Prop :=
  forall s, In s l1 <-> In s l2.

Definition disjointb (l1 l2 : list string) : bool :=
  forallb (fun s => negb (str_in s l2)) l1.

Definition inclb (l1 l2 : list string) : bool :=
  forallb (fun s => str_in s l2) l1.

(** A computation that leaves the world as it found it, whatever it
    returns. *)
Definition readonly {S A} (m : M S A) : Prop := forall s, snd (m s) = s.

(** The database is valid: the session is open on a file that holds the
    tables. *)
Definition valid_database (self : Database) (w : World) (t : Tables) : Prop :=
  is_valid self = true /\ sqlite_file w = Some t.

(** The content of the pair table respects the declarations of
    [class Pair]: [id] is a primary key, and [enrol_file_id] and
    [probe_file_id] are foreign keys into the file table. *)
Definition pair_table_consistent (t : Tables) : Prop :=
  NoDup (map Pair_id (pair_table t)) /\
  forall p, In p (pair_table t) ->
    (exists f, In f (file_table t) /\ File_id f = Pair_enrol_file_id p) /\
    (exists f, In f (file_table t) /\ File_id f = Pair_probe_file_id p).

(** The pair rows whose protocol is [foldm] for some [m] of [ms]. *)
Definition protocol_among (ms : list Z) (p : Pair) : bool :=
  existsb (fun m => (Pair_protocol p =? fold_name m)%string) ms.

(** The pairs of the classes asked for: [matched] lets the pairs that
    match through, [unmatched] those that do not. *)
Definition class_selected (classes : list string) (p : Pair) : bool :=
  (str_in "matched" classes || negb (Pair_is_match p))
  && (str_in "unmatched" classes || Pair_is_match p).

(** The names an argument gives: none for [None], for an empty sequence
    and for the empty string; the string itself for another string; the
    members of a sequence. *)
Definition named (a : names) : list string :=
  match a with
  | ANone => []
  | AStr EmptyString => []
  | AStr s => [s]
  | ASeq l => l
  end.

(** Some name the argument gives is outside the valid ones. *)
Definition outside (valid : list string) (a : names) : Prop :=
  exists k, In k (named a) /\ ~ In k valid.

(** The protocol argument is not one of the valid protocols (it may be
    no string at all). *)
Definition bad_protocol (protocol : option string) : Prop :=
  forall s, protocol = Some s -> ~ In s m_valid_protocols.

(** The subworld argument is not [None] and not one of the subworlds. *)
Definition bad_subworld (subworld : option string) : Prop :=
  match subworld with
  | None => False
  | Some s => ~ In s (keys m_subworld_counts)
  end.

(** How an argument that takes names is read, given the valid names:
    [None], an empty sequence and the empty string as the tuple of all
    valid names, a string other than the empty one as the tuple that
    holds just it. *)
Inductive reads_as (valid : list string) : names -> names -> Prop :=
| reads_none : reads_as valid ANone (ASeq valid)
| reads_empty : reads_as valid (ASeq []) (ASeq valid)
| reads_empty_string : reads_as valid (AStr "") (ASeq valid)
| reads_string s : s <> "" -> reads_as valid (AStr s) (ASeq [s])
| reads_itself a : reads_as valid a a.

(** The rows of [pairs_query cond], read off as pairs, come in blocks:
    a pair that meets [cond] comes once for every enrol file and probe
    file that carry its file ids. *)
Definition rows_of_pair (t : Tables) (cond : Pair -> bool) (p : Pair) : nat :=
  if cond p then
    List.length
      (filter (fun f => (File_id f =? Pair_enrol_file_id p)%string)
              (file_table t))
    * List.length
        (filter (fun f => (File_id f =? Pair_probe_file_id p)%string)
                (file_table t))
  else 0.

(** A string made of the character [0] only *)
Definition all_zeros (s : string) : Prop :=
  forall c, In c (list_ascii_of_string s) -> c = "0"%char.

(** The annotation file of [file] exists when [add_annotations] runs
    from state [s]. *)
Definition annotated (s : State) (directory : option string)
  (extension : string) (file : File) : bool :=
  match fs s (make_path file directory (Some extension)) with
  | Some _ => true
  | None => false
  end.

(** The table of the class of a row *)
Definition row_table (r : row) : string :=
  match r with
  | RClient _ => "client"
  | RFile _ => "file"
  | RPeople _ => "people"
  | RPair _ => "pair"
  | RAnnotation _ => "annotation"
  end.

(** Every row is in the table of its class. *)
Definition rows_in_their_tables (st : Store) : Prop :=
  forall name rows r, In (name, rows) st -> In r rows -> row_table r = name.

(** The protocol files below [basedir] *)
Definition protocol_files (basedir : string) : list string :=
  [protocol_file basedir "view1" "peopleDevTrain.txt";
   protocol_file basedir "view1" "peopleDevTest.txt";
   protocol_file basedir "view2" "people.txt";
   protocol_file basedir "view1" "pairsDevTrain.txt";
   protocol_file basedir "view1" "pairsDevTest.txt"]
  ++ map (pairs_fold_file basedir) [1; 2; 3; 4; 5; 6; 7; 8; 9; 10].

(** The reads the import is to make: the listing of the image directory
    and of the directories in it, the text of a protocol file, the text
    of the annotation file of an image. *)
Inductive expected_read (args : Args) : access -> Prop :=
| read_image_directory :
    expected_read args (Listed (os_path_join (basedir args) "all_images"))
| read_client_directory d :
    expected_read args
      (Listed (os_path_join (os_path_join (basedir args) "all_images") d))
| read_protocol_file p :
    In p (protocol_files (basedir args)) -> expected_read args (Opened p)
| read_idiap_annotation f :
    expected_read args
      (Opened (make_path f (idiap_annotation_dir args) (Some ".pos")))
| read_funneled_annotation f :
    expected_read args
      (Opened (make_path f (funneled_annotation_dir args) (Some ".jpg.pts"))).

(** Two paths name the same thing: nothing, the same text, or
    directories of the same entries, which the system may list in
    different orders. *)
Definition same_node (n1 n2 : option node) : Prop :=
  match n1, n2 with
  | None, None => True
  | Some (Reg c1), Some (Reg c2) => c1 = c2
  | Some (Dir l1), Some (Dir l2) => Permutation l1 l2
  | _, _ => False
  end.

(** Two runs start from the same inputs: the same directory tree and
    files, and the same state of the database and of the session. *)
Definition same_inputs (s1 s2 : State) : Prop :=
  (forall path, same_node (fs s1 path) (fs s2 path)) /\
  reads s1 = reads s2 /\
  database s1 = database s2 /\
  tables s1 = tables s2 /\
  pending s1 = pending s2.

(** A computation that two runs from the same inputs carry out alike:
    same result, and the same inputs again for what follows. *)
Definition deterministic {A} (m : M State A) : Prop :=
  forall s1 s2,
    same_inputs s1 s2 ->
    fst (m s1) = fst (m s2) /\ same_inputs (snd (m s1)) (snd (m s2)).

(** What the import steps between [create_tables] and [commit] keep:
    the file system and the database file as they are, the tables the
    session sees under the same names and with every row in the table
    of its class, and no read but the expected ones. *)
Definition import_step (args : Args) (s s' : State) : Prop :=
  fs s' = fs s /\
  database s' = database s /\
  map fst (tables s') = map fst (tables s) /\
  (rows_in_their_tables (tables s) -> rows_in_their_tables (tables s')) /\
  exists new, reads s' = (reads s ++ new)%list
              /\ Forall (expected_read args) new.

Definition keeps {A} (args : Args) (m : M State A) : Prop :=
  forall s, import_step args s (snd (m s)).

(** What the import steps followed by [commit] come to: the import
    steps up to some state, and the database file either as it was or
    made of the tables of that state. *)
Definition import_end (args : Args) (s s' : State) : Prop :=
  exists s1,
    import_step args s s1 /\
    reads s' = reads s1 /\
    (database s' = database s1 \/ database s' = Some (tables s1)).

Definition ends {A} (args : Args) (m : M State A) : Prop :=
  forall s, import_end args s (snd (m s)).

(** The five tables, empty, as [create_tables] makes them in a new
    database *)
Definition new_tables : Store :=
  [("client", []); ("file", []); ("people", []); ("pair", []);
   ("annotation", [])].

End Props.

(** A small database for the examples: three files of two clients, and
    one pair in each of [fold1], [fold2], [fold9] and [fold10]. *)
Module Example.
Import Py Models Query.

Definition files : list File :=
  [File_init "Ann_Lee" (ShotInt 1); File_init "Ann_Lee" (ShotInt 2);
   File_init "Bo_Diaz" (ShotInt 1)].

Definition tables : Tables :=
  {| client_table := [mkClient "Ann_Lee"; mkClient "Bo_Diaz"];
     file_table := files;
     people_table :=
       [mkPeople 1 "fold1" "Ann_Lee_0001"; mkPeople 2 "fold1" "Ann_Lee_0002";
        mkPeople 3 "fold2" "Bo_Diaz_0001"];
     pair_table :=
       [mkPair 1 "fold1" "Ann_Lee_0001" "Ann_Lee_0002" true;
        mkPair 2 "fold2" "Ann_Lee_0001" "Bo_Diaz_0001" false;
        mkPair 3 "fold9" "Ann_Lee_0002" "Bo_Diaz_0001" false;
        mkPair 4 "fold10" "Ann_Lee_0002" "Ann_Lee_0001" true] |}.

Definition world : World := {| sqlite_file := Some tables |}.
Definition no_file : World := {| sqlite_file := None |}.
Definition db : Database := {| m_session := Some ReadonlySession |}.
Definition no_db : Database := {| m_session := None |}.

End Example.

(** A small image tree with its protocol files, for the examples: two
    clients, three images, and an annotation for one image only. *)
Module ExampleImport.
Import Py Models Create.

(** An instance of the two names [models.py] does not declare: the name
    of a file is its id. *)
Definition filename (client_id : string) (shot_id : Z) : string :=
  File_id (File_init client_id (ShotInt shot_id)).
Definition File_name (f : File) : string := File_id f.

Definition tree (listing : list string) : list (string * node) :=
  [("/lfw/all_images", Dir listing);
   ("/lfw/all_images/Ann_Lee",
     Dir ["notes.txt"; "Ann_Lee_0002.jpg"; "Ann_Lee_0001.jpg"]);
   ("/lfw/all_images/Bo_Diaz", Dir ["Bo_Diaz_0001.jpg"]);
   ("/lfw/view1/peopleDevTrain.txt", Reg "1
Ann_Lee	2
");
   ("/lfw/view1/peopleDevTest.txt", Reg "1
Bo_Diaz 1
");
   ("/lfw/view2/people.txt", Reg "2
1
Ann_Lee 2
1
Bo_Diaz 1
");
   ("/lfw/view1/pairsDevTrain.txt", Reg "1
Ann_Lee 1 2
Ann_Lee 1 Bo_Diaz 1
");
   ("/lfw/view1/pairsDevTest.txt", Reg "");
   ("/lfw/view2/pairs_fold1.txt", Reg "Ann_Lee 2 1
");
   ("/lfw/view2/pairs_fold2.txt", Reg "");
   ("/lfw/view2/pairs_fold3.txt", Reg "");
   ("/lfw/view2/pairs_fold4.txt", Reg "");
   ("/lfw/view2/pairs_fold5.txt", Reg "");
   ("/lfw/view2/pairs_fold6.txt", Reg "");
   ("/lfw/view2/pairs_fold7.txt", Reg "");
   ("/lfw/view2/pairs_fold8.txt", Reg "");
   ("/lfw/view2/pairs_fold9.txt", Reg "");
   ("/lfw/view2/pairs_fold10.txt", Reg "Ann_Lee 2 Bo_Diaz 1
");
   ("/ann/Ann_Lee/Ann_Lee_0002.jpg.pts", Reg "10 20");
   ("/db", Dir [])].

Fixpoint lookup (path : string) (l : list (string * node)) : option node :=
  match l with
  | [] => None
  | (p, n) :: l' => if (p =? path)%string then Some n else lookup path l'
  end.

(** The same tree, as two file systems that list the image directory
    in different orders. *)
Definition start (listing : list string) : State :=
  {| fs := fun path => lookup path (tree listing);
     reads := [];
     database := None;
     tables := [];
     pending := [] |}.
Definition start1 : State := start ["Bo_Diaz"; ".cache"; "Ann_Lee"].
Definition start2 : State := start ["Ann_Lee"; "Bo_Diaz"; ".cache"].

Definition args : Args :=
  {| files := ["/db/db.sql3"];
     recreate := false;
     verbose := Some 1;
     basedir := "/lfw";
     annotation_types := ["funneled"];
     idiap_annotation_dir := None;
     funneled_annotation_dir := Some "/ann" |}.

(** The same command without a [-v] flag: [argparse] leaves
    [args.verbose] at [None]. *)
Definition quiet : Args :=
  {| files := ["/db/db.sql3"];
     recreate := false;
     verbose := None;
     basedir := "/lfw";
     annotation_types := ["funneled"];
     idiap_annotation_dir := None;
     funneled_annotation_dir := Some "/ann" |}.

(** The state once the tables are made, the session is open and the
    image tree has been walked *)
Definition loaded : State :=
  snd (bind (create_tables args)
         (fun _ => bind session_try_nolock
                     (fun _ => add_files "/lfw" (Some 1))) start1).

Definition image1 : File := File_init "Ann_Lee" (ShotStr "0001").

End ExampleImport.

(* ===================================================================== *)
(** ** checkfiles.py                                                      *)
(* ===================================================================== *)

Module Checkfiles.
Import Py Models Query.
Local Open Scope py_scope.

(** The arguments of the command *)
Record Args : Type := mkArgs {
  directory : string;
  extension : string;
  selftest : bool
}.

(** What the command touches: the database file, the paths that exist
    on the file system, and the lines written on the standard output. *)
Record Env : Type := mkEnv {
  world : World;
  path_exists : string -> bool;
  stdout : list string
}.

(** An operation of the [Database] class, run in this environment *)
Definition query_op {A} (m : M World A) : M Env A :=
  fun e =>
    let (r, w) := m (world e) in
    (r, mkEnv w (path_exists e) (stdout e)).

(** [os.path.exists(path)] *)
Definition os_path_exists (path : string) : M Env bool :=
  gets (fun e => path_exists e path).

(** A dictionary from file ids to files, in the order the keys were
    inserted; [d[k] = v] keeps the place of a key that is there. *)
Definition dict : Type := list (string * File).
Fixpoint setitem (k : string) (v : File) (d : dict) : dict :=
  match d with
  | [] => [(k, v)]
  | (k', v') :: d' =>
      if (k' =? k)%string then (k, v) :: d'
      else (k', v') :: setitem k v d'
  end.

(** [output.write(line)]; with [--self-test] the output is [null()],
    which drops what it is given. *)
Definition write (args : Args) (line : string) : M Env unit :=
  if selftest args then ret tt
  else modify (fun e => mkEnv (world e) (path_exists e) (stdout e ++ [line])).

(** The double quote and the line feed of the messages *)
Definition quote : string := String "034" EmptyString.
Definition newline : string := String "010" EmptyString.

(** [f.make_path(args.directory, args.extension)] *)
Definition path_of (args : Args) (f : File) : string :=
  make_path f (Some (directory args)) (Some (extension args)).

(** [db.objects(protocol=protocol)]: the other arguments are at their
    defaults. *)
Definition objects_of (db : Database) (protocol : string)
  : M World (list File) :=
  objects db (Some protocol) ANone ANone ANone (Some "sevenfolds")
    (Some "restricted").

(** The two messages *)
Definition missing_line (args : Args) (f : File) : string :=
  "Cannot find file " ++ quote ++ path_of args f ++ quote ++ newline.
Definition summary_line (args : Args) (missing total : nat) : string :=
  str_of_int (Z.of_nat missing) ++ " files (out of "
  ++ str_of_int (Z.of_nat total) ++ ") were not found at "
  ++ quote ++ directory args ++ quote ++ newline.

(** The loop over the objects of one protocol *)
Fixpoint sort_files (args : Args) (r : list File) (good bad : dict)
  : M Env (dict * dict) :=
  match r with
  | [] => ret (good, bad)
  | f :: r' =>
      found <- os_path_exists (path_of args f) ;;
      if found then sort_files args r' (setitem (File_id f) f good) bad
      else sort_files args r' good (setitem (File_id f) f bad)
  end.

(** The loop over the protocols; [r] is bound by the first protocol and
    holds the objects of the last one. *)
Fixpoint each_protocol (args : Args) (db : Database)
  (protocols : list string) (good bad : dict) (r : option (list File))
  : M Env (dict * dict * option (list File)) :=
  match protocols with
  | [] => ret (good, bad, r)
  | protocol :: rest =>
      r <- query_op (objects_of db protocol) ;;
      gb <- sort_files args r good bad ;;
      each_protocol args db rest (fst gb) (snd gb) (Some r)
  end.

Section DictOrder.

(** [d.items()]: the order in which a dictionary of Python 2 gives its
    items is not specified. *)
Variable items : dict -> list (string * File).

(** The report *)
Definition report (args : Args) (bad : dict) (r : option (list File))
  : M Env unit :=
  match bad with
  | [] => ret tt
  | _ =>
      for_each (items bad) (fun kv =>
        write args (missing_line args (snd kv))) ;;
      match r with
      | None => raise UnboundLocalError
      | Some r =>
          write args
            (summary_line args (List.length bad) (List.length r))
      end
  end.

(** [checkfiles] *)
Definition checkfiles (args : Args) : M Env Z :=
  db <- query_op __init__ ;;
  sorted_ <- each_protocol args db m_valid_protocols [] [] None ;;
  let '(good, bad, r) := sorted_ in
  report args bad r ;;
  ret 0.

End DictOrder.

End Checkfiles.

(* ===================================================================== *)
(** ** Vocabulary of the further properties                               *)
(* ===================================================================== *)

Module More.
Import Py Models Sql Query Create Props.

(** The names an argument selects: the valid names when it gives none,
    the names it gives otherwise. *)
Definition selected (valid : list string) (a : names) : list string :=
  match named a with
  | [] => valid
  | l => l
  end.

(** A list of strings in ascending order *)
Definition ascending (l : list string) : Prop :=
  StronglySorted (fun x y => String.leb x y = true) l.

(** A database of view 1 for the examples: two training pairs and two
    test pairs over the three files of [Example]. *)
Definition view1_tables : Tables :=
  {| client_table := [mkClient "Bo_Diaz"; mkClient "Ann_Lee"];
     file_table := Example.files;
     people_table :=
       [mkPeople 1 "train" "Ann_Lee_0001"; mkPeople 2 "train" "Ann_Lee_0002";
        mkPeople 3 "test" "Bo_Diaz_0001"; mkPeople 4 "train" "Bo_Diaz_0001"];
     pair_table :=
       [mkPair 1 "train" "Ann_Lee_0001" "Ann_Lee_0002" true;
        mkPair 2 "train" "Ann_Lee_0001" "Bo_Diaz_0001" false;
        mkPair 3 "test" "Ann_Lee_0002" "Bo_Diaz_0001" false;
        mkPair 4 "test" "Ann_Lee_0002" "Ann_Lee_0001" true] |}.

Definition view1_world : World := {| sqlite_file := Some view1_tables |}.

(** The model ids a call of [objects] filters on: a string stands for
    the tuple that holds it. *)
Definition ids_given (model_ids : names) : list string :=
  match model_ids with
  | ANone => []
  | AStr s => [s]
  | ASeq l => l
  end.

(** A query whose rows are rows of the file table *)
Definition yields_files (q : query File) : Prop :=
  forall t f, In f (q t) -> In f (file_table t).

(** *** The database [create.py] writes, as [query.py] reads it *)

(** The rows of a table of a store; none when the table is missing *)
Definition rows_of (name : string) (st : Store) : list row :=
  match table_rows name st with
  | Some rows => rows
  | None => []
  end.

(** The rows of the client, the people and the pair table, as objects
    of their classes (the file table is read by [file_rows]) *)
Definition client_rows (st : Store) : list Client :=
  flat_map (fun r => match r with RClient c => [c] | _ => [] end)
    (rows_of "client" st).
Definition people_rows (st : Store) : list People :=
  flat_map (fun r => match r with RPeople p => [p] | _ => [] end)
    (rows_of "people" st).
Definition pair_rows (st : Store) : list Pair :=
  flat_map (fun r => match r with RPair p => [p] | _ => [] end)
    (rows_of "pair" st).

(** The four tables [query.py] reads, out of a store *)
Definition tables_of (st : Store) : Tables :=
  {| client_table := client_rows st;
     file_table := file_rows st;
     people_table := people_rows st;
     pair_table := pair_rows st |}.

(** The ids of the rows of the file table *)
Definition file_ids (st : Store) : list string := map File_id (file_rows st).

(** The keys the models declare hold in a store: the primary keys are
    keys, and the file ids of the people and of the pairs are ids of
    rows of the file table. *)
Definition store_consistent (st : Store) : Prop :=
  NoDup (map Client_id (client_rows st)) /\
  NoDup (file_ids st) /\
  NoDup (map People_id (people_rows st)) /\
  NoDup (map Pair_id (pair_rows st)) /\
  (forall p, In p (people_rows st) -> In (People_file_id p) (file_ids st)) /\
  (forall p, In p (pair_rows st) ->
     In (Pair_enrol_file_id p) (file_ids st)
     /\ In (Pair_probe_file_id p) (file_ids st)).

(** The file ids a new object carries are ids of rows of the file
    table. *)
Definition refers (st : Store) (o : obj) : Prop :=
  match o with
  | NewPeople _ file_id => In file_id (file_ids st)
  | NewPair _ e p _ => In e (file_ids st) /\ In p (file_ids st)
  | _ => True
  end.

(** The session is sound: its tables are consistent, and so will they
    be once the pending objects are flushed. *)
Definition sound (s : State) : Prop :=
  store_consistent (tables s) /\ Forall (refers (tables s)) (pending s).

(** A sound session in which the given ids are ids of files *)
Definition knowing (ids : list string) (s : State) : Prop :=
  sound s /\ incl ids (file_ids (tables s)).

(** A computation that, started where [P] holds, returns only where [Q]
    holds *)
Definition triple {A} (P : State -> Prop) (m : M State A)
  (Q : A -> State -> Prop) : Prop :=
  forall s a s', P s -> m s = (Ok a, s') -> Q a s'.

(** A computation that keeps the session sound, and the known ids
    known *)
Definition safe {A} (m : M State A) : Prop :=
  forall ids, triple (knowing ids) m (fun _ => knowing ids).

(** A computation that returns with everything committed, and that
    leaves the database file as it was when it raises *)
Definition commits {A} (m : M State A) : Prop :=
  forall s,
    match fst (m s) with
    | Ok _ => database (snd (m s)) = Some (tables (snd (m s)))
              /\ pending (snd (m s)) = []
    | Raise _ => database (snd (m s)) = database s
    end.

(** *** A second run on the same database *)

(** The client table of a store has a row of the given id. *)
Definition has_client (id : string) (st : Store) : Prop :=
  exists rows, table_rows "client" st = Some rows /\ has_key id rows = true.

(** The next flush of the session is to fail. *)
Definition doomed (s : State) : Prop :=
  exists e, insert_all (pending s) (tables s) = Raise e.

(** A computation that returns only where [I] holds, when it was
    started where [I] holds *)
Definition invariant {A} (I : State -> Prop) (m : M State A) : Prop :=
  triple I m (fun _ => I).

(** *** Image names *)

(** The character occurs in the string. *)
Fixpoint occurs (c : ascii) (s : string) : bool :=
  match s with
  | EmptyString => false
  | String c' s' => (c' =? c)%char || occurs c s'
  end.

(** *** The queries of [models] *)

(** A query of [models]: the enrol files of some pairs or, for the
    world, the files of some pairs. *)
Definition model_query (with_world : bool) (q : query File) : Prop :=
  (exists cond, q = enrol_files_query cond) \/
  (with_world = true /\ exists cond, q = pair_files_query cond).

(** *** The pairs of the development and evaluation groups *)

(** The conditions on the protocol of a pair that [objects] and [pairs]
    both build for the groups [dev] and [eval] *)
Definition group_conds (protocol : string) (groups : list string)
  : result (list (Pair -> bool)) :=
  if (protocol =? "view1")%string then
    Ok (when (str_in "dev" groups)
          (fun p => (Pair_protocol p =? "test")%string))
  else
    rbind (if str_in "dev" groups then
             rbind (__dev_for__ protocol) (fun devset =>
             Ok [fun p : Pair => in_ (Pair_protocol p) devset])
           else Ok []) (fun c_dev =>
    Ok (c_dev ++ when (str_in "eval" groups)
                   (fun p => (Pair_protocol p =? protocol)%string))%list).

(** The checks both operations make, down to these conditions *)
Definition checked_conds (self : Database) (protocol : option string)
  (groups : names) (subworld : option string)
  : M World (list (Pair -> bool)) :=
  bind (assert_validity self) (fun _ =>
  bind (lift (__check_single__ protocol m_valid_protocols)) (fun protocol =>
  bind (lift (__check_validity__ groups m_valid_groups)) (fun groups =>
  bind (lift (check_subworld subworld)) (fun _ =>
  lift (group_conds protocol groups))))).

(** *** The lines of [people.txt] *)

(** The first line of one or two fields has two: a person comes before
    any count. *)
Fixpoint person_first (ls : list string) : bool :=
  match ls with
  | [] => false
  | line :: rest =>
      match List.length (split line) with
      | 1%nat => false
      | 2%nat => true
      | _ => person_first rest
      end
  end.

(** *** The report of [checkfiles] *)

(** The objects of the given protocols, one protocol after the other *)
Definition all_objects (db : Database) (w : World) (protocols : list string)
  : list File :=
  flat_map
    (fun protocol =>
       match fst (Checkfiles.objects_of db protocol w) with
       | Ok l => l
       | Raise _ => []
       end)
    protocols.

(** The dictionary [bad] holds, under their ids, files among [seen]
    whose path does not exist, and every such file of [seen] has its id
    in it. *)
Definition reported (e : Checkfiles.Env) (args : Checkfiles.Args)
  (seen : list File) (bad : Checkfiles.dict) : Prop :=
  NoDup (map fst bad) /\
  (forall k f, In (k, f) bad ->
     k = File_id f /\ In f seen
     /\ Checkfiles.path_exists e (Checkfiles.path_of args f) = false) /\
  (forall f, In f seen ->
     Checkfiles.path_exists e (Checkfiles.path_of args f) = false ->
     In (File_id f) (map fst bad)).

(** The lines of the report for a dictionary of files not found, given
    in some order, and the objects of the last protocol *)
Definition report_lines (args : Checkfiles.Args)
  (bad_items : list (string * File)) (r : list File) : list string :=
  match bad_items with
  | [] => []
  | _ =>
      (map (fun kv => Checkfiles.missing_line args (snd kv)) bad_items
       ++ [Checkfiles.summary_line args (List.length bad_items)
             (List.length r)])%list
  end.

(** *** What [add_files] adds *)

(** An entry that starts with a dot *)
Definition hidden (x : string) : bool :=
  match x with
  | EmptyString => false
  | String c _ => (c =? ".")%char
  end.

(** The file that [add_file] builds from the name of an image *)
Definition image_file (file_name : string) : File :=
  let base_name := os_path_splitext_root (os_path_basename file_name) in
  let shot_id := split_last base_name "_" in
  let client_id := slice_to base_name (- len shot_id - 1) in
  File_init client_id (ShotStr shot_id).

(** The images among the entries of a directory, in the order they are
    added: the entries in [.jpg] that are not hidden, sorted *)
Definition images_of (entries : list string) : list string :=
  filter (fun x => negb (hidden x) && endswith x ".jpg") (sorted entries).

(** The objects [add_files] adds for an image directory of the given
    entries: for every entry that is not hidden, in sorted order, the
    client and then its images *)
Definition objects_of_tree (tree : string -> option node)
  (imagedir : string) (entries : list string) : list obj :=
  flat_map
    (fun d =>
       NewClient (mkClient d)
       :: match tree (os_path_join imagedir d) with
          | Some (Dir es) => map (fun n => NewFile (image_file n)) (images_of es)
          | _ => []
          end)
    (filter (fun x => negb (hidden x)) (sorted entries)).

(** *** The rows of the clients and of the files *)

(** The rows that objects bring to the client table, and to the file
    table, when they are flushed *)
Definition new_clients (l : list obj) : list row :=
  flat_map (fun o => match o with NewClient c => [RClient c] | _ => [] end) l.
Definition new_files (l : list obj) : list row :=
  flat_map (fun o => match o with NewFile f => [RFile f] | _ => [] end) l.

(** The session holds the given rows of clients and of files: in its
    tables and, after them, among the pending objects. *)
Definition stocked (C F : list row) (s : State) : Prop :=
  (rows_of "client" (tables s) ++ new_clients (pending s))%list = C /\
  (rows_of "file" (tables s) ++ new_files (pending s))%list = F.

(** The rows of the client table for an image directory of the given
    entries: a client for every entry that is not hidden, in sorted
    order *)
Definition client_rows_of_tree (entries : list string) : list row :=
  map (fun d => RClient (mkClient d))
    (filter (fun x => negb (hidden x)) (sorted entries)).

(** The rows of the file table: client directory after client directory,
    the images of each in sorted order *)
Definition file_rows_of_tree (tree : string -> option node)
  (imagedir : string) (entries : list string) : list row :=
  flat_map
    (fun d =>
       match tree (os_path_join imagedir d) with
       | Some (Dir es) => map (fun n => RFile (image_file n)) (images_of es)
       | _ => []
       end)
    (filter (fun x => negb (hidden x)) (sorted entries)).

(** *** The objects of the import *)

(** The files of an image directory of the given entries, in the order
    [add_files] adds them *)
Definition files_of_tree (tree : string -> option node)
  (imagedir : string) (entries : list string) : list File :=
  flat_map
    (fun d =>
       match tree (os_path_join imagedir d) with
       | Some (Dir es) => map image_file (images_of es)
       | _ => []
       end)
    (filter (fun x => negb (hidden x)) (sorted entries)).

(** The text of a file; the empty text for what is no file *)
Definition text_of (tree : string -> option node) (path : string) : string :=
  match tree path with
  | Some (Reg content) => content
  | _ => ""
  end.

(** The number a field stands for; 0 for a field [int] does not read *)
Definition number_of (field : string) : Z :=
  match int field with
  | Ok n => n
  | Raise _ => 0
  end.

(** The annotation of a file, when its annotation file is there *)
Definition annotation_of (tree : string -> option node)
  (directory : option string) (extension annotation_type : string)
  (file : File) : list obj :=
  match tree (make_path file directory (Some extension)) with
  | Some (Reg content) =>
      [NewAnnotation (mkAnnotation (File_id file) annotation_type content)]
  | _ => []
  end.

(** The annotations of the given files, in their order *)
Definition annotations_of (tree : string -> option node) (all : list File)
  (directory : option string) (extension annotation_type : string)
  : list obj :=
  flat_map (annotation_of tree directory extension annotation_type) all.

Section Imported.
Variable filename : string -> Z -> string.
Variable File_name : File -> string.

(** The id of the first of the files that has the given name; the empty
    string when none has it *)
Definition found (all : list File) (name : string) : string :=
  match filter (fun f => (File_name f =? name)%string) all with
  | f :: _ => File_id f
  | [] => ""
  end.

(** The people rows of a client: one for each of its first [count]
    images *)
Definition people_of_client (all : list File)
  (protocol client_id : string) (count : Z) : list obj :=
  map (fun i => NewPeople protocol (found all (filename client_id i)))
    (range1 count).

(** The people of a file of view 1, of the given text: the lines of two
    fields, a person and a number of images *)
Definition people_of_view1 (all : list File) (text protocol : string)
  : list obj :=
  flat_map
    (fun line =>
       let llist := split line in
       if (List.length llist =? 2)%nat then
         people_of_client all protocol (item llist 0)
           (number_of (item llist 1))
       else [])
    (lines text).

(** The people of the file of view 2, of the given lines: a line of one
    field starts a fold, a line of two fields puts a person into the
    current fold and into [view2]. *)
Fixpoint people_of_view2 (all : list File) (ls : list string)
  (fold_id : Z) (protocol : option string) : list obj :=
  match ls with
  | [] => []
  | line :: rest =>
      let llist := split line in
      if (List.length llist =? 1)%nat then
        people_of_view2 all rest (fold_id + 1)
          (Some ("fold" ++ str_of_int fold_id))
      else if (List.length llist =? 2)%nat then
        match protocol with
        | None => []
        | Some p =>
            (people_of_client all p (item llist 0) (number_of (item llist 1))
             ++ people_of_client all "view2" (item llist 0)
                  (number_of (item llist 1))
             ++ people_of_view2 all rest fold_id protocol)%list
        end
      else people_of_view2 all rest fold_id protocol
  end.

(** The pairs of a pairs file of the given text: a line of three fields
    is a matched pair of one person, a line of four fields an unmatched
    pair of two. *)
Definition pairs_of_file (all : list File) (text protocol : string)
  : list obj :=
  flat_map
    (fun line =>
       let llist := split line in
       if (List.length llist =? 3)%nat then
         [NewPair protocol
            (found all (filename (item llist 0) (number_of (item llist 1))))
            (found all (filename (item llist 0) (number_of (item llist 2))))
            true]
       else if (List.length llist =? 4)%nat then
         [NewPair protocol
            (found all (filename (item llist 0) (number_of (item llist 1))))
            (found all (filename (item llist 2) (number_of (item llist 3))))
            false]
       else [])
    (lines text).

(** The objects of the people files, of the pairs files and of the
    annotation files, for the given files of the image tree *)
Definition people_of (tree : string -> option node) (all : list File)
  (basedir : string) : list obj :=
  (people_of_view1 all
     (text_of tree (protocol_file basedir "view1" "peopleDevTrain.txt"))
     "train"
   ++ people_of_view1 all
        (text_of tree (protocol_file basedir "view1" "peopleDevTest.txt"))
        "test"
   ++ people_of_view2 all
        (lines (text_of tree (protocol_file basedir "view2" "people.txt")))
        0 None)%list.

Definition pairs_of (tree : string -> option node) (all : list File)
  (basedir : string) : list obj :=
  (pairs_of_file all
     (text_of tree (protocol_file basedir "view1" "pairsDevTrain.txt"))
     "train"
   ++ pairs_of_file all
        (text_of tree (protocol_file basedir "view1" "pairsDevTest.txt"))
        "test"
   ++ flat_map
        (fun fold =>
           pairs_of_file all (text_of tree (pairs_fold_file basedir fold))
             ("fold" ++ str_of_int fold)
           ++ pairs_of_file all (text_of tree (pairs_fold_file basedir fold))
                "view2")
        (range1 10))%list.

Definition annotations_for (tree : string -> option node) (all : list File)
  (args : Args) : list obj :=
  ((if str_in "idiap" (annotation_types args) then
      annotations_of tree all (idiap_annotation_dir args) ".pos" "idiap"
    else [])
   ++ (if str_in "funneled" (annotation_types args) then
         annotations_of tree all (funneled_annotation_dir args) ".jpg.pts"
           "funneled"
       else []))%list.

(** All the objects of an import, in the order they are added: the
    clients and the files of the image tree, the people, the pairs, the
    annotations *)
Definition imported (args : Args) (tree : string -> option node)
  (entries : list string) : list obj :=
  let imagedir := os_path_join (basedir args) "all_images" in
  let all := files_of_tree tree imagedir entries in
  (objects_of_tree tree imagedir entries
   ++ people_of tree all (basedir args)
   ++ pairs_of tree all (basedir args)
   ++ annotations_for tree all args)%list.

End Imported.

(** The file system is the given tree, but for directories made since,
    which are empty. *)
Definition made (tree : string -> option node) (s : State) : Prop :=
  forall p, fs s p = tree p \/ (tree p = None /\ fs s p = Some (Dir [])).

(** The objects added to the session since it was opened on the new
    tables: those that were flushed made the tables what they are, the
    others are pending. *)
Definition logged (L : list obj) (s : State) : Prop :=
  exists flushed,
    L = (flushed ++ pending s)%list
    /\ insert_all flushed new_tables = Ok (tables s).

(** An import under way: on the given tree, the objects [L] added so
    far, whose files are [all] *)
Definition importing (tree : string -> option node) (all : list File)
  (L : list obj) (s : State) : Prop :=
  made tree s /\ logged L s /\ new_files L = map RFile all.

(** A step of the import that, when it returns, has added the objects
    [l] *)
Definition adds (tree : string -> option node) (all : list File) {A}
  (l : list obj) (m : M State A) : Prop :=
  forall L,
    triple (importing tree all L) m (fun _ => importing tree all (L ++ l)).

(** A step of the import that adds nothing and, when it returns,
    returns [a] *)
Definition gives (tree : string -> option node) (all : list File) {A}
  (a : A) (m : M State A) : Prop :=
  forall L,
    triple (importing tree all L) m
      (fun r s => r = a /\ importing tree all L s).

End More.

(* ===================================================================== *)
(** ** Properties                                                         *)
(* ===================================================================== *)

Import Py Models Sql Query Create Props.
Local Open Scope py_scope.

(** *** The monad *)

Lemma bind_ok {S A B} (m : M S A) (k : A -> M S B) s a s' :
  m s = (Ok a, s') -> bind m k s = k a s'.
Proof. intros H. unfold bind. now rewrite H. Qed.

Lemma bind_raise {S A B} (m : M S A) (k : A -> M S B) s e s' :
  m s = (Raise e, s') -> bind m k s = (Raise e, s').
Proof. intros H. unfold bind. now rewrite H. Qed.

Lemma bind_lift_ok {S A B} (a : A) (k : A -> M S B) s :
  bind (lift (Ok a)) k s = k a s.
Proof. reflexivity. Qed.

Lemma bind_lift_raise {S A B} (e : exn) (k : A -> M S B) s :
  bind (lift (@Raise A e)) k s = (Raise e, s).
Proof. reflexivity. Qed.

Lemma str_in_In s l : str_in s l = true <-> In s l.
Proof.
  unfold str_in. rewrite existsb_exists. split.
  - intros [x [Hx He]]. apply String.eqb_eq in He. now subst.
  - intros H. exists s. split; [assumption | apply String.eqb_refl].
Qed.

Lemma str_in_false s l : str_in s l = false <-> ~ In s l.
Proof.
  rewrite <- str_in_In. destruct (str_in s l); split; congruence.
Qed.

(** *** Read-only computations *)

Create HintDb readonly.

Lemma readonly_ret {S A} (a : A) : readonly (@ret S A a).
Proof. intros s. reflexivity. Qed.

Lemma readonly_raise {S A} e : readonly (@raise S A e).
Proof. intros s. reflexivity. Qed.

Lemma readonly_lift {S A} (r : result A) : readonly (@lift S A r).
Proof. intros s. reflexivity. Qed.

Lemma readonly_gets {S A} (f : S -> A) : readonly (gets f).
Proof. intros s. reflexivity. Qed.

Lemma readonly_bind {S A B} (m : M S A) (k : A -> M S B) :
  readonly m -> (forall a, readonly (k a)) -> readonly (bind m k).
Proof.
  intros Hm Hk s. unfold bind. specialize (Hm s).
  destruct (m s) as [[a | e] s']; simpl in Hm; subst s'.
  - apply Hk.
  - reflexivity.
Qed.

Lemma readonly_run {R} (q : query R) : readonly (run q).
Proof. intros w. unfold run. now destruct (sqlite_file w). Qed.

Lemma readonly_if {S A} (c : bool) (m1 m2 : M S A) :
  readonly m1 -> readonly m2 -> readonly (if c then m1 else m2).
Proof. now destruct c. Qed.

#[local] Hint Resolve readonly_ret readonly_raise readonly_lift readonly_gets
  readonly_run : readonly.

Ltac readonly_step :=
  match goal with
  | |- readonly (bind _ _) => apply readonly_bind; [ | intros ? ]
  | |- readonly (if _ then _ else _) => apply readonly_if
  | |- readonly (let '(_, _) := ?p in _) => destruct p
  | |- readonly (match ?x with _ => _ end) => destruct x
  | |- readonly _ => solve [ auto with readonly ]
  end.

Lemma readonly_assert_validity self : readonly (assert_validity self).
Proof. unfold assert_validity. repeat readonly_step. Qed.

Lemma readonly_iter_clients q : readonly (iter_clients q).
Proof. unfold iter_clients. repeat readonly_step. Qed.

Lemma readonly_iter_files q : readonly (iter_files q).
Proof. unfold iter_files. repeat readonly_step. Qed.

Lemma readonly_iter_pairs q : readonly (iter_pairs q).
Proof. unfold iter_pairs. repeat readonly_step. Qed.

#[local] Hint Resolve readonly_assert_validity readonly_iter_clients
  readonly_iter_files readonly_iter_pairs : readonly.

Lemma readonly_collect {E} (iter : query E -> M World (list E)) queries :
  (forall q, readonly (iter q)) -> readonly (collect iter queries).
Proof.
  intros Hiter. induction queries as [| q qs IH]; simpl.
  - auto with readonly.
  - repeat readonly_step.
Qed.

Lemma readonly_collect_files model_ids queries :
  readonly (collect_files model_ids queries).
Proof.
  induction queries as [| q qs IH]; simpl; repeat readonly_step.
Qed.

Lemma readonly_collect_probes model_ids queries :
  readonly (collect_probes model_ids queries).
Proof.
  induction queries as [| q qs IH]; simpl; repeat readonly_step.
Qed.

Lemma readonly_collect_pairs classes queries :
  readonly (collect_pairs classes queries).
Proof.
  induction queries as [| q qs IH]; simpl; repeat readonly_step.
Qed.

#[local] Hint Resolve readonly_collect_files readonly_collect_probes
  readonly_collect_pairs : readonly.

Lemma readonly_clients self protocol groups subworld :
  readonly (clients self protocol groups subworld).
Proof.
  unfold clients. repeat readonly_step.
  apply readonly_collect. auto with readonly.
Qed.

Lemma readonly_models self protocol groups subworld :
  readonly (models self protocol groups subworld).
Proof.
  unfold models. repeat readonly_step.
  apply readonly_collect. auto with readonly.
Qed.

Lemma readonly_objects self protocol model_ids groups purposes subworld wt :
  readonly (objects self protocol model_ids groups purposes subworld wt).
Proof. unfold objects. repeat readonly_step. Qed.

Lemma readonly_pairs self protocol groups classes subworld :
  readonly (pairs self protocol groups classes subworld).
Proof. unfold pairs. repeat readonly_step. Qed.

Lemma readonly_get_client_id self file_id :
  readonly (get_client_id_from_file_id self file_id).
Proof. unfold get_client_id_from_file_id. repeat readonly_step. Qed.

Lemma readonly_paths self ids prefix suffix :
  readonly (paths self ids prefix suffix).
Proof. unfold paths. repeat readonly_step. Qed.

Lemma readonly_reverse self ps : readonly (reverse self ps).
Proof. unfold reverse. repeat readonly_step. Qed.

(** C4: no query operation changes the content of a table: the world
    after a call of [clients], [models], [objects], [pairs], [paths],
    [reverse] or [get_client_id_from_file_id] is the world before it,
    whether the call returns or raises. *)
Theorem query_operations_are_readonly :
  forall (self : Database) (w : World),
    (forall protocol groups subworld,
        snd (clients self protocol groups subworld w) = w) /\
    (forall protocol groups subworld,
        snd (models self protocol groups subworld w) = w) /\
    (forall protocol model_ids groups purposes subworld world_type,
        snd (objects self protocol model_ids groups purposes subworld
               world_type w) = w) /\
    (forall protocol groups classes subworld,
        snd (pairs self protocol groups classes subworld w) = w) /\
    (forall file_ids prefix suffix,
        snd (paths self file_ids prefix suffix w) = w) /\
    (forall ps, snd (reverse self ps w) = w) /\
    (forall file_id, snd (get_client_id_from_file_id self file_id w) = w).
Proof.
  intros self w. repeat split; intros.
  - apply readonly_clients.
  - apply readonly_models.
  - apply readonly_objects.
  - apply readonly_pairs.
  - apply readonly_paths.
  - apply readonly_reverse.
  - apply readonly_get_client_id.
Qed.

(** *** The database file is absent *)

Lemma connect_without_file w self :
  sqlite_file w = None -> fst (__init__ w) = Ok self -> m_session self = None.
Proof.
  intros Hw. unfold __init__, connect, bind, gets, ret. rewrite Hw. simpl.
  intros H. injection H as <-. reflexivity.
Qed.

Lemma assert_validity_raises self w :
  m_session self = None -> assert_validity self w = (Raise RuntimeError, w).
Proof.
  intros H. unfold assert_validity, is_valid. rewrite H. reflexivity.
Qed.

Lemma assert_validity_passes self w :
  is_valid self = true -> assert_validity self w = (Ok tt, w).
Proof. intros H. unfold assert_validity. rewrite H. reflexivity. Qed.

(** C3: when the SQLite file does not exist where [connect] looks for
    it, the session is [None] and every public query operation
    ([clients], [models], [objects], [pairs], [paths], [reverse],
    [get_client_id_from_file_id], [get_client_id_from_model_id]) raises
    [RuntimeError] instead of returning a result. *)
Theorem absent_file_raises_RuntimeError :
  forall (w : World) (self : Database),
    sqlite_file w = None ->
    fst (__init__ w) = Ok self ->
    (forall protocol groups subworld,
        fst (clients self protocol groups subworld w) = Raise RuntimeError) /\
    (forall protocol groups subworld,
        fst (models self protocol groups subworld w) = Raise RuntimeError) /\
    (forall protocol model_ids groups purposes subworld world_type,
        fst (objects self protocol model_ids groups purposes subworld
               world_type w) = Raise RuntimeError) /\
    (forall protocol groups classes subworld,
        fst (pairs self protocol groups classes subworld w)
        = Raise RuntimeError) /\
    (forall file_ids prefix suffix,
        fst (paths self file_ids prefix suffix w) = Raise RuntimeError) /\
    (forall ps, fst (reverse self ps w) = Raise RuntimeError) /\
    (forall file_id,
        fst (get_client_id_from_file_id self file_id w)
        = Raise RuntimeError) /\
    (forall model_id,
        fst (get_client_id_from_model_id self model_id w)
        = Raise RuntimeError).
Proof.
  intros w self Hw Hinit.
  pose proof (connect_without_file w self Hw Hinit) as Hs.
  pose proof (assert_validity_raises self w Hs) as Ha.
  repeat split; intros;
    unfold clients, models, objects, pairs, paths, reverse,
      get_client_id_from_model_id, get_client_id_from_file_id;
    now rewrite (bind_raise _ _ _ _ _ Ha).
Qed.

Lemma absent_file_raises_RuntimeError_witness :
  sqlite_file Example.no_file = None /\
  fst (pairs Example.no_db (Some "fold1") ANone ANone (Some "sevenfolds")
         Example.no_file) = Raise RuntimeError.
Proof.
  split; [reflexivity | ].
  apply (absent_file_raises_RuntimeError Example.no_file Example.no_db);
    reflexivity.
Defined.

(** *** Fold rotation *)

Lemma disjointb_sound l1 l2 : disjointb l1 l2 = true -> disjoint l1 l2.
Proof.
  unfold disjointb, disjoint. rewrite forallb_forall. intros H s Hs Hs'.
  specialize (H s Hs). apply str_in_In in Hs'. rewrite Hs' in H. discriminate.
Qed.

Lemma inclb_sound l1 l2 : inclb l1 l2 = true -> incl l1 l2.
Proof.
  unfold inclb. rewrite forallb_forall. intros H s Hs.
  apply str_in_In. now apply H.
Qed.

Lemma same_elements_by_inclb l1 l2 :
  inclb l1 l2 = true -> inclb l2 l1 = true -> same_elements l1 l2.
Proof.
  intros H1 H2 s. split; [apply (inclb_sound _ _ H1) | apply (inclb_sound _ _ H2)].
Qed.

Lemma fold_number_cases k :
  1 <= k <= 10 ->
  k = 1 \/ k = 2 \/ k = 3 \/ k = 4 \/ k = 5 \/ k = 6 \/ k = 7 \/ k = 8 \/
  k = 9 \/ k = 10.
Proof. lia. Qed.

Ltac each_fold k H :=
  destruct (fold_number_cases k H)
    as [-> | [-> | [-> | [-> | [-> | [-> | [-> | [-> | [-> | ->]]]]]]]]].

Lemma eval_fold_name k : 1 <= k <= 10 -> __eval__ (fold_name k) = Ok k.
Proof. intros H. each_fold k H; reflexivity. Qed.

Lemma fold_name_valid k : 1 <= k <= 10 -> In (fold_name k) m_valid_protocols.
Proof. intros H. each_fold k H; vm_compute; tauto. Qed.

Lemma fold_name_not_view1 k : (fold_name k =? "view1")%string = false.
Proof.
  unfold fold_name. simpl. reflexivity.
Qed.

(** C8: for every [k] in 1..10 the seven folds of
    [__world_for__('foldk', 'sevenfolds')], the two folds of
    [__dev_for__('foldk')] and the fold [foldk] itself are pairwise
    disjoint, and together they are the ten folds. *)
Theorem world_dev_eval_partition :
  forall k : Z,
    1 <= k <= 10 ->
    exists world dev : list string,
      __world_for__ (fold_name k) (Some "sevenfolds") = Ok world /\
      __dev_for__ (fold_name k) = Ok dev /\
      List.length world = 7%nat /\
      List.length dev = 2%nat /\
      disjoint world dev /\
      disjoint world [fold_name k] /\
      disjoint dev [fold_name k] /\
      same_elements (world ++ dev ++ [fold_name k])%list all_folds.
Proof.
  intros k H.
  each_fold k H;
    (eexists; eexists;
     split; [vm_compute; reflexivity | ];
     split; [vm_compute; reflexivity | ];
     split; [reflexivity | ];
     split; [reflexivity | ];
     split; [apply disjointb_sound; vm_compute; reflexivity | ];
     split; [apply disjointb_sound; vm_compute; reflexivity | ];
     split; [apply disjointb_sound; vm_compute; reflexivity | ];
     apply same_elements_by_inclb; vm_compute; reflexivity).
Qed.

Lemma world_dev_eval_partition_witness :
  exists world dev : list string,
    __world_for__ "fold9" (Some "sevenfolds") = Ok world /\
    __dev_for__ "fold9" = Ok dev /\
    List.length world = 7%nat /\
    List.length dev = 2%nat /\
    disjoint world dev /\
    disjoint world ["fold9"] /\
    disjoint dev ["fold9"] /\
    same_elements (world ++ dev ++ ["fold9"])%list all_folds.
Proof.
  apply (world_dev_eval_partition 9). lia.
Defined.

(** *** Arguments outside their valid sets *)

Lemma check_single_bad_protocol protocol :
  bad_protocol protocol ->
  __check_single__ protocol m_valid_protocols = Raise ValueError.
Proof.
  intros H. destruct protocol as [s | ]; [ | reflexivity].
  unfold __check_single__.
  destruct (str_in s m_valid_protocols) eqn:E; [ | reflexivity].
  apply str_in_In in E. now elim (H s eq_refl).
Qed.

Lemma check_subworld_bad subworld :
  bad_subworld subworld -> check_subworld subworld = Raise ValueError.
Proof.
  destruct subworld as [s | ]; [ | simpl; tauto].
  intros H. unfold bad_subworld in H. apply str_in_false in H.
  unfold check_subworld, __check_single__. now rewrite H.
Qed.

Lemma check_each_outside l valid :
  (exists k, In k l /\ ~ In k valid) -> check_each l valid = Raise RuntimeError.
Proof.
  induction l as [| x l IH]; intros [k [Hk Hn]].
  - destruct Hk.
  - simpl. destruct (str_in x valid) eqn:E; simpl; [ | reflexivity].
    apply IH. exists k. split; [ | assumption].
    destruct Hk as [-> | Hk]; [ | assumption].
    apply str_in_In in E. contradiction.
Qed.

Lemma check_validity_outside a valid :
  outside valid a -> __check_validity__ a valid = Raise RuntimeError.
Proof.
  intros [k [Hk Hn]]. destruct a as [ | s | l]; simpl in Hk.
  - destruct Hk.
  - destruct s as [| c s]; [destruct Hk | ].
    unfold __check_validity__.
    rewrite (check_each_outside [String c s] valid); [reflexivity | ].
    exists k. now split.
  - destruct l as [| x l]; [destruct Hk | ].
    unfold __check_validity__.
    rewrite (check_each_outside (x :: l) valid); [reflexivity | ].
    exists k. now split.
Qed.

(** One check of the prologue of an operation: it raises, or it passes
    and the next check is looked at. *)
Ltac next_check :=
  match goal with
  | |- exists e, fst (bind (lift ?r) _ _) = Raise e =>
      let E := fresh "E" in
      destruct r eqn:E;
      [ rewrite bind_lift_ok
      | rewrite bind_lift_raise; eexists; reflexivity ]
  | |- exists e, fst (bind (assert_validity ?self) _ ?w) = Raise e =>
      let E := fresh "E" in
      destruct (is_valid self) eqn:E;
      [ rewrite (bind_ok _ _ _ _ _ (assert_validity_passes self w E))
      | unfold assert_validity; rewrite E; simpl; eexists; reflexivity ]
  end.

Ltac refuted_check :=
  match goal with
  | H : bad_protocol _ |- _ =>
      apply check_single_bad_protocol in H; congruence
  | H : outside _ _ |- _ => apply check_validity_outside in H; congruence
  | H : bad_subworld _ |- _ => apply check_subworld_bad in H; congruence
  end.



(** *** How the arguments that take names are read *)

Lemma check_each_valid valid l :
  incl l valid -> check_each l valid = Ok tt.
Proof.
  induction l as [| x l IH]; intros H; simpl; [reflexivity | ].
  assert (Hx : str_in x valid = true)
    by (apply str_in_In; apply H; now left).
  rewrite Hx. simpl. apply IH. intros y Hy. apply H. now right.
Qed.

Lemma check_validity_reads_as valid a a' :
  valid <> [] ->
  reads_as valid a a' ->
  __check_validity__ a valid = __check_validity__ a' valid.
Proof.
  intros Hne H.
  assert (Hall : __check_validity__ (ASeq valid) valid = Ok valid).
  { destruct valid as [| v valid]; [congruence | ].
    unfold __check_validity__.
    now rewrite (check_each_valid (v :: valid) (v :: valid) (incl_refl _)). }
  destruct H as [ | | | s Hs | a]; try (now rewrite Hall).
  - destruct s; [congruence | reflexivity].
  - reflexivity.
Qed.

Lemma groups_read_as g g' :
  reads_as m_valid_groups g g' ->
  __check_validity__ g m_valid_groups = __check_validity__ g' m_valid_groups.
Proof. apply check_validity_reads_as. discriminate. Qed.

Lemma purposes_read_as g g' :
  reads_as m_valid_purposes g g' ->
  __check_validity__ g m_valid_purposes
  = __check_validity__ g' m_valid_purposes.
Proof. apply check_validity_reads_as. discriminate. Qed.

Lemma classes_read_as g g' :
  reads_as m_valid_classes g g' ->
  __check_validity__ g m_valid_classes = __check_validity__ g' m_valid_classes.
Proof. apply check_validity_reads_as. discriminate. Qed.

(** C9, as the code has it: for [clients], [models], [objects] and
    [pairs], passing [None] or an empty sequence for the groups, the
    purposes or the classes gives what passing the full tuple of valid
    values gives, and a string other than the empty string gives what
    the one-element tuple that holds it gives. *)
Theorem names_arguments_read_as :
  forall (self : Database) (w : World),
    (forall protocol subworld g g',
        reads_as m_valid_groups g g' ->
        clients self protocol g subworld w
        = clients self protocol g' subworld w) /\
    (forall protocol subworld g g',
        reads_as m_valid_groups g g' ->
        models self protocol g subworld w
        = models self protocol g' subworld w) /\
    (forall protocol model_ids subworld world_type g g' p p',
        reads_as m_valid_groups g g' ->
        reads_as m_valid_purposes p p' ->
        objects self protocol model_ids g p subworld world_type w
        = objects self protocol model_ids g' p' subworld world_type w) /\
    (forall protocol subworld g g' c c',
        reads_as m_valid_groups g g' ->
        reads_as m_valid_classes c c' ->
        pairs self protocol g c subworld w
        = pairs self protocol g' c' subworld w).
Proof.
  intros self w. repeat split; intros;
    unfold clients, models, objects, pairs;
    repeat match goal with
           | H : reads_as m_valid_groups _ _ |- _ =>
               rewrite (groups_read_as _ _ H); clear H
           | H : reads_as m_valid_purposes _ _ |- _ =>
               rewrite (purposes_read_as _ _ H); clear H
           | H : reads_as m_valid_classes _ _ |- _ =>
               rewrite (classes_read_as _ _ H); clear H
           end;
    reflexivity.
Qed.

Lemma names_arguments_read_as_witness :
  reads_as m_valid_groups (AStr "dev") (ASeq ["dev"]) /\
  reads_as m_valid_classes ANone (ASeq ["matched"; "unmatched"]) /\
  pairs Example.db (Some "fold1") (AStr "dev") ANone (Some "sevenfolds")
    Example.world
  = pairs Example.db (Some "fold1") (ASeq ["dev"])
      (ASeq ["matched"; "unmatched"]) (Some "sevenfolds") Example.world.
Proof.
  assert (Hg : reads_as m_valid_groups (AStr "dev") (ASeq ["dev"]))
    by (apply reads_string; discriminate).
  assert (Hc : reads_as m_valid_classes ANone (ASeq ["matched"; "unmatched"]))
    by apply reads_none.
  split; [exact Hg | split; [exact Hc | ]].
  apply (names_arguments_read_as Example.db Example.world); assumption.
Defined.

(** C9 as stated fails at the empty string: it is read as [None], so
    every group is selected, while the tuple that holds it is refused. *)
Lemma empty_string_is_not_a_singleton :
  fst (clients Example.db (Some "fold1") (AStr "") (Some "sevenfolds")
         Example.world)
  = Ok [mkClient "Bo_Diaz"; mkClient "Ann_Lee"] /\
  fst (clients Example.db (Some "fold1") (ASeq [""]) (Some "sevenfolds")
         Example.world)
  = Raise RuntimeError /\
  clients Example.db (Some "fold1") (AStr "") (Some "sevenfolds")
    Example.world
  <> clients Example.db (Some "fold1") (ASeq [""]) (Some "sevenfolds")
       Example.world.
Proof.
  split; [vm_compute; reflexivity | ].
  split; [vm_compute; reflexivity | ].
  intros H. apply (f_equal fst) in H. vm_compute in H. discriminate H.
Qed.

(** *** The operations on the example database *)

Example clients_of_fold1 :
  fst (clients Example.db (Some "fold1") ANone (Some "sevenfolds")
         Example.world)
  = Ok [mkClient "Bo_Diaz"; mkClient "Ann_Lee"].
Proof. reflexivity. Qed.

Example models_of_fold1_world :
  fst (models Example.db (Some "fold1") (AStr "world") (Some "sevenfolds")
         Example.world)
  = Ok [File_init "Ann_Lee" (ShotInt 1); File_init "Bo_Diaz" (ShotInt 1)].
Proof. reflexivity. Qed.

Example probes_of_fold1_dev :
  fst (objects Example.db (Some "fold1") (AStr "Ann_Lee_0002") (AStr "dev")
         (AStr "probe") (Some "sevenfolds") (Some "restricted")
         Example.world)
  = Ok [File_init "Bo_Diaz" (ShotInt 1); File_init "Ann_Lee" (ShotInt 1)].
Proof. reflexivity. Qed.

Example matched_pairs_of_fold1_dev :
  fst (pairs Example.db (Some "fold1") (AStr "dev") (AStr "matched")
         (Some "sevenfolds") Example.world)
  = Ok [mkPair 4 "fold10" "Ann_Lee_0002" "Ann_Lee_0001" true].
Proof. reflexivity. Qed.

Example world_needs_a_subworld :
  fst (pairs Example.db (Some "fold1") (AStr "world") ANone None
         Example.world)
  = Raise KeyError.
Proof. reflexivity. Qed.

Example client_of_file :
  fst (get_client_id_from_model_id Example.db "Bo_Diaz_0001" Example.world)
  = Ok "Bo_Diaz".
Proof. reflexivity. Qed.

Example paths_reads_a_missing_attribute :
  fst (paths Example.db ["Bo_Diaz_0001"] "" "" Example.world)
  = Raise AttributeError.
Proof. reflexivity. Qed.

(** *** The pairs of a fold protocol *)

Section UniqueRows.
Variables (E K : Type) (eqb : K -> K -> bool) (key : E -> K).
Hypothesis eqb_eq : forall x y, eqb x y = true <-> x = y.

Lemma seen_In k seen : existsb (eqb k) seen = true <-> In k seen.
Proof.
  rewrite existsb_exists. split.
  - intros [x [Hx He]]. apply eqb_eq in He. now subst.
  - intros H. exists k. split; [assumption | now apply eqb_eq].
Qed.

(** Rows of an object that was already met are dropped. *)
Lemma unique_from_seen_block seen x n l :
  In (key x) seen ->
  unique_from eqb key seen (repeat x n ++ l) = unique_from eqb key seen l.
Proof.
  intros H. induction n as [| n IH]; simpl; [reflexivity | ].
  apply seen_In in H. now rewrite H.
Qed.

Lemma filter_unseen_more (c : E -> bool) seen k l :
  ~ In k (map key l) ->
  filter (fun x => c x && negb (existsb (eqb (key x)) (k :: seen))) l
  = filter (fun x => c x && negb (existsb (eqb (key x)) seen)) l.
Proof.
  intros H. apply filter_ext_in. intros x Hx. simpl.
  destruct (eqb (key x) k) eqn:Ek; [ | reflexivity].
  apply eqb_eq in Ek. elim H. rewrite <- Ek. now apply in_map.
Qed.

(** When the rows come in blocks, one block for each object of a list
    without repeated key, iteration yields the objects whose block is
    not empty, in the order of the list. *)
Lemma unique_from_blocks (size : E -> nat) seen l :
  NoDup (map key l) ->
  unique_from eqb key seen (flat_map (fun x => repeat x (size x)) l)
  = filter (fun x => negb (size x =? 0)%nat
                     && negb (existsb (eqb (key x)) seen)) l.
Proof.
  revert seen. induction l as [| x l IH]; intros seen Hnd; [reflexivity | ].
  simpl in Hnd. inversion Hnd as [| ? ? Hx Hl]; subst.
  cbn [flat_map filter].
  destruct (size x) as [| n] eqn:En.
  - simpl. now apply IH.
  - cbn [repeat app unique_from Nat.eqb negb andb].
    destruct (existsb (eqb (key x)) seen) eqn:Es.
    + cbn [negb]. rewrite unique_from_seen_block by now apply seen_In.
      now apply IH.
    + cbn [negb]. f_equal.
      rewrite unique_from_seen_block by now left.
      rewrite IH by assumption. now apply filter_unseen_more.
Qed.
End UniqueRows.

Lemma map_const_repeat {A B} (x : B) (l : list A) :
  map (fun _ => x) l = repeat x (List.length l).
Proof. induction l; simpl; congruence. Qed.

Lemma repeat_app_length {A} (x : A) n m :
  (repeat x n ++ repeat x m)%list = repeat x (n + m).
Proof. now rewrite repeat_app. Qed.

Lemma pair_block_rows (fs : list File) (cond : Pair -> bool) (p : Pair)
  (fl : list File) :
  map (fun r : Pair * File * File => fst (fst r))
    (filter (fun r : Pair * File * File => cond (fst (fst r)))
      (flat_map
         (fun r : Pair * File =>
            map (fun b => (r, b))
              (filter
                 (fun f2 => (File_id f2 =? Pair_probe_file_id (fst r))%string)
                 fs))
         (map (fun b => (p, b)) fl)))
  = repeat p
      (if cond p
       then List.length fl
            * List.length
                (filter
                   (fun f => (File_id f =? Pair_probe_file_id p)%string) fs)
       else 0).
Proof.
  induction fl as [| f fl IH].
  - simpl. now destruct (cond p).
  - cbn [map flat_map fst]. rewrite filter_app, map_app, IH.
    destruct (cond p) eqn:Ec.
    + rewrite (filter_ext_in _ (fun _ => true)).
      2:{ intros r Hr. apply in_map_iff in Hr. destruct Hr as [b [<- _]].
          exact Ec. }
      replace (filter (fun _ : Pair * File * File => true)
                 (map (fun b : File => (p, f, b))
                    (filter (fun f2 : File =>
                               (File_id f2 =? Pair_probe_file_id p)%string)
                            fs)))
        with (map (fun b : File => (p, f, b))
                (filter (fun f2 : File =>
                           (File_id f2 =? Pair_probe_file_id p)%string) fs)).
      2:{ generalize (map (fun b : File => (p, f, b))
                        (filter (fun f2 : File =>
                                   (File_id f2 =? Pair_probe_file_id p)%string)
                                fs)).
          intros l. induction l; simpl; congruence. }
      rewrite map_map. cbn [fst]. rewrite map_const_repeat.
      rewrite repeat_app_length. reflexivity.
    + rewrite (filter_ext_in _ (fun _ => false)).
      2:{ intros r Hr. apply in_map_iff in Hr. destruct Hr as [b [<- _]].
          exact Ec. }
      replace (filter (fun _ : Pair * File * File => false)
                 (map (fun b : File => (p, f, b))
                    (filter (fun f2 : File =>
                               (File_id f2 =? Pair_probe_file_id p)%string)
                            fs)))
        with (@nil (Pair * File * File)).
      2:{ generalize (map (fun b : File => (p, f, b))
                        (filter (fun f2 : File =>
                                   (File_id f2 =? Pair_probe_file_id p)%string)
                                fs)).
          intros l. induction l; simpl; congruence. }
      reflexivity.
Qed.

Lemma pairs_query_blocks (t : Tables) (cond : Pair -> bool) :
  map (fun r => fst (fst r)) (pairs_query cond t)
  = flat_map (fun p => repeat p (rows_of_pair t cond p)) (pair_table t).
Proof.
  unfold pairs_query, qfilter, default_query, join.
  induction (pair_table t) as [| p ps IH]; [reflexivity | ].
  cbn [flat_map]. rewrite flat_map_app, filter_app, map_app, IH.
  f_equal. apply pair_block_rows.
Qed.

Lemma iter_pairs_query (t : Tables) (cond : Pair -> bool) :
  pair_table_consistent t ->
  unique_list Z.eqb Pair_id (map (fun r => fst (fst r)) (pairs_query cond t))
  = filter cond (pair_table t).
Proof.
  intros [Hkey Hfk]. rewrite pairs_query_blocks. unfold unique_list.
  rewrite (unique_from_blocks Pair Z Z.eqb Pair_id Z.eqb_eq) by assumption.
  apply filter_ext_in. intros p Hp. cbn [existsb negb]. rewrite andb_true_r.
  unfold rows_of_pair. destruct (cond p); [ | reflexivity].
  destruct (Hfk p Hp) as [[f1 [Hf1 He1]] [f2 [Hf2 He2]]].
  assert (H1 : In f1 (filter (fun f => (File_id f =? Pair_enrol_file_id p)%string)
                        (file_table t)))
    by (apply filter_In; split; [assumption | now apply String.eqb_eq]).
  assert (H2 : In f2 (filter (fun f => (File_id f =? Pair_probe_file_id p)%string)
                        (file_table t)))
    by (apply filter_In; split; [assumption | now apply String.eqb_eq]).
  destruct (filter (fun f => (File_id f =? Pair_enrol_file_id p)%string)
              (file_table t)); [destruct H1 | ].
  destruct (filter (fun f => (File_id f =? Pair_probe_file_id p)%string)
              (file_table t)); [destruct H2 | ].
  reflexivity.
Qed.

Lemma filter_twice {A} (f g : A -> bool) (l : list A) :
  filter f (filter g l) = filter (fun x => g x && f x) l.
Proof.
  induction l as [| x l IH]; simpl; [reflexivity | ].
  destruct (g x); simpl; [ | exact IH].
  destruct (f x); simpl; now rewrite IH.
Qed.

(** The filters the loop of [pairs] adds for the classes make the query
    of the pairs that meet the condition and are of a wanted class. *)
Lemma class_filters classes cond t :
  (let q := pairs_query cond in
   let q :=
     if negb (str_in "matched" classes)
     then qfilter (fun r => Bool.eqb (Pair_is_match (fst (fst r))) false) q
     else q in
   let q :=
     if negb (str_in "unmatched" classes)
     then qfilter (fun r => Bool.eqb (Pair_is_match (fst (fst r))) true) q
     else q in
   q t)
  = pairs_query (fun p => cond p && class_selected classes p) t.
Proof.
  unfold class_selected, pairs_query, qfilter. cbv zeta.
  destruct (str_in "matched" classes), (str_in "unmatched" classes);
    cbn [negb orb]; rewrite ?filter_twice; apply filter_ext; intros r;
    destruct (cond (fst (fst r))), (Pair_is_match (fst (fst r)));
    reflexivity.
Qed.

(** One query: the loop of [pairs] returns the pairs that meet the
    condition of the query and are of a wanted class. *)
Lemma collect_pairs_single w t cond classes :
  sqlite_file w = Some t ->
  pair_table_consistent t ->
  collect_pairs classes [pairs_query cond] w
  = (Ok (filter (fun p => cond p && class_selected classes p)
           (pair_table t)), w).
Proof.
  intros Hw Hc. cbn [collect_pairs].
  unfold iter_pairs, run, bind, ret. rewrite Hw.
  pose proof (class_filters classes cond t) as Hq. cbv zeta in Hq.
  rewrite Hq.
  rewrite (iter_pairs_query t _ Hc). now rewrite app_nil_r.
Qed.

Lemma both_classes_selected p : class_selected m_valid_classes p = true.
Proof. reflexivity. Qed.

Lemma check_validity_single g x valid :
  named g = [x] -> In x valid -> __check_validity__ g valid = Ok [x].
Proof.
  intros Hg Hx. apply str_in_In in Hx.
  destruct g as [ | s | l]; simpl in Hg; try discriminate.
  - destruct s as [| c s]; [discriminate | ]. injection Hg as <-.
    unfold __check_validity__, check_each. now rewrite Hx.
  - subst l. unfold __check_validity__, check_each. now rewrite Hx.
Qed.

Lemma check_subworld_passes subworld :
  ~ bad_subworld subworld -> check_subworld subworld = Ok tt.
Proof.
  destruct subworld as [s | ]; [ | reflexivity].
  intros H. unfold check_subworld, __check_single__.
  destruct (str_in s (keys m_subworld_counts)) eqn:E; [reflexivity | ].
  apply str_in_false in E. contradiction.
Qed.

Lemma subworld_count subworld n :
  In (subworld, n) m_subworld_counts ->
  getitem m_subworld_counts (Some subworld) = Ok n /\
  ~ bad_subworld (Some subworld).
Proof.
  intros H. simpl in H.
  repeat (destruct H as [H | H];
          [injection H as <- <-; split;
           [reflexivity | simpl; tauto] | ]).
  destruct H.
Qed.

Lemma in_fold_names ms p :
  in_ (Pair_protocol p) (map fold_name ms) = protocol_among ms p.
Proof.
  unfold in_, str_in, protocol_among.
  induction ms as [| m ms IH]; simpl; congruence.
Qed.

Lemma protocol_is_fold k p :
  (Pair_protocol p =? fold_name k)%string = protocol_among [k] p.
Proof. unfold protocol_among. simpl. now rewrite orb_false_r. Qed.

Lemma dev_for_fold k :
  1 <= k <= 10 ->
  __dev_for__ (fold_name k)
  = Ok (map fold_name [(k + 7) mod 10 + 1; (k + 8) mod 10 + 1]).
Proof.
  intros H. unfold __dev_for__. now rewrite (eval_fold_name k H).
Qed.

Lemma world_for_fold k subworld n :
  1 <= k <= 10 ->
  In (subworld, n) m_subworld_counts ->
  __world_for__ (fold_name k) (Some subworld)
  = Ok (map fold_name (map (fun i => (k + i) mod 10 + 1) (range n))).
Proof.
  intros H Hn. unfold __world_for__. rewrite (eval_fold_name k H).
  destruct (subworld_count subworld n Hn) as [-> _]. reflexivity.
Qed.

Lemma check_fold_protocol k :
  1 <= k <= 10 ->
  __check_single__ (Some (fold_name k)) m_valid_protocols = Ok (fold_name k).
Proof.
  intros H. unfold __check_single__.
  now rewrite (proj2 (str_in_In _ _) (fold_name_valid k H)).
Qed.

(** The prologue of [pairs] on a fold protocol: what remains is the
    choice of the queries and the loop. *)
Lemma pairs_on_fold self w t k groups gs classes cl subworld :
  valid_database self w t ->
  1 <= k <= 10 ->
  __check_validity__ groups m_valid_groups = Ok gs ->
  __check_validity__ classes m_valid_classes = Ok cl ->
  ~ bad_subworld subworld ->
  pairs self (Some (fold_name k)) groups classes subworld w
  = bind (lift (
      rbind (if str_in "world" gs then
               rbind (__world_for__ (fold_name k) subworld) (fun trainset =>
               Ok [pairs_query (fun p => in_ (Pair_protocol p) trainset)])
             else Ok []) (fun q_world =>
      rbind (if str_in "dev" gs then
               rbind (__dev_for__ (fold_name k)) (fun devset =>
               Ok [pairs_query (fun p => in_ (Pair_protocol p) devset)])
             else Ok []) (fun q_dev =>
      Ok (q_world ++ q_dev
          ++ when (str_in "eval" gs)
               (pairs_query
                  (fun p => (Pair_protocol p =? fold_name k)%string)))%list))))
      (fun queries => collect_pairs cl queries) w.
Proof.
  intros [Hvalid _] Hk Hg Hc Hs. unfold pairs.
  rewrite (bind_ok _ _ _ _ _ (assert_validity_passes self w Hvalid)).
  rewrite (check_fold_protocol k Hk), bind_lift_ok.
  rewrite Hg, bind_lift_ok.
  rewrite Hc, bind_lift_ok.
  rewrite (check_subworld_passes subworld Hs), bind_lift_ok.
  rewrite fold_name_not_view1. reflexivity.
Qed.

Lemma check_validity_named classes :
  ~ outside m_valid_classes classes ->
  __check_validity__ classes m_valid_classes
  = Ok (match named classes with [] => m_valid_classes | l => l end).
Proof.
  intros H.
  assert (Hin : forall l, l = named classes -> incl l m_valid_classes).
  { intros l -> x Hx.
    destruct (str_in x m_valid_classes) eqn:E; [now apply str_in_In | ].
    elim H. exists x. split; [assumption | now apply str_in_false]. }
  destruct classes as [ | s | l]; [reflexivity | | ].
  - destruct s as [| c s]; [reflexivity | ].
    unfold __check_validity__.
    now rewrite (check_each_valid _ _ (Hin [String c s] eq_refl)).
  - destruct l as [| x l]; [reflexivity | ].
    unfold __check_validity__.
    now rewrite (check_each_valid _ _ (Hin (x :: l) eq_refl)).
Qed.

(** The pairs of a fold protocol, whatever the classes asked for: the
    rows of the protocols of the group that are of a wanted class. *)
Lemma pairs_of_fold_protocol_by_class self w t k classes :
  valid_database self w t ->
  pair_table_consistent t ->
  1 <= k <= 10 ->
  ~ outside m_valid_classes classes ->
  let wanted :=
    class_selected
      (match named classes with [] => m_valid_classes | l => l end) in
  (forall groups subworld,
      named groups = ["eval"] ->
      ~ bad_subworld subworld ->
      fst (pairs self (Some (fold_name k)) groups classes subworld w)
      = Ok (filter (fun p => protocol_among [k] p && wanted p)
              (pair_table t))) /\
  (forall groups subworld,
      named groups = ["dev"] ->
      ~ bad_subworld subworld ->
      fst (pairs self (Some (fold_name k)) groups classes subworld w)
      = Ok (filter
              (fun p =>
                 protocol_among [(k + 7) mod 10 + 1; (k + 8) mod 10 + 1] p
                 && wanted p)
              (pair_table t))) /\
  (forall groups subworld n,
      named groups = ["world"] ->
      In (subworld, n) m_subworld_counts ->
      fst (pairs self (Some (fold_name k)) groups classes (Some subworld) w)
      = Ok (filter
              (fun p =>
                 protocol_among
                   (map (fun i => (k + i) mod 10 + 1) (range n)) p
                 && wanted p)
              (pair_table t))).
Proof.
  intros Hv Hc Hk Hcl wanted.
  pose proof (proj2 Hv) as Hw.
  pose proof (check_validity_named classes Hcl) as Hcheck.
  split; [ | split].
  - intros groups subworld Hg Hs.
    rewrite (pairs_on_fold self w t k groups ["eval"] classes _ subworld)
      by first [ eassumption
               | apply check_validity_single; [assumption | simpl; tauto] ].
    cbn [str_in existsb String.eqb Ascii.eqb Bool.eqb orb when rbind app].
    rewrite bind_lift_ok, (collect_pairs_single w t _ _ Hw Hc). cbn [fst].
    apply f_equal. apply filter_ext. intros p.
    now rewrite protocol_is_fold.
  - intros groups subworld Hg Hs.
    rewrite (pairs_on_fold self w t k groups ["dev"] classes _ subworld)
      by first [ eassumption
               | apply check_validity_single; [assumption | simpl; tauto] ].
    cbn [str_in existsb String.eqb Ascii.eqb Bool.eqb orb when rbind app].
    rewrite (dev_for_fold k Hk).
    cbn [rbind app].
    rewrite bind_lift_ok, (collect_pairs_single w t _ _ Hw Hc). cbn [fst].
    apply f_equal. apply filter_ext. intros p.
    now rewrite in_fold_names.
  - intros groups subworld n Hg Hn.
    destruct (subworld_count subworld n Hn) as [_ Hs].
    rewrite (pairs_on_fold self w t k groups ["world"] classes _
               (Some subworld))
      by first [ eassumption
               | apply check_validity_single; [assumption | simpl; tauto] ].
    cbn [str_in existsb String.eqb Ascii.eqb Bool.eqb orb when rbind app].
    rewrite (world_for_fold k subworld n Hk Hn).
    cbn [rbind app].
    rewrite bind_lift_ok, (collect_pairs_single w t _ _ Hw Hc). cbn [fst].
    apply f_equal. apply filter_ext. intros p.
    now rewrite in_fold_names.
Qed.

Lemma reads_as_both_classes classes :
  reads_as m_valid_classes classes (ASeq m_valid_classes) ->
  ~ outside m_valid_classes classes /\
  match named classes with [] => m_valid_classes | l => l end
  = m_valid_classes.
Proof.
  intros H.
  assert (Hnone : forall a, named a = [] -> ~ outside m_valid_classes a)
    by (intros a Ha [k [Hk _]]; rewrite Ha in Hk; destruct Hk).
  inversion H; subst.
  - split; [now apply Hnone | reflexivity].
  - split; [now apply Hnone | reflexivity].
  - split; [now apply Hnone | reflexivity].
  - split; [ | reflexivity]. intros [k [Hk Hn]]. contradiction.
Qed.

(** C1: on a valid database whose pair table respects its keys, and for
    the fold protocol [foldk], [pairs] with group [eval] returns exactly
    the rows of the pair table whose protocol is [foldk]; with group
    [dev], exactly those whose protocol is [foldm] for [m] one of
    [(k+7) mod 10 + 1] and [(k+8) mod 10 + 1]; with group [world] and a
    subworld of count [n], exactly those whose protocol is [foldm] for
    [m = (k+i) mod 10 + 1] with [0 <= i < n].  The classes are left at
    both. *)
Theorem pairs_of_fold_protocol :
  forall (self : Database) (w : World) (t : Tables) (k : Z),
    valid_database self w t ->
    pair_table_consistent t ->
    1 <= k <= 10 ->
    forall classes,
      reads_as m_valid_classes classes (ASeq m_valid_classes) ->
      (forall groups subworld,
          named groups = ["eval"] ->
          ~ bad_subworld subworld ->
          fst (pairs self (Some (fold_name k)) groups classes subworld w)
          = Ok (filter (protocol_among [k]) (pair_table t))) /\
      (forall groups subworld,
          named groups = ["dev"] ->
          ~ bad_subworld subworld ->
          fst (pairs self (Some (fold_name k)) groups classes subworld w)
          = Ok (filter
                  (protocol_among [(k + 7) mod 10 + 1; (k + 8) mod 10 + 1])
                  (pair_table t))) /\
      (forall groups subworld n,
          named groups = ["world"] ->
          In (subworld, n) m_subworld_counts ->
          fst (pairs self (Some (fold_name k)) groups classes
                 (Some subworld) w)
          = Ok (filter
                  (protocol_among
                     (map (fun i => (k + i) mod 10 + 1) (range n)))
                  (pair_table t))).
Proof.
  intros self w t k Hv Hc Hk classes Hcl.
  destruct (reads_as_both_classes classes Hcl) as [Hin Hboth].
  pose proof (pairs_of_fold_protocol_by_class self w t k classes Hv Hc Hk Hin)
    as H.
  cbv zeta in H. rewrite Hboth in H.
  destruct H as [Heval [Hdev Hworld]].
  split; [ | split].
  - intros groups subworld Hg Hs. rewrite (Heval groups subworld Hg Hs).
    apply f_equal, filter_ext. intros p.
    now rewrite both_classes_selected, andb_true_r.
  - intros groups subworld Hg Hs. rewrite (Hdev groups subworld Hg Hs).
    apply f_equal, filter_ext. intros p.
    now rewrite both_classes_selected, andb_true_r.
  - intros groups subworld n Hg Hn. rewrite (Hworld groups subworld n Hg Hn).
    apply f_equal, filter_ext. intros p.
    now rewrite both_classes_selected, andb_true_r.
Qed.

Lemma pairs_of_fold_protocol_witness :
  valid_database Example.db Example.world Example.tables /\
  pair_table_consistent Example.tables /\
  fst (pairs Example.db (Some "fold1") (AStr "dev") ANone (Some "sevenfolds")
         Example.world)
  = Ok [mkPair 3 "fold9" "Ann_Lee_0002" "Bo_Diaz_0001" false;
        mkPair 4 "fold10" "Ann_Lee_0002" "Ann_Lee_0001" true].
Proof.
  assert (Hv : valid_database Example.db Example.world Example.tables)
    by (split; reflexivity).
  assert (Hc : pair_table_consistent Example.tables).
  { split.
    - simpl. repeat constructor; simpl; intuition discriminate.
    - pose (f1 := File_init "Ann_Lee" (ShotInt 1)).
      pose (f2 := File_init "Ann_Lee" (ShotInt 2)).
      pose (f3 := File_init "Bo_Diaz" (ShotInt 1)).
      intros p Hp. simpl in Hp.
      destruct Hp as [<- | [<- | [<- | [<- | []]]]].
      + split; [exists f1 | exists f2]; split; simpl; tauto.
      + split; [exists f1 | exists f3]; split; simpl; tauto.
      + split; [exists f2 | exists f3]; split; simpl; tauto.
      + split; [exists f2 | exists f1]; split; simpl; tauto. }
  split; [exact Hv | split; [exact Hc | ]].
  assert (Hk : 1 <= 1 <= 10) by lia.
  destruct (pairs_of_fold_protocol Example.db Example.world Example.tables 1
              Hv Hc Hk ANone (reads_none _)) as [_ [Hdev _]].
  apply (Hdev (AStr "dev") (Some "sevenfolds")).
  - reflexivity.
  - simpl. tauto.
Defined.

(** *** The id and the path of a file *)

Lemma str_repeat_zero_length n : String.length (str_repeat "0" n) = n.
Proof. induction n; simpl; congruence. Qed.

Lemma str_repeat_all_zeros n : all_zeros (str_repeat "0" n).
Proof.
  induction n as [| n IH]; intros c Hc; simpl in Hc.
  - destruct Hc.
  - destruct Hc as [<- | Hc]; [reflexivity | now apply IH].
Qed.

Lemma string_append_assoc (a b c : string) : ((a ++ b) ++ c = a ++ b ++ c)%string.
Proof. induction a; simpl; congruence. Qed.

Lemma string_append_length (a b : string) :
  String.length (a ++ b) = (String.length a + String.length b)%nat.
Proof. induction a; simpl; congruence. Qed.

(** C10: for a file built from a client id and a shot id whose string
    form has at most four characters, the id is the client id, an
    underscore, and the shot id padded on the left with zeros to four
    characters; the path is the path join of the client id and that
    id. *)
Theorem file_id_and_path :
  forall (client_id : string) (shot_id : shot),
    (String.length (str shot_id) <= 4)%nat ->
    exists pad : string,
      all_zeros pad /\
      String.length (pad ++ str shot_id) = 4%nat /\
      File_id (File_init client_id shot_id)
      = (client_id ++ "_" ++ pad ++ str shot_id)%string /\
      File_path (File_init client_id shot_id)
      = os_path_join client_id (File_id (File_init client_id shot_id)).
Proof.
  intros client_id shot_id Hlen.
  exists (str_mul "0" (4 - len (str shot_id))).
  split; [apply str_repeat_all_zeros | ].
  split.
  - rewrite string_append_length. unfold str_mul, len.
    rewrite str_repeat_zero_length. lia.
  - split; [ | reflexivity].
    unfold File_init. cbn [File_id].
    now rewrite !string_append_assoc.
Qed.

Lemma file_id_and_path_witness :
  (String.length (str (ShotInt 12)) <= 4)%nat /\
  exists pad : string,
    all_zeros pad /\
    String.length (pad ++ "12") = 4%nat /\
    File_id (File_init "Ann_Lee" (ShotInt 12))
    = ("Ann_Lee" ++ "_" ++ pad ++ "12")%string /\
    File_path (File_init "Ann_Lee" (ShotInt 12))
    = os_path_join "Ann_Lee" "Ann_Lee_0012".
Proof.
  assert (H : (String.length (str (ShotInt 12)) <= 4)%nat) by (simpl; lia).
  split; [exact H | ].
  exact (file_id_and_path "Ann_Lee" (ShotInt 12) H).
Defined.

(** *** Annotation files that are missing *)

Lemma add_annotation_fs dir ext ty verbose file s :
  fs (snd (add_annotation dir ext ty verbose file s)) = fs s.
Proof.
  unfold add_annotation, os_path_exists, bind, gets, open_read, session_add,
    modify, ret, lift.
  destruct (fs s (make_path file dir (Some ext))) as [[l | c] | ] eqn:E;
    simpl; destruct (gt verbose 1); simpl; rewrite ?E; reflexivity.
Qed.

Lemma add_annotation_missing dir ext ty verbose file s :
  fs s (make_path file dir (Some ext)) = None ->
  add_annotation dir ext ty verbose file s = (Ok tt, s).
Proof.
  intros H. unfold add_annotation, os_path_exists, bind, gets.
  now rewrite H.
Qed.

Lemma annotated_same_fs s s' dir ext :
  fs s' = fs s -> forall f, annotated s' dir ext f = annotated s dir ext f.
Proof. intros H f. unfold annotated. now rewrite H. Qed.

Lemma add_annotation_loop_skips dir ext ty verbose files :
  forall s0 s,
    fs s = fs s0 ->
    for_each files (add_annotation dir ext ty verbose) s
    = for_each (filter (annotated s0 dir ext) files)
        (add_annotation dir ext ty verbose) s.
Proof.
  induction files as [| f files IH]; intros s0 s Hfs; [reflexivity | ].
  cbn [filter]. destruct (annotated s0 dir ext f) eqn:Ea.
  - cbn [for_each]. unfold bind.
    pose proof (add_annotation_fs dir ext ty verbose f s) as Hs.
    destruct (add_annotation dir ext ty verbose f s) as [[[] | e] s'];
      [ | reflexivity].
    apply IH. simpl in Hs. congruence.
  - cbn [for_each]. unfold bind.
    rewrite add_annotation_missing.
    + now apply IH.
    + unfold annotated in Ea. rewrite <- Hfs in Ea.
      now destruct (fs s (make_path f dir (Some ext))).
Qed.

Lemma session_flush_fs s : fs (snd (session_flush s)) = fs s.
Proof.
  unfold session_flush. now destruct (insert_all (pending s) (tables s)).
Qed.

Lemma query_File_fs s : fs (snd (query_File s)) = fs s.
Proof.
  unfold query_File, bind, gets, ret, raise.
  pose proof (session_flush_fs s) as H.
  destruct (session_flush s) as [[[] | e] s']; simpl in *; [ | assumption].
  now destruct (table_rows "file" (tables s')).
Qed.

(** C7: a file whose annotation file does not exist is skipped: the
    body of the loop of [add_annotations] returns without raising and
    without doing anything else; the loop goes on with the remaining
    files, so that a run is the run over the files that have an
    annotation file. *)
Theorem missing_annotation_is_skipped :
  forall (annotation_directory : option string)
         (annotation_extension annotation_type : string)
         (verbose : option Z) (s : State),
    (forall file,
        fs s (make_path file annotation_directory (Some annotation_extension))
        = None ->
        add_annotation annotation_directory annotation_extension
          annotation_type verbose file s = (Ok tt, s)) /\
    (forall files,
        for_each files
          (add_annotation annotation_directory annotation_extension
             annotation_type verbose) s
        = for_each
            (filter (annotated s annotation_directory annotation_extension)
               files)
            (add_annotation annotation_directory annotation_extension
               annotation_type verbose) s) /\
    add_annotations annotation_directory annotation_extension annotation_type
      verbose s
    = (session_flush ;;
       files <- query_File ;;
       for_each
         (filter (annotated s annotation_directory annotation_extension)
            files)
         (add_annotation annotation_directory annotation_extension
            annotation_type verbose))%py s.
Proof.
  intros dir ext ty verbose s. split; [ | split].
  - intros file H. now apply add_annotation_missing.
  - intros files. now apply add_annotation_loop_skips.
  - unfold add_annotations, bind.
    pose proof (session_flush_fs s) as H1.
    destruct (session_flush s) as [[[] | e] s1]; [ | reflexivity].
    pose proof (query_File_fs s1) as H2.
    destruct (query_File s1) as [[files | e] s2]; [ | reflexivity].
    simpl in H1, H2. apply add_annotation_loop_skips. congruence.
Qed.

(** *** What the import steps keep *)

Lemma import_step_refl args s : import_step args s s.
Proof.
  repeat split; auto.
  exists []. split; [now rewrite app_nil_r | constructor].
Qed.

Lemma import_step_trans args s1 s2 s3 :
  import_step args s1 s2 -> import_step args s2 s3 -> import_step args s1 s3.
Proof.
  intros [Hf1 [Hd1 [Hn1 [Ht1 [new1 [Hr1 He1]]]]]]
         [Hf2 [Hd2 [Hn2 [Ht2 [new2 [Hr2 He2]]]]]].
  repeat split; try congruence; auto.
  exists (new1 ++ new2)%list. split.
  - rewrite Hr2, Hr1. now rewrite app_assoc.
  - apply Forall_app. now split.
Qed.

Lemma keeps_ret {A} args (a : A) : keeps args (ret a).
Proof. intros s. apply import_step_refl. Qed.

Lemma keeps_raise {A} args e : keeps args (@raise State A e).
Proof. intros s. apply import_step_refl. Qed.

Lemma keeps_lift {A} args (r : result A) : keeps args (lift r).
Proof. intros s. apply import_step_refl. Qed.

Lemma keeps_gets {A} args (f : State -> A) : keeps args (gets f).
Proof. intros s. apply import_step_refl. Qed.

Lemma keeps_bind {A B} args (m : M State A) (k : A -> M State B) :
  keeps args m -> (forall a, keeps args (k a)) -> keeps args (bind m k).
Proof.
  intros Hm Hk s. unfold bind. specialize (Hm s).
  destruct (m s) as [[a | e] s1]; simpl in Hm.
  - eapply import_step_trans; [exact Hm | apply Hk].
  - exact Hm.
Qed.

Lemma keeps_for_each {A} args (l : list A) (body : A -> M State unit) :
  (forall x, keeps args (body x)) -> keeps args (for_each l body).
Proof.
  intros Hb. induction l as [| x l IH]; simpl.
  - apply keeps_ret.
  - apply keeps_bind; [apply Hb | intros _; exact IH].
Qed.

Lemma keeps_if {A} args (c : bool) (m1 m2 : M State A) :
  keeps args m1 -> keeps args m2 -> keeps args (if c then m1 else m2).
Proof. now destruct c. Qed.

Lemma keeps_listdir args path :
  expected_read args (Listed path) -> keeps args (listdir path).
Proof.
  intros He s. unfold listdir.
  destruct (fs s path) as [[l | c] | ]; simpl; try apply import_step_refl.
  repeat split; auto. exists [Listed path]. split; [reflexivity | ].
  now constructor.
Qed.

Lemma keeps_open_read args path :
  expected_read args (Opened path) -> keeps args (open_read path).
Proof.
  intros He s. unfold open_read.
  destruct (fs s path) as [[l | c] | ]; simpl; try apply import_step_refl.
  repeat split; auto. exists [Opened path]. split; [reflexivity | ].
  now constructor.
Qed.

Lemma keeps_os_path_exists args path : keeps args (os_path_exists path).
Proof. apply keeps_gets. Qed.

Lemma keeps_session_add args o : keeps args (session_add o).
Proof.
  intros s. unfold session_add, modify. simpl.
  repeat split; auto. exists []. split; [now rewrite app_nil_r | constructor].
Qed.

Lemma append_row_names name r st :
  map fst (append_row name r st) = map fst st.
Proof.
  induction st as [| [n rows] st IH]; simpl; [reflexivity | ].
  destruct (n =? name)%string; simpl; congruence.
Qed.

Lemma append_row_In name r st n rows :
  In (n, rows) (append_row name r st) ->
  In (n, rows) st \/
  (n = name /\ exists rows0, rows = (rows0 ++ [r])%list /\ In (n, rows0) st).
Proof.
  induction st as [| [n0 rows0] st IH]; simpl; [tauto | ].
  destruct (n0 =? name)%string eqn:E; simpl.
  - apply String.eqb_eq in E. subst n0. intros [H | H].
    + injection H as <- <-. right. split; [reflexivity | ].
      exists rows0. split; [reflexivity | now left].
    + left. now right.
  - intros [H | H].
    + left. now left.
    + destruct (IH H) as [H' | [Hn [rows1 [Hr Hin]]]].
      * left. now right.
      * right. split; [assumption | ]. exists rows1. split; [assumption | ].
        now right.
Qed.

Lemma append_row_typed name r st :
  row_table r = name ->
  rows_in_their_tables st -> rows_in_their_tables (append_row name r st).
Proof.
  intros Hr Ht n rows x Hin Hx.
  destruct (append_row_In name r st n rows Hin)
    as [H | [Hn [rows0 [Hrows H]]]].
  - exact (Ht n rows x H Hx).
  - subst rows. apply in_app_or in Hx. destruct Hx as [Hx | [<- | []]].
    + exact (Ht n rows0 x H Hx).
    + congruence.
Qed.

Lemma insert_keeps_tables o st st' :
  insert o st = Ok st' ->
  map fst st' = map fst st /\
  (rows_in_their_tables st -> rows_in_their_tables st').
Proof.
  unfold insert. destruct (table_rows (tablename o) st) as [rows | ];
    [ | discriminate].
  destruct o as [c | f | pr fi | pr e p m | a].
  - destruct (has_key (Client_id c) rows); [discriminate | ].
    intros H. injection H as <-.
    split; [apply append_row_names | now apply append_row_typed].
  - destruct (has_key (File_id f) rows); [discriminate | ].
    intros H. injection H as <-.
    split; [apply append_row_names | now apply append_row_typed].
  - intros H. injection H as <-.
    split; [apply append_row_names | now apply append_row_typed].
  - intros H. injection H as <-.
    split; [apply append_row_names | now apply append_row_typed].
  - intros H. injection H as <-.
    split; [apply append_row_names | now apply append_row_typed].
Qed.

Lemma insert_all_keeps_tables l :
  forall st st',
    insert_all l st = Ok st' ->
    map fst st' = map fst st /\
    (rows_in_their_tables st -> rows_in_their_tables st').
Proof.
  induction l as [| o l IH]; intros st st' H; simpl in H.
  - injection H as <-. tauto.
  - destruct (insert o st) as [st1 | e] eqn:E; [ | discriminate].
    simpl in H. destruct (insert_keeps_tables o st st1 E) as [Hn Ht].
    destruct (IH st1 st' H) as [Hn' Ht'].
    split; [congruence | auto].
Qed.

Lemma keeps_session_flush args : keeps args session_flush.
Proof.
  intros s. unfold session_flush.
  destruct (insert_all (pending s) (tables s)) as [st | e] eqn:E; simpl.
  - destruct (insert_all_keeps_tables _ _ _ E) as [Hn Ht].
    repeat split; auto.
    exists []. split; [now rewrite app_nil_r | constructor].
  - apply import_step_refl.
Qed.

Create HintDb keeps.

#[local] Hint Resolve keeps_ret keeps_raise keeps_lift keeps_gets
  keeps_os_path_exists keeps_session_add keeps_session_flush : keeps.

Ltac keeps_step :=
  match goal with
  | |- keeps _ (bind _ _) => apply keeps_bind; [ | intros ? ]
  | |- keeps _ (for_each _ _) => apply keeps_for_each; intros ?
  | |- keeps _ (if _ then _ else _) => apply keeps_if
  | |- keeps _ (match ?x with _ => _ end) => destruct x
  | |- keeps _ _ => solve [ auto with keeps ]
  end.

Lemma keeps_query_File args : keeps args query_File.
Proof. unfold query_File. repeat keeps_step. Qed.

#[local] Hint Resolve keeps_query_File : keeps.

Lemma keeps_add_files args :
  keeps args (add_files (basedir args) (verbose args)).
Proof.
  unfold add_files, for_each_nodot, add_files_add_client, add_file.
  apply keeps_bind;
    [apply keeps_listdir, read_image_directory | intros entries].
  repeat keeps_step.
  apply keeps_listdir, read_client_directory.
Qed.

Lemma keeps_add_annotations_idiap args :
  keeps args
    (add_annotations (idiap_annotation_dir args) ".pos" "idiap"
       (verbose args)).
Proof.
  unfold add_annotations, add_annotation. repeat keeps_step.
  apply keeps_open_read, read_idiap_annotation.
Qed.

Lemma keeps_add_annotations_funneled args :
  keeps args
    (add_annotations (funneled_annotation_dir args) ".jpg.pts" "funneled"
       (verbose args)).
Proof.
  unfold add_annotations, add_annotation. repeat keeps_step.
  apply keeps_open_read, read_funneled_annotation.
Qed.

Section MissingModelsProperties.
Variable filename : string -> Z -> string.
Variable File_name : File -> string.

Lemma keeps_first_file_id args name :
  keeps args (first_file_id File_name name).
Proof. unfold first_file_id. repeat keeps_step. Qed.

Lemma keeps_add_people_add_client args verbose protocol client_id count :
  keeps args
    (add_people_add_client filename File_name verbose protocol client_id
       count).
Proof.
  unfold add_people_add_client. repeat keeps_step.
  apply keeps_first_file_id.
Qed.

Lemma keeps_parse_view1 args verbose path protocol :
  expected_read args (Opened path) ->
  keeps args (parse_view1 filename File_name verbose path protocol).
Proof.
  intros He. unfold parse_view1.
  apply keeps_bind; [now apply keeps_open_read | intros text].
  repeat keeps_step. apply keeps_add_people_add_client.
Qed.

Lemma keeps_parse_view2_lines args verbose ls :
  forall fold_id protocol,
    keeps args
      (parse_view2_lines filename File_name verbose ls fold_id protocol).
Proof.
  induction ls as [| line rest IH]; intros fold_id protocol; simpl.
  - apply keeps_ret.
  - repeat keeps_step; try apply keeps_add_people_add_client; apply IH.
Qed.

Lemma keeps_parse_view2 args verbose path :
  expected_read args (Opened path) ->
  keeps args (parse_view2 filename File_name verbose path).
Proof.
  intros He. unfold parse_view2.
  apply keeps_bind; [now apply keeps_open_read | intros text].
  apply keeps_parse_view2_lines.
Qed.

Lemma protocol_file_expected args p :
  In p (protocol_files (basedir args)) -> expected_read args (Opened p).
Proof. apply read_protocol_file. Qed.

Lemma keeps_add_people args :
  keeps args (add_people filename File_name (basedir args) (verbose args)).
Proof.
  unfold add_people. repeat keeps_step.
  - apply keeps_parse_view1, protocol_file_expected. simpl. tauto.
  - apply keeps_parse_view1, protocol_file_expected. simpl. tauto.
  - apply keeps_parse_view2, protocol_file_expected. simpl. tauto.
Qed.

Lemma keeps_parse_file args verbose path protocol :
  expected_read args (Opened path) ->
  keeps args (parse_file filename File_name verbose path protocol).
Proof.
  intros He. unfold parse_file, add_mpair, add_upair.
  apply keeps_bind; [now apply keeps_open_read | intros text].
  repeat keeps_step; apply keeps_first_file_id.
Qed.

Lemma pairs_fold_file_expected args fold :
  In fold (range1 10) ->
  expected_read args (Opened (pairs_fold_file (basedir args) fold)).
Proof.
  intros H. apply read_protocol_file. unfold protocol_files.
  apply in_or_app. right. apply in_map. exact H.
Qed.

Lemma keeps_for_each_In {A} args (l : list A) (body : A -> M State unit) :
  (forall x, In x l -> keeps args (body x)) -> keeps args (for_each l body).
Proof.
  induction l as [| x l IH]; intros Hb; simpl.
  - apply keeps_ret.
  - apply keeps_bind; [apply Hb; now left | intros _].
    apply IH. intros y Hy. apply Hb. now right.
Qed.

Lemma keeps_add_pairs args :
  keeps args (add_pairs filename File_name (basedir args) (verbose args)).
Proof.
  unfold add_pairs.
  apply keeps_bind; [apply keeps_session_flush | intros _].
  apply keeps_bind;
    [apply keeps_parse_file, protocol_file_expected; simpl; tauto | intros _].
  apply keeps_bind;
    [apply keeps_parse_file, protocol_file_expected; simpl; tauto | intros _].
  apply keeps_for_each_In. intros fold Hf.
  apply keeps_bind; [ | intros _];
    now apply keeps_parse_file, pairs_fold_file_expected.
Qed.

End MissingModelsProperties.

(** *** The tables the import creates and fills *)

Lemma keeps_ends {A} args (m : M State A) : keeps args m -> ends args m.
Proof.
  intros H s. exists (snd (m s)). split; [apply H | ]. split; auto.
Qed.

Lemma ends_bind {A B} args (m : M State A) (k : A -> M State B) :
  keeps args m -> (forall a, ends args (k a)) -> ends args (bind m k).
Proof.
  intros Hm Hk s. unfold bind. specialize (Hm s).
  destruct (m s) as [[a | e] s1]; simpl in Hm.
  - destruct (Hk a s1) as [s2 [Hs [Hr Hd]]].
    exists s2. split; [ | now split].
    eapply import_step_trans; eassumption.
  - exists s1. split; [exact Hm | ]. split; auto.
Qed.

Lemma ends_session_commit args : ends args session_commit.
Proof.
  intros s. unfold session_commit, bind, modify.
  pose proof (keeps_session_flush args s) as H.
  destruct (session_flush s) as [[[] | e] s1]; simpl in *.
  - exists s1. split; [exact H | ]. split; [reflexivity | now right].
  - exists s1. split; [exact H | ]. split; auto.
Qed.

Lemma create_all_new : create_all [] = new_tables.
Proof. reflexivity. Qed.

Lemma create_all_again : create_all new_tables = new_tables.
Proof. reflexivity. Qed.

Lemma new_tables_typed : rows_in_their_tables new_tables.
Proof.
  intros name rows r Hin Hr. simpl in Hin.
  repeat (destruct Hin as [Hin | Hin]; [injection Hin as <- <-; destruct Hr | ]).
  destruct Hin.
Qed.

Lemma create_tables_new args dbfile v s :
  files_0 args = Ok dbfile ->
  verbose args = Some v ->
  database s = None ->
  create_tables args s = (Ok tt, set_database (Some new_tables) s).
Proof.
  intros Hf Hv Hd. unfold create_tables. rewrite Hf, bind_lift_ok.
  rewrite Hv. cbn [gt]. rewrite bind_lift_ok.
  unfold metadata_create_all, bind, modify. simpl. rewrite Hd.
  rewrite create_all_new, !create_all_again. reflexivity.
Qed.

Lemma bind_ret {S A B} (a : A) (k : A -> M S B) s :
  bind (ret a) k s = k a s.
Proof. reflexivity. Qed.

Lemma bind_gets {S A B} (f : S -> A) (k : A -> M S B) s :
  bind (gets f) k s = k (f s) s.
Proof. reflexivity. Qed.

Lemma bind_modify {S B} (f : S -> S) (k : unit -> M S B) s :
  bind (modify f) k s = k tt (f s).
Proof. reflexivity. Qed.

(** The database file is out of the way after the [--recreate] block,
    when it was not there or was to be erased. *)
Lemma recreate_block args s :
  database s = None \/ recreate args = true ->
  exists s1,
    (if recreate args
     then found <- dbfile_exists ;;
          (if found then unlink_dbfile else ret tt)
     else ret tt) s = (Ok tt, s1) /\
    database s1 = None /\ reads s1 = reads s /\ fs s1 = fs s.
Proof.
  intros Hfresh. destruct (recreate args).
  - unfold dbfile_exists, unlink_dbfile. rewrite bind_gets.
    destruct (database s) eqn:Ed.
    + exists (set_database None s). now split.
    + exists s. now split.
  - exists s. split; [reflexivity | ].
    destruct Hfresh; [auto | discriminate].
Qed.

Section CreateProperties.
Variable filename : string -> Z -> string.
Variable File_name : File -> string.

(** What [create] runs once the tables are there and the session is
    open *)
Lemma ends_import args :
  ends args
    (add_files (basedir args) (verbose args) ;;
     add_people filename File_name (basedir args) (verbose args) ;;
     add_pairs filename File_name (basedir args) (verbose args) ;;
     (if str_in "idiap" (annotation_types args) then
        add_annotations (idiap_annotation_dir args) ".pos" "idiap"
          (verbose args)
      else ret tt) ;;
     (if str_in "funneled" (annotation_types args) then
        add_annotations (funneled_annotation_dir args) ".jpg.pts" "funneled"
          (verbose args)
      else ret tt) ;;
     session_commit).
Proof.
  apply ends_bind; [apply keeps_add_files | intros _].
  apply ends_bind; [apply keeps_add_people | intros _].
  apply ends_bind; [apply keeps_add_pairs | intros _].
  apply ends_bind;
    [apply keeps_if; [apply keeps_add_annotations_idiap | apply keeps_ret]
    | intros _].
  apply ends_bind;
    [apply keeps_if; [apply keeps_add_annotations_funneled | apply keeps_ret]
    | intros _].
  apply ends_session_commit.
Qed.

(** Up to the opening of the session: the tables are the five new
    ones, and nothing was read. *)
Lemma create_opens_session args s dbfile v :
  files_0 args = Ok dbfile ->
  verbose args = Some v ->
  database s = None \/ recreate args = true ->
  os_path_dirname dbfile <> "" \/ fs s (os_path_dirname dbfile) <> None ->
  exists s3,
    create filename File_name args s
    = (add_files (basedir args) (verbose args) ;;
       add_people filename File_name (basedir args) (verbose args) ;;
       add_pairs filename File_name (basedir args) (verbose args) ;;
       (if str_in "idiap" (annotation_types args) then
          add_annotations (idiap_annotation_dir args) ".pos" "idiap"
            (verbose args)
        else ret tt) ;;
       (if str_in "funneled" (annotation_types args) then
          add_annotations (funneled_annotation_dir args) ".jpg.pts"
            "funneled" (verbose args)
        else ret tt) ;;
       session_commit) s3 /\
    reads s3 = reads s /\
    database s3 = Some new_tables /\
    tables s3 = new_tables /\
    pending s3 = [].
Proof.
  intros Hf Hv Hfresh Hdir. unfold create. rewrite Hf, bind_lift_ok.
  destruct (recreate_block args s Hfresh) as [s1 [Hpre [Hd1 [Hr1 Hfs1]]]].
  rewrite (bind_ok _ _ _ _ _ Hpre).
  unfold os_path_exists. rewrite bind_gets. cbv beta. rewrite Hfs1.
  destruct (fs s (os_path_dirname dbfile)) as [n | ] eqn:Edir; cbn [negb].
  - rewrite bind_ret. cbv beta. eexists.
    rewrite (bind_ok _ _ _ _ _ (create_tables_new args dbfile v s1 Hf Hv Hd1)).
    rewrite bind_lift_ok.
    assert (Hgt : gt (verbose args) 2 = Ok (2 <? v)) by now rewrite Hv.
    rewrite Hgt, bind_lift_ok.
    unfold session_try_nolock. rewrite bind_modify. cbv beta.
    split; [reflexivity | ]. simpl. auto.
  - destruct Hdir as [Hne | Hne]; [ | congruence].
    unfold os_makedirs. apply String.eqb_neq in Hne. rewrite Hne.
    rewrite bind_modify. cbv beta. eexists.
    rewrite (bind_ok _ _ _ _ _
               (create_tables_new args dbfile v (set_fs _ s1) Hf Hv Hd1)).
    rewrite bind_lift_ok.
    assert (Hgt : gt (verbose args) 2 = Ok (2 <? v)) by now rewrite Hv.
    rewrite Hgt, bind_lift_ok.
    unfold session_try_nolock. rewrite bind_modify. cbv beta.
    split; [reflexivity | ]. simpl. auto.
Qed.


End CreateProperties.


(** *** The order of strings *)

Lemma ascii_compare_refl c : Ascii.compare c c = Eq.
Proof. unfold Ascii.compare. apply N.compare_refl. Qed.

Lemma ascii_compare_lt_trans a b c :
  Ascii.compare a b = Lt -> Ascii.compare b c = Lt -> Ascii.compare a c = Lt.
Proof.
  unfold Ascii.compare. rewrite !N.compare_lt_iff. apply N.lt_trans.
Qed.

Lemma string_leb_trans s1 :
  forall s2 s3,
    String.leb s1 s2 = true -> String.leb s2 s3 = true ->
    String.leb s1 s3 = true.
Proof.
  unfold String.leb.
  induction s1 as [| c1 s1 IH]; intros [| c2 s2] [| c3 s3]; simpl;
    try easy.
  destruct (Ascii.compare c1 c2) eqn:E12;
    destruct (Ascii.compare c2 c3) eqn:E23; try easy.
  - apply Ascii.compare_eq_iff in E12, E23. subst.
    rewrite ascii_compare_refl. apply IH.
  - apply Ascii.compare_eq_iff in E12. subst. now rewrite E23.
  - apply Ascii.compare_eq_iff in E23. subst. now rewrite E12.
  - now rewrite (ascii_compare_lt_trans _ _ _ E12 E23).
Qed.

Lemma string_leb_false x y : String.leb x y = false -> String.leb y x = true.
Proof.
  intros H. destruct (String.leb_total x y) as [H' | H']; congruence.
Qed.

(** The order in which two strings are inserted does not matter. *)
Lemma insert_sorted_comm a b l :
  insert_sorted a (insert_sorted b l) = insert_sorted b (insert_sorted a l).
Proof.
  induction l as [| c l IH]; simpl.
  - destruct (String.leb a b) eqn:Eab, (String.leb b a) eqn:Eba; try reflexivity.
    + now rewrite (String.leb_antisym _ _ Eab Eba).
    + apply string_leb_false in Eab. congruence.
  - destruct (String.leb b c) eqn:Ebc, (String.leb a c) eqn:Eac; simpl;
      rewrite ?Ebc, ?Eac.
    + destruct (String.leb a b) eqn:Eab, (String.leb b a) eqn:Eba;
        try reflexivity.
      * now rewrite (String.leb_antisym _ _ Eab Eba).
      * apply string_leb_false in Eab. congruence.
    + destruct (String.leb a b) eqn:Eab; [ | reflexivity].
      rewrite (string_leb_trans _ _ _ Eab Ebc) in Eac. discriminate.
    + destruct (String.leb b a) eqn:Eba; [ | reflexivity].
      rewrite (string_leb_trans _ _ _ Eba Eac) in Ebc. discriminate.
    + now rewrite IH.
Qed.

(** [sorted] gives one list for all the orders a directory can be
    listed in. *)
Lemma sorted_Permutation l1 l2 : Permutation l1 l2 -> sorted l1 = sorted l2.
Proof.
  induction 1 as [ | x l l' _ IH | x y l | l l' l'' _ IH1 _ IH2]; simpl.
  - reflexivity.
  - now rewrite IH.
  - apply insert_sorted_comm.
  - congruence.
Qed.

(** *** Two runs from the same inputs *)

Lemma same_node_refl n : same_node n n.
Proof. destruct n as [[l | c] | ]; simpl; auto. Qed.

Lemma same_inputs_refl s : same_inputs s s.
Proof. repeat split; auto. intros p. apply same_node_refl. Qed.

Lemma det_ret {A} (a : A) : deterministic (ret a).
Proof. intros s1 s2 H. now split. Qed.

Lemma det_raise {A} e : deterministic (@raise State A e).
Proof. intros s1 s2 H. now split. Qed.

Lemma det_lift {A} (r : result A) : deterministic (lift r).
Proof. intros s1 s2 H. now split. Qed.

Lemma det_bind {A B} (m : M State A) (k : A -> M State B) :
  deterministic m -> (forall a, deterministic (k a)) ->
  deterministic (bind m k).
Proof.
  intros Hm Hk s1 s2 H. unfold bind.
  destruct (Hm s1 s2 H) as [Hr Hs].
  destruct (m s1) as [[a1 | e1] s1'], (m s2) as [[a2 | e2] s2'];
    simpl in Hr, Hs; try discriminate.
  - injection Hr as <-. now apply Hk.
  - injection Hr as <-. split; [reflexivity | exact Hs].
Qed.

Lemma det_for_each {A} (l : list A) (body : A -> M State unit) :
  (forall x, deterministic (body x)) -> deterministic (for_each l body).
Proof.
  intros Hb. induction l as [| x l IH]; simpl.
  - apply det_ret.
  - apply det_bind; [apply Hb | intros _; exact IH].
Qed.

Lemma det_if {A} (c : bool) (m1 m2 : M State A) :
  deterministic m1 -> deterministic m2 ->
  deterministic (if c then m1 else m2).
Proof. now destruct c. Qed.

(** A directory is listed in some order, and sorted at once. *)
Lemma det_listdir_sorted {B} path (k : list string -> M State B) :
  (forall l, deterministic (k l)) ->
  deterministic (bind (listdir path) (fun entries => k (sorted entries))).
Proof.
  intros Hk s1 s2 H. unfold bind, listdir.
  destruct H as [Hfs [Hr [Hd [Ht Hp]]]].
  pose proof (Hfs path) as Hn. unfold same_node in Hn.
  destruct (fs s1 path) as [[l1 | c1] | ], (fs s2 path) as [[l2 | c2] | ];
    try contradiction.
  - rewrite (sorted_Permutation l1 l2 Hn). apply Hk.
    repeat split; simpl; auto. congruence.
  - split; [reflexivity | ]. repeat split; auto.
  - split; [reflexivity | ]. repeat split; auto.
Qed.

Lemma det_open_read path : deterministic (open_read path).
Proof.
  intros s1 s2 H. unfold open_read.
  destruct H as [Hfs [Hr [Hd [Ht Hp]]]].
  pose proof (Hfs path) as Hn. unfold same_node in Hn.
  destruct (fs s1 path) as [[l1 | c1] | ], (fs s2 path) as [[l2 | c2] | ];
    try contradiction; simpl.
  - split; [reflexivity | ]. repeat split; auto.
  - subst c2. split; [reflexivity | ]. repeat split; simpl; auto. congruence.
  - split; [reflexivity | ]. repeat split; auto.
Qed.

Lemma det_os_path_exists path : deterministic (os_path_exists path).
Proof.
  intros s1 s2 H. unfold os_path_exists, gets. simpl. split; [ | exact H].
  destruct H as [Hfs _]. pose proof (Hfs path) as Hn. unfold same_node in Hn.
  destruct (fs s1 path) as [[l1 | c1] | ], (fs s2 path) as [[l2 | c2] | ];
    try contradiction; reflexivity.
Qed.

Lemma det_os_makedirs path : deterministic (os_makedirs path).
Proof.
  unfold os_makedirs. destruct (path =? "")%string; [apply det_raise | ].
  intros s1 s2 [Hfs [Hr [Hd [Ht Hp]]]]. unfold modify. simpl.
  split; [reflexivity | ]. repeat split; simpl; auto.
  intros p. destruct (p =? path)%string; [simpl; auto | apply Hfs].
Qed.

Lemma det_session_add o : deterministic (session_add o).
Proof.
  intros s1 s2 [Hfs [Hr [Hd [Ht Hp]]]]. unfold session_add, modify. simpl.
  split; [reflexivity | ]. repeat split; simpl; auto. congruence.
Qed.

Lemma det_session_flush : deterministic session_flush.
Proof.
  intros s1 s2 [Hfs [Hr [Hd [Ht Hp]]]]. unfold session_flush.
  rewrite Ht, Hp.
  destruct (insert_all (pending s2) (tables s2)); simpl.
  - split; [reflexivity | ]. repeat split; simpl; auto.
  - split; [reflexivity | ]. repeat split; simpl; auto.
Qed.

Lemma det_gets_tables : deterministic (gets tables).
Proof.
  intros s1 s2 H. unfold gets. simpl. split; [ | exact H].
  destruct H as [_ [_ [_ [Ht _]]]]. now rewrite Ht.
Qed.

Lemma det_session_commit : deterministic session_commit.
Proof.
  unfold session_commit. apply det_bind; [apply det_session_flush | intros _].
  intros s1 s2 [Hfs [Hr [Hd [Ht Hp]]]]. unfold modify. simpl.
  split; [reflexivity | ]. repeat split; simpl; auto. congruence.
Qed.

Lemma det_session_try_nolock : deterministic session_try_nolock.
Proof.
  intros s1 s2 [Hfs [Hr [Hd [Ht Hp]]]]. unfold session_try_nolock, modify.
  simpl. split; [reflexivity | ]. repeat split; simpl; auto.
  now rewrite Hd.
Qed.

Lemma det_metadata_create_all : deterministic metadata_create_all.
Proof.
  intros s1 s2 [Hfs [Hr [Hd [Ht Hp]]]]. unfold metadata_create_all, modify.
  simpl. split; [reflexivity | ]. repeat split; simpl; auto.
  now rewrite Hd.
Qed.

Lemma det_dbfile_exists : deterministic dbfile_exists.
Proof.
  intros s1 s2 H. unfold dbfile_exists, gets. simpl. split; [ | exact H].
  destruct H as [_ [_ [Hd _]]]. now rewrite Hd.
Qed.

Lemma det_unlink_dbfile : deterministic unlink_dbfile.
Proof.
  intros s1 s2 [Hfs [Hr [Hd [Ht Hp]]]]. unfold unlink_dbfile, modify.
  simpl. split; [reflexivity | ]. repeat split; simpl; auto.
Qed.

Create HintDb det.

#[local] Hint Resolve det_ret det_raise det_lift det_open_read
  det_os_path_exists det_os_makedirs det_session_add det_session_flush
  det_gets_tables det_session_commit det_session_try_nolock
  det_metadata_create_all det_dbfile_exists det_unlink_dbfile : det.

Ltac det_step :=
  match goal with
  | |- deterministic (bind (listdir ?p) (fun entries => @?k entries)) =>
      fail 1
  | |- deterministic (bind _ _) => apply det_bind; [ | intros ? ]
  | |- deterministic (for_each _ _) => apply det_for_each; intros ?
  | |- deterministic (if _ then _ else _) => apply det_if
  | |- deterministic (match ?x with _ => _ end) => destruct x
  | |- deterministic _ => solve [ auto with det ]
  end.

Lemma det_query_File : deterministic query_File.
Proof. unfold query_File. repeat det_step. Qed.

#[local] Hint Resolve det_query_File : det.

Lemma det_for_each_nodot l body :
  (forall x, deterministic (body x)) -> deterministic (for_each_nodot l body).
Proof.
  intros Hb. unfold for_each_nodot. repeat det_step.
Qed.

Lemma det_add_files basedir verbose : deterministic (add_files basedir verbose).
Proof.
  unfold add_files.
  apply (det_listdir_sorted _
           (fun l => for_each_nodot l _)).
  intros l. apply det_for_each_nodot. intros client_dir.
  apply det_bind.
  - unfold add_files_add_client. repeat det_step.
  - intros client_name.
    apply det_bind; [apply det_lift | intros _].
    apply (det_listdir_sorted _ (fun l => for_each_nodot l _)).
    intros l'. apply det_for_each_nodot. intros f.
    unfold add_file. repeat det_step.
Qed.

Lemma det_add_annotations dir ext ty verbose :
  deterministic (add_annotations dir ext ty verbose).
Proof. unfold add_annotations, add_annotation. repeat det_step. Qed.

Lemma det_create_tables args : deterministic (create_tables args).
Proof. unfold create_tables. repeat det_step. Qed.

Section Determinism.
Variable filename : string -> Z -> string.
Variable File_name : File -> string.

Lemma det_first_file_id name : deterministic (first_file_id File_name name).
Proof. unfold first_file_id. repeat det_step. Qed.

Lemma det_add_people_add_client verbose protocol client_id count :
  deterministic
    (add_people_add_client filename File_name verbose protocol client_id
       count).
Proof.
  unfold add_people_add_client. repeat det_step. apply det_first_file_id.
Qed.

Lemma det_parse_view1 verbose path protocol :
  deterministic (parse_view1 filename File_name verbose path protocol).
Proof.
  unfold parse_view1. repeat det_step. apply det_add_people_add_client.
Qed.

Lemma det_parse_view2_lines verbose ls :
  forall fold_id protocol,
    deterministic
      (parse_view2_lines filename File_name verbose ls fold_id protocol).
Proof.
  induction ls as [| line rest IH]; intros fold_id protocol; simpl.
  - apply det_ret.
  - repeat det_step; try apply det_add_people_add_client; apply IH.
Qed.

Lemma det_parse_view2 verbose path :
  deterministic (parse_view2 filename File_name verbose path).
Proof.
  unfold parse_view2. repeat det_step. apply det_parse_view2_lines.
Qed.

Lemma det_add_people basedir verbose :
  deterministic (add_people filename File_name basedir verbose).
Proof.
  unfold add_people. repeat det_step;
    first [apply det_parse_view1 | apply det_parse_view2].
Qed.

Lemma det_parse_file verbose path protocol :
  deterministic (parse_file filename File_name verbose path protocol).
Proof.
  unfold parse_file, add_mpair, add_upair.
  repeat det_step; apply det_first_file_id.
Qed.

Lemma det_add_pairs basedir verbose :
  deterministic (add_pairs filename File_name basedir verbose).
Proof. unfold add_pairs. repeat det_step; apply det_parse_file. Qed.

Lemma det_create args : deterministic (create filename File_name args).
Proof.
  unfold create. repeat det_step;
    first [ apply det_create_tables | apply det_add_files
          | apply det_add_people | apply det_add_pairs
          | apply det_add_annotations ].
Qed.

(** C6: two runs of [create] over the same image directory tree, the
    same protocol files and the same annotation files, from the same
    state of the database, end alike: the same result, and the same
    rows in the same order in every table. *)
Theorem create_is_deterministic :
  forall (args : Args) (s1 s2 : State),
    same_inputs s1 s2 ->
    fst (create filename File_name args s1)
    = fst (create filename File_name args s2) /\
    database (snd (create filename File_name args s1))
    = database (snd (create filename File_name args s2)) /\
    tables (snd (create filename File_name args s1))
    = tables (snd (create filename File_name args s2)).
Proof.
  intros args s1 s2 H.
  destruct (det_create args s1 s2 H) as [Hr [_ [_ [Hd [Ht _]]]]].
  auto.
Qed.

End Determinism.

Lemma create_is_deterministic_witness :
  same_inputs ExampleImport.start1 ExampleImport.start2 /\
  fst (create ExampleImport.filename ExampleImport.File_name
         ExampleImport.args ExampleImport.start1)
  = fst (create ExampleImport.filename ExampleImport.File_name
           ExampleImport.args ExampleImport.start2) /\
  database (snd (create ExampleImport.filename ExampleImport.File_name
                   ExampleImport.args ExampleImport.start1))
  = database (snd (create ExampleImport.filename ExampleImport.File_name
                     ExampleImport.args ExampleImport.start2)) /\
  tables (snd (create ExampleImport.filename ExampleImport.File_name
                 ExampleImport.args ExampleImport.start1))
  = tables (snd (create ExampleImport.filename ExampleImport.File_name
                   ExampleImport.args ExampleImport.start2)).
Proof.
  assert (H : same_inputs ExampleImport.start1 ExampleImport.start2).
  { repeat split; try reflexivity.
    intros path. unfold ExampleImport.start1, ExampleImport.start2,
      ExampleImport.start, ExampleImport.tree.
    cbn [fs ExampleImport.lookup].
    destruct ("/lfw/all_images" =? path)%string.
    - simpl.
      apply (perm_trans (l' := ["Bo_Diaz"; "Ann_Lee"; ".cache"])).
      + apply perm_skip, perm_swap.
      + apply (perm_swap "Ann_Lee" "Bo_Diaz" [".cache"]).
    - apply same_node_refl. }
  split; [exact H | ].
  exact (create_is_deterministic ExampleImport.filename
           ExampleImport.File_name ExampleImport.args _ _ H).
Defined.

Lemma missing_annotation_is_skipped_witness :
  fs ExampleImport.loaded
    (make_path ExampleImport.image1 (Some "/ann") (Some ".jpg.pts")) = None /\
  add_annotation (Some "/ann") ".jpg.pts" "funneled" None
    ExampleImport.image1 ExampleImport.loaded
  = (Ok tt, ExampleImport.loaded).
Proof.
  split; [reflexivity | ].
  apply (missing_annotation_is_skipped (Some "/ann") ".jpg.pts" "funneled"
           None ExampleImport.loaded).
  reflexivity.
Defined.

(** *** The import of the example tree *)

Example import_of_the_example_tree :
  let run :=
    create ExampleImport.filename ExampleImport.File_name ExampleImport.args
      ExampleImport.start1 in
  fst run = Ok tt /\
  option_map (map (fun e => (fst e, List.length (snd e)))) (database (snd run))
  = Some [("client", 2%nat); ("file", 3%nat); ("people", 9%nat);
          ("pair", 6%nat); ("annotation", 1%nat)] /\
  table_rows "annotation" (tables (snd run))
  = Some [RAnnotation (mkAnnotation "Ann_Lee_0002" "funneled" "10 20")] /\
  pending (snd run) = [].
Proof. vm_compute. repeat split; reflexivity. Qed.

Example import_without_a_protocol_file :
  fst (create ExampleImport.filename ExampleImport.File_name
         ExampleImport.args
         (set_fs (fun path =>
                    if (path =? "/lfw/view2/pairs_fold7.txt")%string then None
                    else fs ExampleImport.start1 path)
            ExampleImport.start1))
  = Raise FileNotFoundError.
Proof. vm_compute. reflexivity. Qed.

(** C5: the command without a [-v] flag, on the example tree.
    [args.verbose] is [None], and [create] raises TypeError where
    [create_tables] compares it with 2, before the first [create_all]: no
    database file is made, no table, no row, and nothing is read.  The
    same command with one [-v] returns, and has made the five tables and
    inserted the rows of the tree, of the protocol files and of the one
    annotation file into them. *)
Theorem create_without_a_verbose_flag_makes_no_table :
  fst (create ExampleImport.filename ExampleImport.File_name
         ExampleImport.quiet ExampleImport.start1) = Raise TypeError /\
  snd (create ExampleImport.filename ExampleImport.File_name
         ExampleImport.quiet ExampleImport.start1) = ExampleImport.start1 /\
  database ExampleImport.start1 = None /\
  fst (create ExampleImport.filename ExampleImport.File_name
         ExampleImport.args ExampleImport.start1) = Ok tt /\
  database
    (snd (create ExampleImport.filename ExampleImport.File_name
            ExampleImport.args ExampleImport.start1))
  = Some
      [("client", [RClient (mkClient "Ann_Lee"); RClient (mkClient "Bo_Diaz")]);
       ("file",
        [RFile (File_init "Ann_Lee" (ShotStr "0001"));
         RFile (File_init "Ann_Lee" (ShotStr "0002"));
         RFile (File_init "Bo_Diaz" (ShotStr "0001"))]);
       ("people",
        [RPeople (mkPeople 1 "train" "Ann_Lee_0001");
         RPeople (mkPeople 2 "train" "Ann_Lee_0002");
         RPeople (mkPeople 3 "test" "Bo_Diaz_0001");
         RPeople (mkPeople 4 "fold1" "Ann_Lee_0001");
         RPeople (mkPeople 5 "fold1" "Ann_Lee_0002");
         RPeople (mkPeople 6 "view2" "Ann_Lee_0001");
         RPeople (mkPeople 7 "view2" "Ann_Lee_0002");
         RPeople (mkPeople 8 "fold2" "Bo_Diaz_0001");
         RPeople (mkPeople 9 "view2" "Bo_Diaz_0001")]);
       ("pair",
        [RPair (mkPair 1 "train" "Ann_Lee_0001" "Ann_Lee_0002" true);
         RPair (mkPair 2 "train" "Ann_Lee_0001" "Bo_Diaz_0001" false);
         RPair (mkPair 3 "fold1" "Ann_Lee_0002" "Ann_Lee_0001" true);
         RPair (mkPair 4 "view2" "Ann_Lee_0002" "Ann_Lee_0001" true);
         RPair (mkPair 5 "fold10" "Ann_Lee_0002" "Bo_Diaz_0001" false);
         RPair (mkPair 6 "view2" "Ann_Lee_0002" "Bo_Diaz_0001" false)]);
       ("annotation",
        [RAnnotation (mkAnnotation "Ann_Lee_0002" "funneled" "10 20")])].
Proof. repeat split; vm_compute; reflexivity. Qed.

(* ===================================================================== *)
(** ** Further properties                                                 *)
(* ===================================================================== *)

Import More.

(** *** The prologue of the query operations *)

Lemma check_validity_selected valid a :
  ~ outside valid a ->
  __check_validity__ a valid = Ok (selected valid a).
Proof.
  intros H.
  assert (Hin : forall l, l = named a -> incl l valid).
  { intros l -> x Hx.
    destruct (str_in x valid) eqn:E; [now apply str_in_In | ].
    elim H. exists x. split; [assumption | now apply str_in_false]. }
  destruct a as [ | s | l]; [reflexivity | | ].
  - destruct s as [| c s]; [reflexivity | ].
    unfold __check_validity__, selected.
    now rewrite (check_each_valid _ _ (Hin [String c s] eq_refl)).
  - destruct l as [| x l]; [reflexivity | ].
    unfold __check_validity__, selected.
    now rewrite (check_each_valid _ _ (Hin (x :: l) eq_refl)).
Qed.

Lemma check_single_valid v valid :
  In v valid -> __check_single__ (Some v) valid = Ok v.
Proof.
  intros H. unfold __check_single__.
  now rewrite (proj2 (str_in_In _ _) H).
Qed.

Lemma selected_single valid a x : named a = [x] -> selected valid a = [x].
Proof. intros H. unfold selected. now rewrite H. Qed.

(** The checks at the head of an operation, once each is known to
    pass. *)
Ltac pass_check :=
  match goal with
  | |- context [bind (lift (__check_single__ (Some ?v) ?valid)) _ _] =>
      rewrite (check_single_valid v valid) by assumption
  | |- context [bind (lift (__check_validity__ ?a ?valid)) _ _] =>
      rewrite (check_validity_selected valid a) by assumption
  | |- context [bind (lift (check_subworld ?sw)) _ _] =>
      rewrite (check_subworld_passes sw) by assumption
  end;
  rewrite bind_lift_ok.

Ltac pass_checks := repeat pass_check.

Ltac pass_validity Hvalid :=
  rewrite (bind_ok _ _ _ _ _ (assert_validity_passes _ _ Hvalid));
  pass_checks.

Lemma iter_nothing {E} (iter : query E -> M World (list E)) w :
  collect iter [] w = (Ok [], w).
Proof. reflexivity. Qed.

(** X1: view 1 has no evaluation group: on a valid database, with the
    protocol [view1] and the group [eval] alone, [clients], [models],
    [objects] and [pairs] return the empty list. *)
Theorem view1_has_no_eval_group :
  forall (self : Database) (w : World) (t : Tables)
         (groups : names) (subworld : option string),
    valid_database self w t ->
    named groups = ["eval"] ->
    ~ bad_subworld subworld ->
    fst (clients self (Some "view1") groups subworld w) = Ok [] /\
    fst (models self (Some "view1") groups subworld w) = Ok [] /\
    (forall model_ids purposes world_type,
        ~ outside m_valid_purposes purposes ->
        In world_type m_valid_types ->
        fst (objects self (Some "view1") model_ids groups purposes subworld
               (Some world_type) w) = Ok []) /\
    (forall classes,
        ~ outside m_valid_classes classes ->
        fst (pairs self (Some "view1") groups classes subworld w) = Ok []).
Proof.
  intros self w t groups subworld [Hvalid Hw] Hg Hs.
  assert (Hp : In "view1" m_valid_protocols) by (simpl; tauto).
  assert (Hgs : __check_validity__ groups m_valid_groups = Ok ["eval"])
    by (apply check_validity_single; [assumption | simpl; tauto]).
  repeat split; intros.
  - unfold clients. pass_validity Hvalid. rewrite Hgs, bind_lift_ok.
    pass_checks. reflexivity.
  - unfold models. pass_validity Hvalid. rewrite Hgs, bind_lift_ok.
    pass_checks. reflexivity.
  - unfold objects. pass_validity Hvalid. rewrite Hgs, bind_lift_ok.
    pass_checks.
    destruct model_ids as [ | s | l]; reflexivity.
  - unfold pairs. pass_validity Hvalid. rewrite Hgs, bind_lift_ok.
    pass_checks. reflexivity.
Qed.

Lemma view1_has_no_eval_group_witness :
  valid_database Example.db Example.world Example.tables /\
  fst (pairs Example.db (Some "view1") (AStr "eval") (AStr "matched")
         (Some "sevenfolds") Example.world) = Ok [].
Proof.
  assert (Hv : valid_database Example.db Example.world Example.tables)
    by (split; reflexivity).
  split; [exact Hv | ].
  assert (Hs : ~ bad_subworld (Some "sevenfolds")) by (simpl; tauto).
  destruct (view1_has_no_eval_group Example.db Example.world Example.tables
              (AStr "eval") (Some "sevenfolds") Hv eq_refl Hs)
    as [_ [_ [_ H]]].
  apply H. intros [k [Hk Hn]]. simpl in Hk, Hn.
  destruct Hk as [<- | []]. tauto.
Defined.

(** *** The world group without a subworld *)

Lemma world_for_without_subworld k :
  1 <= k <= 10 -> __world_for__ (fold_name k) None = Raise KeyError.
Proof.
  intros H. unfold __world_for__. now rewrite (eval_fold_name k H).
Qed.

(** X2: on a fold protocol the world group needs a subworld: with
    [subworld=None] and the world group selected, [clients], [models],
    [objects] and [pairs] raise [KeyError], although [None] passes the
    check of the arguments. *)
Theorem world_group_needs_a_subworld :
  forall (self : Database) (w : World) (t : Tables) (k : Z) (groups : names),
    valid_database self w t ->
    1 <= k <= 10 ->
    ~ outside m_valid_groups groups ->
    In "world" (selected m_valid_groups groups) ->
    fst (clients self (Some (fold_name k)) groups None w) = Raise KeyError /\
    fst (models self (Some (fold_name k)) groups None w) = Raise KeyError /\
    (forall model_ids purposes world_type,
        ~ outside m_valid_purposes purposes ->
        In world_type m_valid_types ->
        fst (objects self (Some (fold_name k)) model_ids groups purposes None
               (Some world_type) w) = Raise KeyError) /\
    (forall classes,
        ~ outside m_valid_classes classes ->
        fst (pairs self (Some (fold_name k)) groups classes None w)
        = Raise KeyError).
Proof.
  intros self w t k groups [Hvalid Hw] Hk Hg Hworld.
  pose proof (fold_name_valid k Hk) as Hp.
  assert (Hs : ~ bad_subworld None) by (simpl; tauto).
  apply str_in_In in Hworld.
  repeat split; intros;
    unfold clients, models, objects, pairs; pass_validity Hvalid;
    rewrite fold_name_not_view1, Hworld, (world_for_without_subworld k Hk);
    reflexivity.
Qed.

Lemma world_group_needs_a_subworld_witness :
  valid_database Example.db Example.world Example.tables /\
  fst (models Example.db (Some "fold3") ANone None Example.world)
  = Raise KeyError.
Proof.
  assert (Hv : valid_database Example.db Example.world Example.tables)
    by (split; reflexivity).
  split; [exact Hv | ].
  assert (Hk : 1 <= 3 <= 10) by lia.
  assert (Hg : ~ outside m_valid_groups ANone)
    by (intros [k [[] _]]).
  assert (Hw : In "world" (selected m_valid_groups ANone))
    by (simpl; tauto).
  exact (proj1 (proj2 (world_group_needs_a_subworld Example.db Example.world
                         Example.tables 3 ANone Hv Hk Hg Hw))).
Defined.

(** *** The pairs of view 1 *)

(** X3: on a valid database whose pair table respects its keys, and for
    the protocol [view1], [pairs] with group [world] returns exactly
    the rows of the pair table whose protocol is [train], and with
    group [dev] exactly those whose protocol is [test], restricted to
    the classes asked for. *)
Theorem pairs_of_view1 :
  forall (self : Database) (w : World) (t : Tables)
         (classes : names) (subworld : option string),
    valid_database self w t ->
    pair_table_consistent t ->
    ~ outside m_valid_classes classes ->
    ~ bad_subworld subworld ->
    (forall groups,
        named groups = ["world"] ->
        fst (pairs self (Some "view1") groups classes subworld w)
        = Ok (filter
                (fun p => (Pair_protocol p =? "train")%string
                          && class_selected (selected m_valid_classes classes)
                               p)
                (pair_table t))) /\
    (forall groups,
        named groups = ["dev"] ->
        fst (pairs self (Some "view1") groups classes subworld w)
        = Ok (filter
                (fun p => (Pair_protocol p =? "test")%string
                          && class_selected (selected m_valid_classes classes)
                               p)
                (pair_table t))).
Proof.
  intros self w t classes subworld [Hvalid Hw] Hc Hcl Hs.
  assert (Hp : In "view1" m_valid_protocols) by (simpl; tauto).
  split; intros groups Hg.
  - assert (Hgs : __check_validity__ groups m_valid_groups = Ok ["world"])
      by (apply check_validity_single; [assumption | simpl; tauto]).
    unfold pairs. pass_validity Hvalid. rewrite Hgs, bind_lift_ok.
    pass_checks.
    cbn [String.eqb Ascii.eqb Bool.eqb str_in existsb orb when app].
    rewrite bind_lift_ok, (collect_pairs_single w t _ _ Hw Hc). reflexivity.
  - assert (Hgs : __check_validity__ groups m_valid_groups = Ok ["dev"])
      by (apply check_validity_single; [assumption | simpl; tauto]).
    unfold pairs. pass_validity Hvalid. rewrite Hgs, bind_lift_ok.
    pass_checks.
    cbn [String.eqb Ascii.eqb Bool.eqb str_in existsb orb when app].
    rewrite bind_lift_ok, (collect_pairs_single w t _ _ Hw Hc). reflexivity.
Qed.

Lemma example_pairs_consistent (pairs4 : list Pair) :
  map Pair_id pairs4 = [1; 2; 3; 4] ->
  Forall (fun p => In (Pair_enrol_file_id p)
                     ["Ann_Lee_0001"; "Ann_Lee_0002"; "Bo_Diaz_0001"]
                   /\ In (Pair_probe_file_id p)
                        ["Ann_Lee_0001"; "Ann_Lee_0002"; "Bo_Diaz_0001"])
    pairs4 ->
  forall t, pair_table t = pairs4 -> file_table t = Example.files ->
  pair_table_consistent t.
Proof.
  intros Hid Hfk t Ht Hf. split.
  - rewrite Ht, Hid. repeat constructor; simpl; intuition discriminate.
  - intros p Hp. rewrite Ht in Hp. rewrite Forall_forall in Hfk.
    destruct (Hfk p Hp) as [He Hpr].
    assert (Hfile : forall x,
               In x ["Ann_Lee_0001"; "Ann_Lee_0002"; "Bo_Diaz_0001"] ->
               exists f, In f (file_table t) /\ File_id f = x).
    { intros x Hx. rewrite Hf. simpl in Hx.
      destruct Hx as [<- | [<- | [<- | []]]].
      - exists (File_init "Ann_Lee" (ShotInt 1)). simpl. tauto.
      - exists (File_init "Ann_Lee" (ShotInt 2)). simpl. tauto.
      - exists (File_init "Bo_Diaz" (ShotInt 1)). simpl. tauto. }
    split; apply Hfile; assumption.
Qed.

Lemma pairs_of_view1_witness :
  valid_database Example.db view1_world view1_tables /\
  pair_table_consistent view1_tables /\
  fst (pairs Example.db (Some "view1") (AStr "dev") (AStr "unmatched")
         (Some "sevenfolds") view1_world)
  = Ok [mkPair 3 "test" "Ann_Lee_0002" "Bo_Diaz_0001" false].
Proof.
  assert (Hv : valid_database Example.db view1_world view1_tables)
    by (split; reflexivity).
  assert (Hc : pair_table_consistent view1_tables).
  { apply (example_pairs_consistent (pair_table view1_tables));
      try reflexivity.
    repeat constructor; simpl; tauto. }
  split; [exact Hv | split; [exact Hc | ]].
  assert (Hcl : ~ outside m_valid_classes (AStr "unmatched")).
  { intros [k [Hk Hn]]. simpl in Hk, Hn. destruct Hk as [<- | []]. tauto. }
  assert (Hs : ~ bad_subworld (Some "sevenfolds")) by (simpl; tauto).
  exact (proj2 (pairs_of_view1 Example.db view1_world view1_tables
                  (AStr "unmatched") (Some "sevenfolds") Hv Hc Hcl Hs)
           (AStr "dev") eq_refl).
Defined.

(** *** What a query yields *)

Lemma join_In {R B} (q : list R) (t : list B) (on : R -> B -> bool) r b :
  In (r, b) (join q t on) <-> In r q /\ In b t /\ on r b = true.
Proof.
  unfold join. rewrite in_flat_map. split.
  - intros [r' [Hr Hin]]. apply in_map_iff in Hin.
    destruct Hin as [b' [Heq Hb]]. injection Heq as <- <-.
    apply filter_In in Hb. tauto.
  - intros [Hr [Hb Hon]]. exists r. split; [assumption | ].
    apply in_map. apply filter_In. tauto.
Qed.

Section UniqueObjects.
Variables (E K : Type) (eqb : K -> K -> bool) (key : E -> K).
Hypothesis eqb_eq : forall x y, eqb x y = true <-> x = y.

Lemma unique_from_incl seen l x :
  In x (unique_from eqb key seen l) -> In x l.
Proof.
  revert seen. induction l as [| y l IH]; intros seen; simpl; [tauto | ].
  destruct (existsb (eqb (key y)) seen).
  - intros H. right. now apply (IH seen).
  - intros [H | H]; [now left | right; now apply (IH (key y :: seen))].
Qed.

Lemma unique_from_fresh seen l x :
  In x (unique_from eqb key seen l) -> ~ In (key x) seen.
Proof.
  revert seen. induction l as [| y l IH]; intros seen; simpl; [tauto | ].
  destruct (existsb (eqb (key y)) seen) eqn:Es.
  - apply IH.
  - intros [<- | H].
    + intros Hin. apply (seen_In K eqb eqb_eq) in Hin. congruence.
    + intros Hin. apply (IH _ H). now right.
Qed.

(** No object comes twice out of an iteration. *)
Lemma unique_from_NoDup seen l :
  NoDup (map key (unique_from eqb key seen l)).
Proof.
  revert seen. induction l as [| y l IH]; intros seen; simpl.
  - constructor.
  - destruct (existsb (eqb (key y)) seen); [apply IH | ].
    simpl. constructor; [ | apply IH].
    intros Hin. apply in_map_iff in Hin. destruct Hin as [x [Hk Hx]].
    apply unique_from_fresh in Hx. apply Hx. left. now symmetry.
Qed.

(** Every object a row stands for comes out of the iteration. *)
Lemma unique_from_complete seen l x :
  In x l -> ~ In (key x) seen ->
  exists y, In y (unique_from eqb key seen l) /\ key y = key x.
Proof.
  revert seen. induction l as [| z l IH]; intros seen Hx Hs; [destruct Hx | ].
  simpl. destruct (existsb (eqb (key z)) seen) eqn:Es.
  - destruct Hx as [-> | Hx].
    + apply (seen_In K eqb eqb_eq) in Es. contradiction.
    + now apply IH.
  - destruct Hx as [-> | Hx].
    + exists x. split; [now left | reflexivity].
    + destruct (eqb (key x) (key z)) eqn:Exz.
      * apply eqb_eq in Exz. exists z. split; [now left | congruence].
      * destruct (IH (key z :: seen) Hx) as [y [Hy Hk]].
        { intros [H | H]; [ | contradiction].
          rewrite <- H in Exz.
          assert (eqb (key z) (key z) = true) by now apply eqb_eq.
          congruence. }
        exists y. split; [now right | assumption].
Qed.
End UniqueObjects.

(** A step of the prologue of an operation that returned: the check
    passed. *)
Ltac passed H :=
  match type of H with
  | fst (bind (assert_validity ?self) _ ?w) = Ok _ =>
      let E := fresh "Evalid" in
      destruct (is_valid self) eqn:E;
      [ rewrite (bind_ok _ _ _ _ _ (assert_validity_passes self w E)) in H
      | unfold assert_validity in H; rewrite E in H; discriminate H ]
  | fst (bind (lift ?r) _ _) = Ok _ =>
      let E := fresh "Echeck" in
      destruct r eqn:E;
      [ rewrite bind_lift_ok in H
      | rewrite bind_lift_raise in H; discriminate H ]
  end.

Lemma rbind_Ok {A B} (r : result A) (k : A -> result B) b :
  rbind r k = Ok b -> exists a, r = Ok a /\ k a = Ok b.
Proof. destruct r as [a | e]; simpl; [eauto | discriminate]. Qed.

(** The queries [pairs] builds are queries of pairs on a condition. *)
Lemma pairs_returned self protocol groups classes subworld w l :
  fst (pairs self protocol groups classes subworld w) = Ok l ->
  exists cl queries,
    __check_validity__ classes m_valid_classes = Ok cl /\
    Forall (fun q => exists cond, q = pairs_query cond) queries /\
    fst (collect_pairs cl queries w) = Ok l.
Proof.
  unfold pairs. intros H. repeat passed H.
  match goal with
  | Hc : __check_validity__ classes m_valid_classes = Ok ?cl,
    Hg : __check_validity__ groups m_valid_groups = Ok ?g,
    Hp : __check_single__ protocol _ = Ok ?p,
    Hq : _ = Ok ?qs |- context [collect_pairs _ _ _] =>
      rename Hq into Hqs; rename g into gs; rename p into prot;
      exists cl, qs
  end.
  split; [reflexivity | ]. split; [ | exact H].
  clear H.
  assert (Hwhen : forall c cond,
             Forall (fun q => exists cond, q = pairs_query cond)
               (when c (pairs_query cond)))
    by (intros [] cond; simpl; repeat constructor; eauto).
  destruct (prot =? "view1")%string.
  - injection Hqs as <-. apply Forall_app. split; apply Hwhen.
  - apply rbind_Ok in Hqs. destruct Hqs as [qw [Hqw Hrest]].
    apply rbind_Ok in Hrest. destruct Hrest as [qd [Hqd Hrest]].
    injection Hrest as <-.
    assert (Hw : Forall (fun q => exists cond, q = pairs_query cond) qw).
    { destruct (str_in "world" gs); [ | injection Hqw as <-; constructor].
      apply rbind_Ok in Hqw. destruct Hqw as [ts [_ Hqw]].
      injection Hqw as <-. repeat constructor. eauto. }
    assert (Hd : Forall (fun q => exists cond, q = pairs_query cond) qd).
    { destruct (str_in "dev" gs); [ | injection Hqd as <-; constructor].
      apply rbind_Ok in Hqd. destruct Hqd as [ds [_ Hqd]].
      injection Hqd as <-. repeat constructor. eauto. }
    apply Forall_app. split; [assumption | ].
    apply Forall_app. split; [assumption | apply Hwhen].
Qed.

Lemma pairs_query_In t cond r :
  In r (pairs_query cond t) ->
  In (fst (fst r)) (pair_table t) /\
  cond (fst (fst r)) = true /\
  In (snd (fst r)) (file_table t) /\
  File_id (snd (fst r)) = Pair_enrol_file_id (fst (fst r)) /\
  In (snd r) (file_table t) /\
  File_id (snd r) = Pair_probe_file_id (fst (fst r)).
Proof.
  unfold pairs_query, qfilter, default_query. intros H.
  apply filter_In in H. destruct H as [H Hc].
  destruct r as [[p f1] f2]. apply join_In in H. destruct H as [H1 [Hf2 H2]].
  apply join_In in H1. destruct H1 as [Hp [Hf1 H1]].
  apply String.eqb_eq in H1, H2. simpl in *. tauto.
Qed.

Lemma collect_pairs_In cl queries :
  forall w t l,
    sqlite_file w = Some t ->
    Forall (fun q => exists cond, q = pairs_query cond) queries ->
    fst (collect_pairs cl queries w) = Ok l ->
    forall p, In p l ->
      In p (pair_table t) /\
      class_selected cl p = true /\
      (exists f, In f (file_table t) /\ File_id f = Pair_enrol_file_id p) /\
      (exists f, In f (file_table t) /\ File_id f = Pair_probe_file_id p).
Proof.
  induction queries as [| q qs IH]; intros w t l Hw Hq H p Hp.
  - simpl in H. injection H as <-. destruct Hp.
  - inversion Hq as [| ? ? [cond ->] Hqs]; subst.
    cbn [collect_pairs] in H. unfold iter_pairs, run, bind, ret in H.
    rewrite Hw in H.
    pose proof (class_filters cl cond t) as Hf. cbv zeta in Hf.
    rewrite Hf in H. clear Hf.
    pose proof (readonly_collect_pairs cl qs w) as Hro.
    destruct (collect_pairs cl qs w) as [[rest | e] w'] eqn:Erest;
      [ | discriminate H].
    simpl in Hro. subst w'. simpl in H. injection H as <-.
    apply in_app_or in Hp. destruct Hp as [Hp | Hp].
    + apply unique_from_incl in Hp. apply in_map_iff in Hp.
      destruct Hp as [r [<- Hr]]. apply pairs_query_In in Hr.
      destruct Hr as [H1 [H2 [H3 [H4 [H5 H6]]]]].
      apply andb_true_iff in H2. destruct H2 as [_ H2].
      repeat split; eauto.
    + apply (IH w t rest Hw Hqs); [now rewrite Erest | assumption].
Qed.

(** X4: every pair [pairs] returns is a row of the pair table whose
    enrol file and probe file are rows of the file table, and is of a
    class that was asked for: with [matched] alone every pair matches,
    with [unmatched] alone none does. *)
Theorem pairs_returns_rows_of_wanted_class :
  forall (self : Database) (w : World) (t : Tables)
         (protocol : option string) (groups classes : names)
         (subworld : option string) (l : list Pair),
    sqlite_file w = Some t ->
    fst (pairs self protocol groups classes subworld w) = Ok l ->
    forall p, In p l ->
      In p (pair_table t) /\
      (exists f, In f (file_table t) /\ File_id f = Pair_enrol_file_id p) /\
      (exists f, In f (file_table t) /\ File_id f = Pair_probe_file_id p) /\
      (named classes = ["matched"] -> Pair_is_match p = true) /\
      (named classes = ["unmatched"] -> Pair_is_match p = false).
Proof.
  intros self w t protocol groups classes subworld l Hw H p Hp.
  destruct (pairs_returned _ _ _ _ _ _ _ H) as [cl [queries [Hc [Hq Hl]]]].
  destruct (collect_pairs_In cl queries w t l Hw Hq Hl p Hp)
    as [Hin [Hsel [He Hpr]]].
  repeat split; try assumption.
  - intros Hn.
    rewrite (check_validity_single classes "matched" m_valid_classes Hn)
      in Hc by (simpl; tauto).
    injection Hc as <-. unfold class_selected in Hsel. simpl in Hsel.
    now destruct (Pair_is_match p).
  - intros Hn.
    rewrite (check_validity_single classes "unmatched" m_valid_classes Hn)
      in Hc by (simpl; tauto).
    injection Hc as <-. unfold class_selected in Hsel. simpl in Hsel.
    now destruct (Pair_is_match p).
Qed.

Lemma pairs_returns_rows_of_wanted_class_witness :
  let p := mkPair 4 "fold10" "Ann_Lee_0002" "Ann_Lee_0001" true in
  sqlite_file Example.world = Some Example.tables /\
  fst (pairs Example.db (Some "fold1") (AStr "dev") (AStr "matched")
         (Some "sevenfolds") Example.world) = Ok [p] /\
  In p (pair_table Example.tables) /\
  (exists f, In f (file_table Example.tables)
             /\ File_id f = Pair_enrol_file_id p) /\
  (exists f, In f (file_table Example.tables)
             /\ File_id f = Pair_probe_file_id p) /\
  (named (AStr "matched") = ["matched"] -> Pair_is_match p = true) /\
  (named (AStr "matched") = ["unmatched"] -> Pair_is_match p = false).
Proof.
  intros p.
  assert (Hw : sqlite_file Example.world = Some Example.tables)
    by reflexivity.
  assert (Hl : fst (pairs Example.db (Some "fold1") (AStr "dev")
                      (AStr "matched") (Some "sevenfolds") Example.world)
               = Ok [p]) by reflexivity.
  split; [exact Hw | split; [exact Hl | ]].
  apply (pairs_returns_rows_of_wanted_class Example.db Example.world
           Example.tables (Some "fold1") (AStr "dev") (AStr "matched")
           (Some "sevenfolds") [p] Hw Hl p).
  now left.
Defined.

(** *** The order of the clients *)

Section OrderBy.
Variables (R : Type) (key : R -> string).

Let le (x y : R) : Prop := String.leb (key x) (key y) = true.

Lemma insert_by_In x l y : In y (insert_by key x l) <-> y = x \/ In y l.
Proof.
  induction l as [| z l IH]; simpl; [intuition | ].
  destruct (String.leb (key x) (key z)); simpl; [intuition | ].
  rewrite IH. intuition.
Qed.

Lemma insert_by_sorted x l :
  StronglySorted le l -> StronglySorted le (insert_by key x l).
Proof.
  induction 1 as [| z l Hs IH Hz]; simpl.
  - repeat constructor.
  - destruct (String.leb (key x) (key z)) eqn:Exz.
    + constructor; [now constructor | ].
      constructor; [exact Exz | ].
      rewrite Forall_forall in *. intros y Hy.
      exact (string_leb_trans _ _ _ Exz (Hz y Hy)).
    + constructor; [exact IH | ].
      rewrite Forall_forall in *. intros y Hy.
      apply insert_by_In in Hy. destruct Hy as [-> | Hy].
      * now apply string_leb_false.
      * now apply Hz.
Qed.

Lemma order_by_sorted l : StronglySorted le (order_by key l).
Proof.
  induction l as [| x l IH]; simpl; [constructor | ].
  now apply insert_by_sorted.
Qed.

Lemma order_by_In l y : In y (order_by key l) <-> In y l.
Proof.
  induction l as [| x l IH]; simpl; [tauto | ].
  rewrite insert_by_In, IH. intuition.
Qed.
End OrderBy.

Lemma sorted_map_key {R} (key : R -> string) (l : list R) :
  StronglySorted (fun x y => String.leb (key x) (key y) = true) l ->
  ascending (map key l).
Proof.
  unfold ascending. induction 1 as [| x l Hs IH Hx]; simpl; constructor.
  - exact IH.
  - rewrite Forall_forall in *. intros k Hk. apply in_map_iff in Hk.
    destruct Hk as [y [<- Hy]]. now apply Hx.
Qed.

Lemma sorted_map_proj {R E} (proj : R -> E) (key : E -> string) (l : list R) :
  StronglySorted
    (fun x y => String.leb (key (proj x)) (key (proj y)) = true) l ->
  StronglySorted (fun x y => String.leb (key x) (key y) = true) (map proj l).
Proof.
  induction 1 as [| x l Hs IH Hx]; simpl; constructor.
  - exact IH.
  - rewrite Forall_forall in *. intros k Hk. apply in_map_iff in Hk.
    destruct Hk as [y [<- Hy]]. now apply Hx.
Qed.

Lemma unique_from_sorted {E} (key : E -> string) seen (l : list E) :
  StronglySorted (fun x y => String.leb (key x) (key y) = true) l ->
  StronglySorted (fun x y => String.leb (key x) (key y) = true)
    (unique_from String.eqb key seen l).
Proof.
  intros H. revert seen.
  induction H as [| x l Hs IH Hx]; intros seen; simpl; [constructor | ].
  destruct (existsb (String.eqb (key x)) seen); [apply IH | ].
  constructor; [apply IH | ].
  rewrite Forall_forall in *. intros y Hy.
  apply unique_from_incl in Hy. now apply Hx.
Qed.

(** What iterating over one query of clients yields *)
Lemma iter_clients_query cond t :
  let l := unique_list String.eqb Client_id (clients_query cond t) in
  ascending (map Client_id l) /\
  NoDup (map Client_id l) /\
  forall c, In c l ->
    In c (client_table t) /\
    exists f p,
      In f (file_table t) /\ File_client_id f = Client_id c /\
      In p (people_table t) /\ People_file_id p = File_id f /\
      cond p = true.
Proof.
  intros l. unfold l, unique_list. split; [ | split].
  - apply sorted_map_key, unique_from_sorted.
    unfold clients_query.
    apply (sorted_map_proj (fun r : Client * File * People => fst (fst r))
             Client_id).
    apply (order_by_sorted (Client * File * People)
             (fun r => Client_id (fst (fst r)))).
  - apply unique_from_NoDup. apply String.eqb_eq.
  - intros c Hc. apply unique_from_incl in Hc.
    unfold clients_query in Hc. apply in_map_iff in Hc.
    destruct Hc as [[[c' f] p] [Heq Hr]]. simpl in Heq. subst c'.
    apply order_by_In in Hr. apply filter_In in Hr. destruct Hr as [Hr Hcond].
    apply join_In in Hr. destruct Hr as [Hcf [Hp Hon2]].
    apply join_In in Hcf. destruct Hcf as [Hc [Hf Hon1]].
    apply String.eqb_eq in Hon1, Hon2. simpl in *.
    split; [assumption | ]. exists f, p. tauto.
Qed.

Lemma check_validity_single_inv a x valid gs :
  named a = [x] -> __check_validity__ a valid = Ok gs -> gs = [x].
Proof.
  intros Hn H. destruct a as [ | s | l]; simpl in Hn; try discriminate.
  - destruct s as [| c s]; [discriminate | ]. injection Hn as <-.
    unfold __check_validity__ in H. apply rbind_Ok in H.
    destruct H as [_ [_ H]]. now injection H as <-.
  - subst l. unfold __check_validity__ in H. apply rbind_Ok in H.
    destruct H as [_ [_ H]]. now injection H as <-.
Qed.

Lemma one_group g :
  (str_in "world" [g] = true /\ str_in "dev" [g] = false
   /\ str_in "eval" [g] = false) \/
  (str_in "world" [g] = false /\ str_in "dev" [g] = true
   /\ str_in "eval" [g] = false) \/
  (str_in "world" [g] = false /\ str_in "dev" [g] = false
   /\ str_in "eval" [g] = true) \/
  (str_in "world" [g] = false /\ str_in "dev" [g] = false
   /\ str_in "eval" [g] = false).
Proof.
  unfold str_in. cbn [existsb]. rewrite !orb_false_r.
  destruct (String.eqb_spec "world" g) as [<- | H1]; [now left | ].
  destruct (String.eqb_spec "dev" g) as [<- | H2]; [right; now left | ].
  destruct (String.eqb_spec "eval" g) as [<- | H3];
    [right; right; now left | now repeat right].
Qed.

(** With one group, [clients] runs at most one query. *)
Lemma clients_returned self protocol groups subworld w l g :
  named groups = [g] ->
  fst (clients self protocol groups subworld w) = Ok l ->
  exists queries,
    (queries = [] \/ exists cond, queries = [clients_query cond]) /\
    fst (collect iter_clients queries w) = Ok l.
Proof.
  unfold clients. intros Hg H. repeat passed H.
  match goal with
  | Hc : __check_validity__ groups m_valid_groups = Ok ?gs,
    Hp : __check_single__ protocol _ = Ok ?p,
    Hq : _ = Ok ?qs |- _ =>
      rename Hq into Hqs; rename p into prot;
      pose proof (check_validity_single_inv _ _ _ _ Hg Hc); subst gs;
      exists qs
  end.
  split; [ | exact H]. clear H.
  destruct (one_group g) as [[H1 [H2 H3]] | [[H1 [H2 H3]] | [[H1 [H2 H3]]
                            | [H1 [H2 H3]]]]];
    rewrite H1, H2, H3 in Hqs; destruct (prot =? "view1")%string;
    cbn [when app rbind] in Hqs;
    try (injection Hqs as <-; eauto; fail).
  - apply rbind_Ok in Hqs. destruct Hqs as [qw [Hqw Hqs]].
    apply rbind_Ok in Hqw. destruct Hqw as [ts [_ Hqw]].
    injection Hqw as <-. injection Hqs as <-. eauto.
  - apply rbind_Ok in Hqs. destruct Hqs as [qd [Hqd Hqs]].
    apply rbind_Ok in Hqd. destruct Hqd as [ds [_ Hqd]].
    injection Hqd as <-. injection Hqs as <-. eauto.
Qed.

(** X5: with one group, [clients] returns the clients in ascending
    order of their id and each one once; every one is a row of the
    client table that has a file listed in the people table. *)
Theorem clients_come_sorted_and_once :
  forall (self : Database) (w : World) (t : Tables)
         (protocol : option string) (groups : names)
         (subworld : option string) (g : string) (l : list Client),
    sqlite_file w = Some t ->
    named groups = [g] ->
    fst (clients self protocol groups subworld w) = Ok l ->
    ascending (map Client_id l) /\
    NoDup (map Client_id l) /\
    forall c, In c l ->
      In c (client_table t) /\
      exists f p,
        In f (file_table t) /\ File_client_id f = Client_id c /\
        In p (people_table t) /\ People_file_id p = File_id f.
Proof.
  intros self w t protocol groups subworld g l Hw Hg H.
  destruct (clients_returned _ _ _ _ _ _ _ Hg H) as [queries [Hq Hl]].
  destruct Hq as [-> | [cond ->]].
  - simpl in Hl. injection Hl as <-.
    split; [constructor | split; [constructor | intros x []]].
  - cbn [collect] in Hl. unfold iter_clients, run, bind, ret in Hl.
    rewrite Hw in Hl. simpl in Hl. injection Hl as <-.
    rewrite app_nil_r.
    destruct (iter_clients_query cond t) as [H1 [H2 H3]].
    split; [exact H1 | split; [exact H2 | ]].
    intros c Hc. destruct (H3 c Hc) as [Hin [f [p Hfp]]].
    split; [exact Hin | ]. exists f, p. tauto.
Qed.

Lemma clients_come_sorted_and_once_witness :
  let l := [mkClient "Ann_Lee"; mkClient "Bo_Diaz"] in
  sqlite_file view1_world = Some view1_tables /\
  fst (clients Example.db (Some "view1") (AStr "world") None view1_world)
  = Ok l /\
  ascending (map Client_id l) /\
  NoDup (map Client_id l).
Proof.
  intros l.
  assert (Hw : sqlite_file view1_world = Some view1_tables) by reflexivity.
  assert (Hl : fst (clients Example.db (Some "view1") (AStr "world") None
                      view1_world) = Ok l) by reflexivity.
  split; [exact Hw | split; [exact Hl | ]].
  destruct (clients_come_sorted_and_once Example.db view1_world view1_tables
              (Some "view1") (AStr "world") None "world" l Hw eq_refl Hl)
    as [H1 [H2 _]].
  split; assumption.
Defined.

(** *** [objects] and [models] *)

Lemma bind_same {S A B} (m : M S A) (k1 k2 : A -> M S B) s :
  (forall a s', m s = (Ok a, s') -> k1 a s' = k2 a s') ->
  bind m k1 s = bind m k2 s.
Proof.
  intros H. unfold bind. destruct (m s) as [[a | e] s'] eqn:E; auto.
Qed.

Lemma collect_files_all queries w :
  collect_files ANone queries w = collect iter_files queries w.
Proof.
  revert w. induction queries as [| q qs IH]; intros w; [reflexivity | ].
  cbn [collect_files collect wanted_ids].
  apply bind_same. intros found w' _.
  unfold bind. now rewrite IH.
Qed.

Lemma enrol_objects_collected queries w :
  (found <- collect_files ANone queries ;;
   probes <- collect_probes ANone [] ;;
   ret (found ++ probes)%list) w
  = collect iter_files queries w.
Proof.
  unfold bind. rewrite collect_files_all.
  destruct (collect iter_files queries w) as [[found | e] w']; [ | reflexivity].
  simpl. unfold ret. now rewrite app_nil_r.
Qed.

(** X6: asked for the enrol files of the restricted world type, with
    no model ids, [objects] is [models]: the same list, or the same
    error. *)
Theorem objects_for_enrolment_are_models :
  forall (self : Database) (w : World) (protocol : option string)
         (groups purposes : names) (subworld : option string),
    named purposes = ["enrol"] ->
    objects self protocol ANone groups purposes subworld (Some "restricted") w
    = models self protocol groups subworld w.
Proof.
  intros self w protocol groups purposes subworld Hp.
  unfold objects, models.
  apply bind_same. intros _ w1 _.
  apply bind_same. intros prot w2 _.
  apply bind_same. intros gs w3 _.
  rewrite (check_validity_single purposes "enrol" m_valid_purposes Hp)
    by (simpl; tauto).
  rewrite bind_lift_ok.
  change (__check_single__ (Some "restricted") m_valid_types)
    with (@Ok string "restricted").
  rewrite bind_lift_ok.
  apply bind_same. intros _ w4 _.
  cbn [String.eqb Ascii.eqb Bool.eqb str_in existsb orb when].
  destruct (prot =? "view1")%string.
  - rewrite !bind_lift_ok.
    destruct (str_in "dev" gs); cbn [when];
      rewrite ?app_nil_r; apply enrol_objects_collected.
  - destruct (str_in "world" gs);
      [destruct (__world_for__ prot subworld) as [ts | e] | ];
      cbn [rbind]; try reflexivity;
      (destruct (str_in "dev" gs);
       [destruct (__dev_for__ prot) as [ds | e'] | ];
       cbn [rbind]; try reflexivity;
       destruct (str_in "eval" gs);
       rewrite !bind_lift_ok; cbn [app when]; rewrite ?app_nil_r;
       apply enrol_objects_collected).
Qed.

Lemma objects_for_enrolment_are_models_witness :
  named (AStr "enrol") = ["enrol"] /\
  objects Example.db (Some "fold1") ANone ANone (AStr "enrol")
    (Some "sevenfolds") (Some "restricted") Example.world
  = models Example.db (Some "fold1") ANone (Some "sevenfolds") Example.world.
Proof.
  split; [reflexivity | ].
  now apply objects_for_enrolment_are_models.
Defined.

(** *** The model ids of [objects] *)

(** The rows of the queries of files *)
Lemma pair_files_query_In cond t f :
  In f (pair_files_query cond t) <->
  In f (file_table t) /\
  exists p, In p (pair_table t) /\ cond p = true /\
            (File_id f = Pair_enrol_file_id p
             \/ File_id f = Pair_probe_file_id p).
Proof.
  unfold pair_files_query. rewrite in_flat_map. split.
  - intros [p [Hp Hf]]. apply filter_In in Hp. apply order_by_In in Hf.
    apply filter_In in Hf. destruct Hf as [Hf Hid].
    apply orb_true_iff in Hid. rewrite !String.eqb_eq in Hid.
    split; [assumption | ]. exists p. tauto.
  - intros [Hf [p [Hp [Hc Hid]]]]. exists p. split; [now apply filter_In | ].
    apply order_by_In. apply filter_In. split; [assumption | ].
    apply orb_true_iff. now rewrite !String.eqb_eq.
Qed.

Lemma enrol_files_query_In cond t f :
  In f (enrol_files_query cond t) <->
  In f (file_table t) /\
  exists p, In p (pair_table t) /\ cond p = true /\
            File_id f = Pair_enrol_file_id p.
Proof.
  unfold enrol_files_query. rewrite in_map_iff. split.
  - intros [[p f'] [Heq H]]. simpl in Heq. subst f'.
    apply filter_In in H. destruct H as [H Hc]. apply join_In in H.
    destruct H as [Hp [Hf Hid]]. apply String.eqb_eq in Hid.
    split; [assumption | ]. exists p. auto.
  - intros [Hf [p [Hp [Hc Hid]]]]. exists (p, f). split; [reflexivity | ].
    apply filter_In. split; [ | exact Hc]. apply join_In.
    repeat split; try assumption. now apply String.eqb_eq.
Qed.

Lemma people_files_query_In cond t f :
  In f (people_files_query cond t) <->
  In f (file_table t) /\
  exists p, In p (people_table t) /\ cond p = true /\
            People_file_id p = File_id f.
Proof.
  unfold people_files_query. rewrite in_map_iff. split.
  - intros [[p f'] [Heq H]]. simpl in Heq. subst f'.
    apply filter_In in H. destruct H as [H Hc]. apply join_In in H.
    destruct H as [Hp [Hf Hid]]. apply String.eqb_eq in Hid.
    split; [assumption | ]. exists p. auto.
  - intros [Hf [p [Hp [Hc Hid]]]]. exists (p, f). split; [reflexivity | ].
    apply filter_In. split; [ | exact Hc]. apply join_In.
    repeat split; try assumption. now apply String.eqb_eq.
Qed.

Lemma probe_files_query_In cond t f p fa :
  In ((f, p), fa) (probe_files_query cond t) <->
  In p (pair_table t) /\ cond p = true /\
  In f (file_table t) /\ File_id f = Pair_probe_file_id p /\
  In fa (file_table t) /\ File_id fa = Pair_enrol_file_id p.
Proof.
  unfold probe_files_query. rewrite in_map_iff. split.
  - intros [[[p' f'] fa'] [Heq H]]. simpl in Heq. injection Heq as -> -> ->.
    apply filter_In in H. destruct H as [H Hc]. apply join_In in H.
    destruct H as [Hpf [Hfa Hen]]. apply join_In in Hpf.
    destruct Hpf as [Hp [Hf Hpr]]. apply String.eqb_eq in Hen, Hpr.
    simpl in *. tauto.
  - intros [Hp [Hc [Hf [Hpr [Hfa Hen]]]]]. exists ((p, f), fa).
    split; [reflexivity | ]. apply filter_In. split; [ | exact Hc].
    apply join_In. split; [ | split; [assumption | now apply String.eqb_eq]].
    apply join_In. split; [assumption | ].
    split; [assumption | now apply String.eqb_eq].
Qed.

Lemma pair_files_yield cond : yields_files (pair_files_query cond).
Proof. intros t f H. now apply pair_files_query_In in H. Qed.

Lemma enrol_files_yield cond : yields_files (enrol_files_query cond).
Proof. intros t f H. now apply enrol_files_query_In in H. Qed.

Lemma people_files_yield cond : yields_files (people_files_query cond).
Proof. intros t f H. now apply people_files_query_In in H. Qed.

Lemma when_Forall {A} (P : A -> Prop) c x : P x -> Forall P (when c x).
Proof. intros H. destruct c; simpl; repeat constructor; assumption. Qed.

Create HintDb yields.
#[local] Hint Resolve pair_files_yield enrol_files_yield people_files_yield
  : yields.

(** What [objects] ran when it returned: the checked groups and
    purposes, the queries of the first loop and those of the second. *)
Lemma objects_returned self protocol model_ids groups purposes subworld
  world_type w l :
  fst (objects self protocol model_ids groups purposes subworld world_type w)
  = Ok l ->
  exists gs pl queries probe_queries found probes,
    __check_validity__ groups m_valid_groups = Ok gs /\
    __check_validity__ purposes m_valid_purposes = Ok pl /\
    Forall yields_files queries /\
    Forall (fun q => exists cond, q = probe_files_query cond) probe_queries /\
    (str_in "probe" pl = false -> probe_queries = []) /\
    (str_in "world" gs = false -> str_in "enrol" pl = false ->
     queries = []) /\
    fst (collect_files (ASeq (ids_given model_ids)) queries w) = Ok found /\
    fst (collect_probes (ASeq (ids_given model_ids)) probe_queries w)
    = Ok probes /\
    l = (found ++ probes)%list.
Proof.
  unfold objects. intros H. repeat passed H.
  match goal with
  | Hg : __check_validity__ groups m_valid_groups = Ok ?g,
    Hpu : __check_validity__ purposes m_valid_purposes = Ok ?pu,
    Hp : __check_single__ protocol _ = Ok ?p,
    Ht : __check_single__ world_type _ = Ok ?wt,
    Hq : _ = Ok ?both |- _ =>
      rename Hq into Hqs; rename g into gs; rename pu into pl;
      rename p into prot; rename wt into wtype;
      destruct both as [queries probe_queries];
      exists gs, pl, queries, probe_queries
  end.
  (* the two loops *)
  assert (Hids : forall qs,
             collect_files
               match model_ids with AStr s => ASeq [s] | _ => model_ids end
               qs w
             = collect_files (ASeq (ids_given model_ids)) qs w).
  { intros qs. destruct model_ids as [ | s | ids]; try reflexivity.
    generalize w. clear. induction qs as [| q qs IH]; intros w; [reflexivity | ].
    cbn [collect_files wanted_ids ids_given].
    apply bind_same. intros found w' _. unfold bind. now rewrite IH. }
  assert (Hidp : forall qs w',
             collect_probes
               match model_ids with AStr s => ASeq [s] | _ => model_ids end
               qs w'
             = collect_probes (ASeq (ids_given model_ids)) qs w').
  { intros qs. destruct model_ids as [ | s | ids]; try reflexivity.
    clear. induction qs as [| q qs IH]; intros w'; [reflexivity | ].
    cbn [collect_probes wanted_ids ids_given].
    apply bind_same. intros found w'' _. unfold bind. now rewrite IH. }
  unfold bind in H. rewrite Hids in H.
  pose proof (readonly_collect_files (ASeq (ids_given model_ids)) queries w)
    as Hro.
  destruct (collect_files (ASeq (ids_given model_ids)) queries w)
    as [[found | e] w'] eqn:Efound; [ | discriminate H].
  simpl in Hro. subst w'. rewrite Hidp in H.
  destruct (collect_probes (ASeq (ids_given model_ids)) probe_queries w)
    as [[probes | e] w'] eqn:Eprobes; [ | discriminate H].
  simpl in H. injection H as <-.
  exists found, probes.
  split; [reflexivity | ]. split; [reflexivity | ].
  assert (Hform :
    Forall yields_files queries /\
    Forall (fun q => exists cond, q = probe_files_query cond) probe_queries /\
    (str_in "probe" pl = false -> probe_queries = []) /\
    (str_in "world" gs = false -> str_in "enrol" pl = false ->
     queries = [])).
  { clear Efound Eprobes Hids Hidp.
    destruct (prot =? "view1")%string.
    - injection Hqs as <- <-.
      destruct (str_in "world" gs), (str_in "dev" gs),
        (str_in "enrol" pl), (str_in "probe" pl),
        (wtype =? "restricted")%string;
        cbn [when app]; repeat split; intros;
        repeat constructor; eauto with yields; try discriminate.
    - apply rbind_Ok in Hqs. destruct Hqs as [qw [Hqw Hqs]].
      apply rbind_Ok in Hqs. destruct Hqs as [[qd pd] [Hqd Hqs]].
      injection Hqs as <- <-.
      assert (Hw : Forall yields_files qw
                   /\ (str_in "world" gs = false -> qw = [])).
      { destruct (str_in "world" gs).
        - apply rbind_Ok in Hqw. destruct Hqw as [ts [_ Hqw]].
          injection Hqw as <-. split; [ | discriminate].
          destruct (wtype =? "restricted")%string;
            repeat constructor; eauto with yields.
        - injection Hqw as <-. split; [constructor | reflexivity]. }
      assert (Hd : Forall yields_files qd
                   /\ Forall (fun q => exists cond, q = probe_files_query cond)
                        pd
                   /\ (str_in "probe" pl = false -> pd = [])
                   /\ (str_in "enrol" pl = false -> qd = [])).
      { destruct (str_in "dev" gs).
        - apply rbind_Ok in Hqd. destruct Hqd as [ds [_ Hqd]].
          injection Hqd as <- <-.
          destruct (str_in "enrol" pl), (str_in "probe" pl); cbn [when];
            repeat split; intros; repeat constructor; eauto with yields;
            try discriminate.
        - injection Hqd as <- <-.
          repeat split; intros; constructor. }
      destruct Hw as [Hw1 Hw2]. destruct Hd as [Hd1 [Hd2 [Hd3 Hd4]]].
      destruct (str_in "eval" gs), (str_in "enrol" pl) eqn:Een,
        (str_in "probe" pl) eqn:Epr; cbn [when];
        repeat split; intros; try discriminate;
        repeat (apply Forall_app; split); repeat constructor;
        eauto with yields;
        try (rewrite ?Hw2, ?Hd3, ?Hd4 by assumption; reflexivity). }
  tauto.
Qed.

Lemma check_validity_returns a valid gs :
  __check_validity__ a valid = Ok gs -> gs = selected valid a.
Proof.
  intros H. destruct a as [ | s | l].
  - now injection H as <-.
  - destruct s as [| c s]; [now injection H as <- | ].
    unfold __check_validity__ in H. apply rbind_Ok in H.
    destruct H as [_ [_ H]]. now injection H as <-.
  - destruct l as [| x l]; [now injection H as <- | ].
    unfold __check_validity__ in H. apply rbind_Ok in H.
    destruct H as [_ [_ H]]. now injection H as <-.
Qed.

Lemma wanted_ids_given model_ids :
  ids_given model_ids <> [] ->
  wanted_ids (ASeq (ids_given model_ids)) = Some (ids_given model_ids).
Proof. destruct (ids_given model_ids); [congruence | reflexivity]. Qed.

(** With model ids, the first loop keeps the files of these ids. *)
Lemma collect_files_In ids queries :
  forall w t l,
    sqlite_file w = Some t ->
    ids <> [] ->
    Forall yields_files queries ->
    fst (collect_files (ASeq ids) queries w) = Ok l ->
    forall f, In f l -> In f (file_table t) /\ In (File_id f) ids.
Proof.
  induction queries as [| q qs IH]; intros w t l Hw Hids Hq H f Hf.
  - simpl in H. injection H as <-. destruct Hf.
  - inversion Hq as [| ? ? Hy Hqs]; subst.
    cbn [collect_files] in H.
    replace (wanted_ids (ASeq ids)) with (Some ids) in H
      by (destruct ids; [congruence | reflexivity]).
    unfold iter_files, run, bind, ret in H. rewrite Hw in H.
    pose proof (readonly_collect_files (ASeq ids) qs w) as Hro.
    destruct (collect_files (ASeq ids) qs w) as [[rest | e] w'] eqn:Erest;
      [ | discriminate H].
    simpl in Hro. subst w'. simpl in H. injection H as <-.
    apply in_app_or in Hf. destruct Hf as [Hf | Hf].
    + apply unique_from_incl in Hf. unfold qfilter in Hf.
      apply filter_In in Hf. destruct Hf as [Hf Hid].
      split; [now apply Hy | now apply str_in_In].
    + apply (IH w t rest Hw Hids Hqs); [now rewrite Erest | assumption].
Qed.

(** With model ids, the second loop keeps the probe files of the pairs
    whose enrol file has one of these ids. *)
Lemma collect_probes_In ids queries :
  forall w t l,
    sqlite_file w = Some t ->
    ids <> [] ->
    Forall (fun q => exists cond, q = probe_files_query cond) queries ->
    fst (collect_probes (ASeq ids) queries w) = Ok l ->
    forall f, In f l ->
      In f (file_table t) /\
      exists p, In p (pair_table t) /\ Pair_probe_file_id p = File_id f
                /\ In (Pair_enrol_file_id p) ids.
Proof.
  induction queries as [| q qs IH]; intros w t l Hw Hids Hq H f Hf.
  - simpl in H. injection H as <-. destruct Hf.
  - inversion Hq as [| ? ? [cond ->] Hqs]; subst.
    cbn [collect_probes] in H.
    replace (wanted_ids (ASeq ids)) with (Some ids) in H
      by (destruct ids; [congruence | reflexivity]).
    unfold iter_files, run, bind, ret in H. rewrite Hw in H.
    pose proof (readonly_collect_probes (ASeq ids) qs w) as Hro.
    destruct (collect_probes (ASeq ids) qs w) as [[rest | e] w'] eqn:Erest;
      [ | discriminate H].
    simpl in Hro. subst w'. simpl in H. injection H as <-.
    apply in_app_or in Hf. destruct Hf as [Hf | Hf].
    + apply unique_from_incl in Hf. apply in_map_iff in Hf.
      destruct Hf as [[[f' p] fa] [<- Hr]]. unfold qfilter in Hr.
      apply filter_In in Hr. destruct Hr as [Hr Hid].
      apply probe_files_query_In in Hr.
      destruct Hr as [Hp [_ [Hf' [Hpr [Hfa Hen]]]]]. simpl in *.
      split; [assumption | ]. exists p.
      split; [assumption | ]. split; [now symmetry | ].
      rewrite <- Hen. now apply str_in_In.
    + apply (IH w t rest Hw Hids Hqs); [now rewrite Erest | assumption].
Qed.

(** X7: when model ids are given, [objects] filters on them.  Asked for
    the enrol files only, it returns files of the file table whose id is
    one of the model ids; asked for the probe files only, of groups
    other than the world, it returns probe files of pairs whose enrol
    file is one of the models. *)
Theorem objects_of_given_models :
  forall (self : Database) (w : World) (t : Tables)
         (protocol : option string) (model_ids groups purposes : names)
         (subworld world_type : option string) (l : list File),
    sqlite_file w = Some t ->
    ids_given model_ids <> [] ->
    fst (objects self protocol model_ids groups purposes subworld world_type w)
    = Ok l ->
    (named purposes = ["enrol"] ->
     forall f, In f l ->
       In f (file_table t) /\ In (File_id f) (ids_given model_ids)) /\
    (named purposes = ["probe"] ->
     ~ In "world" (selected m_valid_groups groups) ->
     forall f, In f l ->
       In f (file_table t) /\
       exists p, In p (pair_table t) /\ Pair_probe_file_id p = File_id f
                 /\ In (Pair_enrol_file_id p) (ids_given model_ids)).
Proof.
  intros self w t protocol model_ids groups purposes subworld world_type l
    Hw Hids H.
  destruct (objects_returned _ _ _ _ _ _ _ _ _ H)
    as [gs [pl [queries [probe_queries [found [probes
         [Hg [Hp [Hq [Hpq [Hnoprobe [Hnoenrol [Hfound [Hprobes ->]]]]]]]]]]]]]].
  split.
  - intros Hn f Hf.
    rewrite (check_validity_single_inv _ _ _ _ Hn Hp) in Hnoprobe.
    rewrite (Hnoprobe eq_refl) in Hprobes. simpl in Hprobes.
    injection Hprobes as <-. rewrite app_nil_r in Hf.
    exact (collect_files_In _ _ w t found Hw Hids Hq Hfound f Hf).
  - intros Hn Hnw f Hf.
    rewrite (check_validity_single_inv _ _ _ _ Hn Hp) in Hnoenrol.
    apply check_validity_returns in Hg. subst gs.
    apply str_in_false in Hnw.
    rewrite (Hnoenrol Hnw eq_refl) in Hfound. simpl in Hfound.
    injection Hfound as <-. simpl in Hf.
    exact (collect_probes_In _ _ w t probes Hw Hids Hpq Hprobes f Hf).
Qed.

Lemma objects_of_given_models_witness :
  let l := [File_init "Bo_Diaz" (ShotInt 1); File_init "Ann_Lee" (ShotInt 1)] in
  sqlite_file view1_world = Some view1_tables /\
  ids_given (AStr "Ann_Lee_0002") <> [] /\
  fst (objects Example.db (Some "view1") (AStr "Ann_Lee_0002") (AStr "dev")
         (AStr "probe") None (Some "restricted") view1_world) = Ok l /\
  (named (AStr "probe") = ["probe"] ->
   ~ In "world" (selected m_valid_groups (AStr "dev")) ->
   forall f, In f l ->
     In f (file_table view1_tables) /\
     exists p, In p (pair_table view1_tables)
               /\ Pair_probe_file_id p = File_id f
               /\ In (Pair_enrol_file_id p) (ids_given (AStr "Ann_Lee_0002"))).
Proof.
  intros l.
  assert (Hw : sqlite_file view1_world = Some view1_tables) by reflexivity.
  assert (Hids : ids_given (AStr "Ann_Lee_0002") <> []) by discriminate.
  assert (Hl : fst (objects Example.db (Some "view1") (AStr "Ann_Lee_0002")
                      (AStr "dev") (AStr "probe") None (Some "restricted")
                      view1_world) = Ok l) by reflexivity.
  split; [exact Hw | split; [exact Hids | split; [exact Hl | ]]].
  exact (proj2 (objects_of_given_models Example.db view1_world view1_tables
                  (Some "view1") (AStr "Ann_Lee_0002") (AStr "dev")
                  (AStr "probe") None (Some "restricted") l Hw Hids Hl)).
Defined.

(** *** The client of a file *)

Lemma filter_key_none {E} (key : E -> string) k l :
  ~ In k (map key l) -> filter (fun x => (key x =? k)%string) l = [].
Proof.
  induction l as [| y l IH]; intros H; [reflexivity | ].
  simpl. destruct (String.eqb_spec (key y) k) as [Heq | Hne].
  - elim H. left. assumption.
  - apply IH. intros Hin. apply H. now right.
Qed.

Lemma filter_key_one {E} (key : E -> string) l x :
  NoDup (map key l) -> In x l ->
  filter (fun y => (key y =? key x)%string) l = [x].
Proof.
  induction l as [| y l IH]; intros Hnd Hx; [destruct Hx | ].
  simpl in Hnd. inversion Hnd as [| ? ? Hy Hl]; subst.
  simpl. destruct Hx as [-> | Hx].
  - rewrite String.eqb_refl. f_equal. now apply filter_key_none.
  - destruct (String.eqb_spec (key y) (key x)) as [Heq | Hne].
    + elim Hy. rewrite Heq. now apply in_map.
    + now apply IH.
Qed.

(** X8: on a database whose file ids are unique,
    [get_client_id_from_file_id] gives, for the id of a file of the
    table, the client of this file, and raises AssertionError for an id
    of no file; [get_client_id_from_model_id] does the same. *)
Theorem client_id_of_file_id :
  forall (self : Database) (w : World) (t : Tables),
    is_valid self = true ->
    sqlite_file w = Some t ->
    NoDup (map File_id (file_table t)) ->
    (forall f, In f (file_table t) ->
       get_client_id_from_file_id self (File_id f) w
       = (Ok (File_client_id f), w) /\
       get_client_id_from_model_id self (File_id f) w
       = (Ok (File_client_id f), w)) /\
    (forall id, ~ In id (map File_id (file_table t)) ->
       get_client_id_from_file_id self id w = (Raise AssertionError, w) /\
       get_client_id_from_model_id self id w = (Raise AssertionError, w)).
Proof.
  intros self w t Hvalid Hw Hnd.
  assert (Hfile : forall f, In f (file_table t) ->
            get_client_id_from_file_id self (File_id f) w
            = (Ok (File_client_id f), w)).
  { intros f Hf. unfold get_client_id_from_file_id.
    rewrite (bind_ok _ _ _ _ _ (assert_validity_passes self w Hvalid)).
    unfold run, bind, ret. rewrite Hw.
    rewrite (filter_key_one File_id _ f Hnd Hf). cbn. rewrite Hw.
    now rewrite (filter_key_one File_id _ f Hnd Hf). }
  assert (Hnone : forall id, ~ In id (map File_id (file_table t)) ->
            get_client_id_from_file_id self id w = (Raise AssertionError, w)).
  { intros id Hid. unfold get_client_id_from_file_id.
    rewrite (bind_ok _ _ _ _ _ (assert_validity_passes self w Hvalid)).
    unfold run, bind, raise. rewrite Hw.
    rewrite (filter_key_none File_id _ _ Hid). reflexivity. }
  split.
  - intros f Hf. split; [ | unfold get_client_id_from_model_id];
      now apply Hfile.
  - intros id Hid. split; [ | unfold get_client_id_from_model_id];
      now apply Hnone.
Qed.

Lemma client_id_of_file_id_witness :
  is_valid Example.db = true /\
  sqlite_file Example.world = Some Example.tables /\
  NoDup (map File_id (file_table Example.tables)) /\
  get_client_id_from_file_id Example.db "Bo_Diaz_0001" Example.world
  = (Ok "Bo_Diaz", Example.world) /\
  get_client_id_from_model_id Example.db "Bo_Diaz_0002" Example.world
  = (Raise AssertionError, Example.world).
Proof.
  assert (Hnd : NoDup (map File_id (file_table Example.tables))).
  { repeat constructor; simpl; intuition discriminate. }
  split; [reflexivity | split; [reflexivity | split; [exact Hnd | ]]].
  destruct (client_id_of_file_id Example.db Example.world Example.tables
              eq_refl eq_refl Hnd) as [Hfile Hnone].
  split.
  - apply (Hfile (File_init "Bo_Diaz" (ShotInt 1))). simpl. tauto.
  - apply (Hnone "Bo_Diaz_0002"). simpl. intuition discriminate.
Defined.

(** *** The world of every subworld *)

Lemma subworld_count_cases sw n :
  In (sw, n) m_subworld_counts ->
  getitem m_subworld_counts (Some sw) = Ok n /\ 1 <= n <= 7.
Proof.
  simpl. intros H.
  repeat (destruct H as [H | H];
          [injection H as <- <-; split; [reflexivity | lia] | ]).
  destruct H.
Qed.

Lemma range_prefix n :
  0 <= n <= 7 -> range n = firstn (Z.to_nat n) (range 7).
Proof.
  intros H.
  assert (Hn : n = 0 \/ n = 1 \/ n = 2 \/ n = 3 \/ n = 4 \/ n = 5 \/ n = 6
               \/ n = 7) by lia.
  repeat (destruct Hn as [-> | Hn]; [reflexivity | ]). subst n. reflexivity.
Qed.

(** X10: for every fold [k] in 1..10 and every subworld of the
    dictionary, [__world_for__] gives as many folds as the subworld
    counts, all different; they are the first folds of the world of
    [sevenfolds], none of them is a development fold of [k] and none is
    [foldk] itself. *)
Theorem world_of_every_subworld :
  forall (k : Z) (sw : string) (n : Z),
    1 <= k <= 10 ->
    In (sw, n) m_subworld_counts ->
    exists world seven dev : list string,
      __world_for__ (fold_name k) (Some sw) = Ok world /\
      __world_for__ (fold_name k) (Some "sevenfolds") = Ok seven /\
      __dev_for__ (fold_name k) = Ok dev /\
      Z.of_nat (List.length world) = n /\
      world = firstn (Z.to_nat n) seven /\
      NoDup world /\
      incl world all_folds /\
      disjoint world dev /\
      ~ In (fold_name k) world.
Proof.
  intros k sw n Hk Hin.
  destruct (subworld_count_cases sw n Hin) as [Hget Hn].
  assert (Hseven : exists seven dev,
             __world_for__ (fold_name k) (Some "sevenfolds") = Ok seven /\
             __dev_for__ (fold_name k) = Ok dev /\
             seven = map fold_name
                       (map (fun i => (k + i) mod 10 + 1) (range 7)) /\
             NoDup seven /\ incl seven all_folds /\
             disjoint seven dev /\ ~ In (fold_name k) seven).
  { each_fold k Hk; eexists; eexists;
      (split; [vm_compute; reflexivity | ]);
      (split; [vm_compute; reflexivity | ]);
      (split; [vm_compute; reflexivity | ]);
      (split; [repeat constructor; simpl; intuition discriminate | ]);
      (split; [apply inclb_sound; vm_compute; reflexivity | ]);
      (split; [apply disjointb_sound; vm_compute; reflexivity | ]);
      simpl; intuition discriminate. }
  destruct Hseven as [seven [dev [H7 [Hdev [Heq [Hnd [Hall [Hdis Hk']]]]]]]].
  assert (Hpre : map fold_name (map (fun i => (k + i) mod 10 + 1) (range n))
                 = firstn (Z.to_nat n) seven).
  { rewrite Heq, (range_prefix n) by lia. now rewrite !firstn_map. }
  assert (Hincl : incl (firstn (Z.to_nat n) seven) seven).
  { intros x Hx. rewrite <- (firstn_skipn (Z.to_nat n) seven).
    apply in_or_app. now left. }
  exists (firstn (Z.to_nat n) seven), seven, dev.
  split.
  { unfold __world_for__. rewrite (eval_fold_name k Hk). cbn [rbind].
    rewrite Hget. cbn [rbind]. now rewrite Hpre. }
  split; [exact H7 | ]. split; [exact Hdev | ].
  split.
  { rewrite length_firstn. rewrite Heq, !length_map. unfold range.
    rewrite length_map, length_seq. lia. }
  split; [reflexivity | ].
  split.
  { rewrite <- (firstn_skipn (Z.to_nat n) seven) in Hnd.
    now apply NoDup_app_remove_r in Hnd. }
  split; [intros x Hx; apply Hall, Hincl, Hx | ].
  split; [intros x Hx; apply Hdis, Hincl, Hx | ].
  intros Hx. apply Hk', Hincl, Hx.
Qed.

Lemma world_of_every_subworld_witness :
  1 <= 9 <= 10 /\
  In ("threefolds", 3) m_subworld_counts /\
  exists world seven dev : list string,
    __world_for__ (fold_name 9) (Some "threefolds") = Ok world /\
    __world_for__ (fold_name 9) (Some "sevenfolds") = Ok seven /\
    __dev_for__ (fold_name 9) = Ok dev /\
    Z.of_nat (List.length world) = 3 /\
    world = firstn (Z.to_nat 3) seven /\
    NoDup world /\
    incl world all_folds /\
    disjoint world dev /\
    ~ In (fold_name 9) world.
Proof.
  assert (Hk : 1 <= 9 <= 10) by lia.
  assert (Hin : In ("threefolds", 3) m_subworld_counts)
    by (simpl; tauto).
  split; [exact Hk | split; [exact Hin | ]].
  exact (world_of_every_subworld 9 "threefolds" 3 Hk Hin).
Defined.

(** *** [create] before the import *)

Section CreateEdges.
Variable filename : string -> Z -> string.
Variable File_name : File -> string.

(** The block of [--recreate], whatever the database *)
Lemma recreate_block_any args s :
  (if recreate args
   then found <- dbfile_exists ;;
        (if found then unlink_dbfile else ret tt)
   else ret tt) s
  = (Ok tt, set_database (if recreate args then None else database s) s).
Proof.
  destruct s as [f r d t p]. destruct (recreate args); [ | reflexivity].
  unfold dbfile_exists, unlink_dbfile. rewrite bind_gets. cbn.
  destruct d; reflexivity.
Qed.

(** X11: without a [-v] flag the verbosity is [None], and [create]
    raises TypeError when [create_tables] compares it with 2: no table is
    made and nothing is read; with [--recreate] the database file that
    was there has been removed by then. *)
Theorem create_without_verbosity_raises :
  forall (args : Args) (s : State) (dbfile : string),
    files_0 args = Ok dbfile ->
    verbose args = None ->
    os_path_dirname dbfile <> "" \/ fs s (os_path_dirname dbfile) <> None ->
    fst (create filename File_name args s) = Raise TypeError /\
    database (snd (create filename File_name args s))
    = (if recreate args then None else database s) /\
    tables (snd (create filename File_name args s)) = tables s /\
    pending (snd (create filename File_name args s)) = pending s /\
    reads (snd (create filename File_name args s)) = reads s.
Proof.
  intros args s dbfile Hf Hv Hdir. unfold create.
  rewrite Hf, bind_lift_ok.
  rewrite (bind_ok _ _ _ _ _ (recreate_block_any args s)).
  unfold os_path_exists. rewrite bind_gets. cbv beta.
  assert (Hct : forall s', create_tables args s' = (Raise TypeError, s')).
  { intros s'. unfold create_tables. rewrite Hf, bind_lift_ok, Hv.
    reflexivity. }
  cbn [fs set_database].
  destruct (fs s (os_path_dirname dbfile)) as [n | ] eqn:Edir; cbn [negb].
  - rewrite bind_ret. cbv beta.
    rewrite (bind_raise _ _ _ _ _ (Hct _)). now destruct s.
  - destruct Hdir as [Hne | Hne]; [ | congruence].
    unfold os_makedirs. apply String.eqb_neq in Hne. rewrite Hne.
    rewrite bind_modify. cbv beta.
    rewrite (bind_raise _ _ _ _ _ (Hct _)). now destruct s.
Qed.

(** X12: a database file named without a directory makes [create]
    raise FileNotFoundError: [os.path.dirname] gives the empty string,
    which does not exist, and [os.makedirs] is called on it.  No table
    is made. *)
Theorem create_needs_a_directory :
  forall (args : Args) (s : State) (dbfile : string),
    files_0 args = Ok dbfile ->
    os_path_dirname dbfile = "" ->
    fs s "" = None ->
    fst (create filename File_name args s) = Raise FileNotFoundError /\
    database (snd (create filename File_name args s))
    = (if recreate args then None else database s) /\
    tables (snd (create filename File_name args s)) = tables s.
Proof.
  intros args s dbfile Hf Hdir Hfs. unfold create.
  rewrite Hf, bind_lift_ok.
  rewrite (bind_ok _ _ _ _ _ (recreate_block_any args s)).
  unfold os_path_exists. rewrite bind_gets. cbv beta.
  cbn [fs set_database]. rewrite Hdir, Hfs. cbn [negb].
  unfold os_makedirs. cbn. now destruct s.
Qed.

End CreateEdges.

Lemma create_without_verbosity_raises_witness :
  let args :=
    {| files := ["/db/db.sql3"]; recreate := true; verbose := None;
       basedir := "/lfw"; annotation_types := ["funneled"];
       idiap_annotation_dir := None;
       funneled_annotation_dir := Some "/ann" |} in
  let s := set_database (Some new_tables) ExampleImport.start1 in
  files_0 args = Ok "/db/db.sql3" /\
  verbose args = None /\
  fst (create ExampleImport.filename ExampleImport.File_name args s)
  = Raise TypeError /\
  database (snd (create ExampleImport.filename ExampleImport.File_name args s))
  = None.
Proof.
  intros args s.
  assert (Hf : files_0 args = Ok "/db/db.sql3") by reflexivity.
  assert (Hv : verbose args = None) by reflexivity.
  assert (Hdir : os_path_dirname "/db/db.sql3" <> ""
                 \/ fs s (os_path_dirname "/db/db.sql3") <> None)
    by (left; intros H; vm_compute in H; discriminate H).
  destruct (create_without_verbosity_raises ExampleImport.filename
              ExampleImport.File_name args s "/db/db.sql3" Hf Hv Hdir)
    as [Hr [Hd _]].
  split; [exact Hf | split; [exact Hv | split; [exact Hr | exact Hd]]].
Defined.

Lemma create_needs_a_directory_witness :
  let args :=
    {| files := ["db.sql3"]; recreate := false; verbose := Some 1;
       basedir := "/lfw"; annotation_types := ["funneled"];
       idiap_annotation_dir := None;
       funneled_annotation_dir := Some "/ann" |} in
  files_0 args = Ok "db.sql3" /\
  os_path_dirname "db.sql3" = "" /\
  fs ExampleImport.start1 "" = None /\
  fst (create ExampleImport.filename ExampleImport.File_name args
         ExampleImport.start1) = Raise FileNotFoundError.
Proof.
  intros args.
  assert (Hf : files_0 args = Ok "db.sql3") by reflexivity.
  assert (Hdir : os_path_dirname "db.sql3" = "") by reflexivity.
  assert (Hfs : fs ExampleImport.start1 "" = None) by reflexivity.
  split; [exact Hf | split; [exact Hdir | split; [exact Hfs | ]]].
  exact (proj1 (create_needs_a_directory ExampleImport.filename
                  ExampleImport.File_name args ExampleImport.start1
                  "db.sql3" Hf Hdir Hfs)).
Defined.

(** *** All or nothing *)

Lemma commits_bind {A B} args (m : M State A) (k : A -> M State B) :
  keeps args m -> (forall a, commits (k a)) -> commits (bind m k).
Proof.
  intros Hm Hk s. unfold bind. destruct (Hm s) as [_ [Hd _]].
  destruct (m s) as [[a | e] s1]; simpl in *; [ | exact Hd].
  specialize (Hk a s1). destruct (fst (k a s1)); [exact Hk | ].
  now rewrite Hk.
Qed.

Lemma commits_session_commit : commits session_commit.
Proof.
  intros s. unfold session_commit, session_flush, bind, modify.
  destruct (insert_all (pending s) (tables s)) as [st | e]; simpl; auto.
Qed.

Section AllOrNothing.
Variable filename : string -> Z -> string.
Variable File_name : File -> string.

Lemma commits_import args :
  commits
    (add_files (basedir args) (verbose args) ;;
     add_people filename File_name (basedir args) (verbose args) ;;
     add_pairs filename File_name (basedir args) (verbose args) ;;
     (if str_in "idiap" (annotation_types args) then
        add_annotations (idiap_annotation_dir args) ".pos" "idiap"
          (verbose args)
      else ret tt) ;;
     (if str_in "funneled" (annotation_types args) then
        add_annotations (funneled_annotation_dir args) ".jpg.pts" "funneled"
          (verbose args)
      else ret tt) ;;
     session_commit).
Proof.
  apply (commits_bind args); [apply keeps_add_files | intros _].
  apply (commits_bind args); [apply keeps_add_people | intros _].
  apply (commits_bind args); [apply keeps_add_pairs | intros _].
  apply (commits_bind args);
    [apply keeps_if; [apply keeps_add_annotations_idiap | apply keeps_ret]
    | intros _].
  apply (commits_bind args);
    [apply keeps_if; [apply keeps_add_annotations_funneled | apply keeps_ret]
    | intros _].
  apply commits_session_commit.
Qed.

(** X13: the import is all or nothing.  A run of [create] that starts
    without a database (or with [--recreate]) and raises after the
    tables were made leaves the five tables empty in the database file;
    a run that returns has committed everything: the database file holds
    the tables of the session and no object is pending. *)
Theorem create_commits_all_or_nothing :
  forall (args : Args) (s : State) (dbfile : string) (v : Z),
    files_0 args = Ok dbfile ->
    verbose args = Some v ->
    database s = None \/ recreate args = true ->
    os_path_dirname dbfile <> "" \/ fs s (os_path_dirname dbfile) <> None ->
    let run := create filename File_name args s in
    (forall e, fst run = Raise e -> database (snd run) = Some new_tables) /\
    (fst run = Ok tt ->
     database (snd run) = Some (tables (snd run)) /\ pending (snd run) = []).
Proof.
  intros args s dbfile v Hf Hv Hfresh Hdir run.
  destruct (create_opens_session filename File_name args s dbfile v
              Hf Hv Hfresh Hdir) as [s3 [Hrun [_ [Hd3 _]]]].
  subst run. rewrite Hrun. pose proof (commits_import args s3) as H.
  split.
  - intros e He. rewrite He in H. now rewrite H.
  - intros Hok. now rewrite Hok in H.
Qed.

End AllOrNothing.

Lemma create_commits_all_or_nothing_witness :
  let args :=
    {| files := ["/db/db.sql3"]; recreate := false; verbose := Some 1;
       basedir := "/nowhere"; annotation_types := ["funneled"];
       idiap_annotation_dir := None;
       funneled_annotation_dir := Some "/ann" |} in
  let run :=
    create ExampleImport.filename ExampleImport.File_name args
      ExampleImport.start1 in
  files_0 args = Ok "/db/db.sql3" /\
  fst run = Raise FileNotFoundError /\
  database (snd run) = Some new_tables.
Proof.
  intros args run.
  assert (Hf : files_0 args = Ok "/db/db.sql3") by reflexivity.
  assert (Hr : fst run = Raise FileNotFoundError) by reflexivity.
  split; [exact Hf | split; [exact Hr | ]].
  refine (proj1 (create_commits_all_or_nothing ExampleImport.filename
                   ExampleImport.File_name args ExampleImport.start1
                   "/db/db.sql3" 1 Hf eq_refl (or_introl eq_refl) _)
            FileNotFoundError Hr).
  left. intros H. vm_compute in H. discriminate H.
Defined.

(** *** The keys of the database that [create] writes *)

Lemma rows_of_append name r st n rows :
  table_rows name st = Some rows ->
  rows_of n (append_row name r st)
  = if (n =? name)%string then (rows ++ [r])%list else rows_of n st.
Proof.
  unfold rows_of. revert rows.
  induction st as [| [n' rows'] st IH]; intros rows H; [discriminate | ].
  simpl in H. simpl. destruct (String.eqb_spec n' name) as [-> | Hne].
  - injection H as <-. simpl. rewrite (String.eqb_sym n name).
    now destruct (name =? n)%string.
  - simpl. destruct (String.eqb_spec n' n) as [-> | Hn'].
    + apply String.eqb_neq in Hne. now rewrite Hne.
    + now apply IH.
Qed.

Lemma rows_of_table name st rows :
  table_rows name st = Some rows -> rows_of name st = rows.
Proof. intros H. unfold rows_of. now rewrite H. Qed.

Lemma flat_rows_append {X} (proj : row -> list X) name r st n rows :
  table_rows name st = Some rows ->
  flat_map proj (rows_of n (append_row name r st))
  = if (n =? name)%string
    then (flat_map proj (rows_of n st) ++ proj r)%list
    else flat_map proj (rows_of n st).
Proof.
  intros H. rewrite (rows_of_append _ _ _ _ _ H).
  destruct (String.eqb_spec n name) as [-> | Hne]; [ | reflexivity].
  rewrite (rows_of_table _ _ _ H), flat_map_app. simpl.
  now rewrite app_nil_r.
Qed.

Lemma file_rows_of st :
  file_rows st
  = flat_map (fun r => match r with RFile f => [f] | _ => [] end)
      (rows_of "file" st).
Proof. unfold file_rows, rows_of. now destruct (table_rows "file" st). Qed.

Lemma insert_Ok o st st' :
  insert o st = Ok st' ->
  exists rows r,
    table_rows (tablename o) st = Some rows /\
    st' = append_row (tablename o) r st /\
    match o with
    | NewClient c => r = RClient c /\ has_key (Client_id c) rows = false
    | NewFile f => r = RFile f /\ has_key (File_id f) rows = false
    | NewPeople protocol file_id =>
        r = RPeople (mkPeople (next_id rows) protocol file_id)
    | NewPair protocol e p m => r = RPair (mkPair (next_id rows) protocol e p m)
    | NewAnnotation a => r = RAnnotation a
    end.
Proof.
  unfold insert. intros H.
  destruct (table_rows (tablename o) st) as [rows | ] eqn:Et; [ | discriminate].
  exists rows. destruct o as [c | f | pr fid | pr e p m | a]; simpl in *.
  - destruct (has_key (Client_id c) rows) eqn:Ek; [discriminate | ].
    injection H as <-. eauto.
  - destruct (has_key (File_id f) rows) eqn:Ek; [discriminate | ].
    injection H as <-. eauto.
  - injection H as <-. eauto.
  - injection H as <-. eauto.
  - injection H as <-. eauto.
Qed.

Lemma NoDup_snoc {X} (l : list X) x : NoDup l -> ~ In x l -> NoDup (l ++ [x]).
Proof.
  intros Hl Hx. apply NoDup_app; [assumption | repeat constructor; intros [] | ].
  intros y Hy [<- | []]. contradiction.
Qed.

Lemma has_key_clients k rows :
  has_key k rows = false ->
  ~ In k (map Client_id
            (flat_map (fun r => match r with RClient c => [c] | _ => [] end)
               rows)).
Proof.
  induction rows as [| r rows IH]; intros H; [intros [] | ].
  simpl in H. apply orb_false_iff in H. destruct H as [Hr Hrows].
  simpl. rewrite map_app. intros Hin. apply in_app_or in Hin.
  destruct Hin as [Hin | Hin]; [ | now apply IH].
  destruct r; simpl in *; try contradiction.
  destruct Hin as [<- | []]. now rewrite String.eqb_refl in Hr.
Qed.

Lemma has_key_files k rows :
  has_key k rows = false ->
  ~ In k (map File_id
            (flat_map (fun r => match r with RFile f => [f] | _ => [] end)
               rows)).
Proof.
  induction rows as [| r rows IH]; intros H; [intros [] | ].
  simpl in H. apply orb_false_iff in H. destruct H as [Hr Hrows].
  simpl. rewrite map_app. intros Hin. apply in_app_or in Hin.
  destruct Hin as [Hin | Hin]; [ | now apply IH].
  destruct r; simpl in *; try contradiction.
  destruct Hin as [<- | []]. now rewrite String.eqb_refl in Hr.
Qed.

Lemma row_id_below_next rows r : In r rows -> row_id r < next_id rows.
Proof.
  unfold next_id. induction rows as [| r' rows IH]; intros H; [destruct H | ].
  cbn [fold_right]. destruct H as [-> | H]; [lia | ]. specialize (IH H). lia.
Qed.

Lemma next_id_people rows :
  ~ In (next_id rows)
      (map People_id
         (flat_map (fun r => match r with RPeople p => [p] | _ => [] end)
            rows)).
Proof.
  intros Hin. apply in_map_iff in Hin. destruct Hin as [p [Hid Hp]].
  apply in_flat_map in Hp. destruct Hp as [r [Hr Hp]].
  destruct r; simpl in Hp; try contradiction. destruct Hp as [-> | []].
  pose proof (row_id_below_next _ _ Hr) as Hlt. simpl in Hlt. lia.
Qed.

Lemma next_id_pairs rows :
  ~ In (next_id rows)
      (map Pair_id
         (flat_map (fun r => match r with RPair p => [p] | _ => [] end)
            rows)).
Proof.
  intros Hin. apply in_map_iff in Hin. destruct Hin as [p [Hid Hp]].
  apply in_flat_map in Hp. destruct Hp as [r [Hr Hp]].
  destruct r; simpl in Hp; try contradiction. destruct Hp as [-> | []].
  pose proof (row_id_below_next _ _ Hr) as Hlt. simpl in Hlt. lia.
Qed.

(** An INSERT that succeeds keeps the keys, when the file ids of the
    new row are ids of files; the file table only grows. *)
Lemma insert_consistent o st st' :
  store_consistent st -> refers st o -> insert o st = Ok st' ->
  store_consistent st' /\ incl (file_ids st) (file_ids st').
Proof.
  intros [Hc [Hf [Hpe [Hpa [Hfkpe Hfkpa]]]]] Ho H.
  apply insert_Ok in H. destruct H as [rows [r [Ht [-> Hr]]]].
  pose proof (rows_of_table _ _ _ Ht) as Hrows.
  unfold refers in Ho.
  unfold store_consistent, file_ids, client_rows, people_rows, pair_rows.
  rewrite !file_rows_of.
  rewrite !(flat_rows_append _ _ _ _ _ _ Ht).
  unfold file_ids, client_rows, people_rows, pair_rows in *.
  rewrite !file_rows_of in *.
  destruct o as [c | f | pr fid | pr e p m | a]; simpl in Hr, Ht, Hrows, Hfkpa;
    cbn [tablename String.eqb Ascii.eqb Bool.eqb].
  - destruct Hr as [-> Hk]. cbn. rewrite map_app. cbn [map].
    split; [ | apply incl_refl].
    split; [ | tauto].
    apply NoDup_snoc; [assumption | ]. rewrite Hrows.
    now apply has_key_clients.
  - destruct Hr as [-> Hk]. cbn. rewrite !map_app. cbn [map].
    split; [ | apply incl_appl, incl_refl].
    split; [assumption | ].
    split; [apply NoDup_snoc; [assumption | ]; rewrite Hrows;
            now apply has_key_files | ].
    split; [assumption | ]. split; [assumption | ].
    split.
    + intros q Hq. apply in_or_app. left. now apply Hfkpe.
    + intros q Hq. destruct (Hfkpa q Hq). split; apply in_or_app; now left.
  - subst r. cbn. rewrite !map_app. cbn [map].
    split; [ | apply incl_refl].
    split; [assumption | ]. split; [assumption | ].
    split; [apply NoDup_snoc; [assumption | ]; rewrite Hrows;
            apply next_id_people | ].
    split; [assumption | ].
    split; [ | assumption].
    intros q Hq. apply in_app_or in Hq. destruct Hq as [Hq | [<- | []]];
      [now apply Hfkpe | exact Ho].
  - subst r. cbn. rewrite !map_app. cbn [map].
    split; [ | apply incl_refl].
    split; [assumption | ]. split; [assumption | ]. split; [assumption | ].
    split; [apply NoDup_snoc; [assumption | ]; rewrite Hrows;
            apply next_id_pairs | ].
    split; [assumption | ].
    intros q Hq. apply in_app_or in Hq. destruct Hq as [Hq | [<- | []]];
      [now apply Hfkpa | exact Ho].
  - subst r. cbn. split; [ | apply incl_refl]. tauto.
Qed.

Lemma refers_incl st st' o :
  incl (file_ids st) (file_ids st') -> refers st o -> refers st' o.
Proof.
  intros H. destruct o; simpl; auto. intros [He Hp]. auto.
Qed.

Lemma insert_all_consistent l :
  forall st st',
    store_consistent st -> Forall (refers st) l -> insert_all l st = Ok st' ->
    store_consistent st' /\ incl (file_ids st) (file_ids st').
Proof.
  induction l as [| o l IH]; intros st st' Hc Hl H; simpl in H.
  - injection H as <-. split; [assumption | apply incl_refl].
  - apply rbind_Ok in H. destruct H as [st1 [Ho H]].
    inversion Hl as [| ? ? Hro Hrl]; subst.
    destruct (insert_consistent o st st1 Hc Hro Ho) as [Hc1 Hi1].
    destruct (IH st1 st' Hc1) as [Hc' Hi']; [ | assumption | ].
    + eapply Forall_impl; [ | exact Hrl]. intros o'. now apply refers_incl.
    + split; [assumption | ]. eapply incl_tran; eassumption.
Qed.

(** *** Rules for the steps of the import *)

Lemma triple_bind {A B} (P : State -> Prop) (Q : A -> State -> Prop)
  (R : B -> State -> Prop) (m : M State A) (k : A -> M State B) :
  triple P m Q -> (forall a, triple (Q a) (k a) R) -> triple P (bind m k) R.
Proof.
  intros Hm Hk s b s' HP H. unfold bind in H.
  destruct (m s) as [[a | e] s1] eqn:E; [ | discriminate].
  eapply Hk; [eapply Hm; eassumption | exact H].
Qed.

Lemma triple_weaken {A} (P P' : State -> Prop) (Q Q' : A -> State -> Prop)
  (m : M State A) :
  (forall s, P' s -> P s) -> (forall a s, Q a s -> Q' a s) ->
  triple P m Q -> triple P' m Q'.
Proof. intros HP HQ H s a s' Hs Hm. eapply HQ, H; eauto. Qed.

Lemma knowing_same ids s s' :
  tables s' = tables s -> pending s' = pending s ->
  knowing ids s -> knowing ids s'.
Proof. unfold knowing, sound. intros -> ->. tauto. Qed.

Lemma knowing_tail id ids s : knowing (id :: ids) s -> knowing ids s.
Proof.
  intros [Hs Hi]. split; [assumption | ]. intros x Hx. apply Hi. now right.
Qed.

Lemma safe_ret {A} (a : A) : safe (ret a).
Proof. intros ids s a' s' H E. now injection E as <- <-. Qed.

Lemma safe_raise {A} e : safe (@raise State A e).
Proof. intros ids s a' s' H E. discriminate E. Qed.

Lemma safe_lift {A} (r : result A) : safe (lift r).
Proof. intros ids s a' s' H E. unfold lift in E. now injection E as _ <-. Qed.

Lemma safe_gets {A} (f : State -> A) : safe (gets f).
Proof. intros ids s a' s' H E. now injection E as <- <-. Qed.

Lemma safe_bind {A B} (m : M State A) (k : A -> M State B) :
  safe m -> (forall a, safe (k a)) -> safe (bind m k).
Proof.
  intros Hm Hk ids. eapply triple_bind; [apply Hm | intros a; apply Hk].
Qed.

Lemma safe_for_each {A} (l : list A) (body : A -> M State unit) :
  (forall x, safe (body x)) -> safe (for_each l body).
Proof.
  intros H. induction l as [| x l IH]; simpl; [apply safe_ret | ].
  apply safe_bind; [apply H | intros _; exact IH].
Qed.

Lemma safe_if {A} (c : bool) (m1 m2 : M State A) :
  safe m1 -> safe m2 -> safe (if c then m1 else m2).
Proof. now destruct c. Qed.

Lemma safe_listdir path : safe (listdir path).
Proof.
  intros ids s a s' H E. unfold listdir in E.
  destruct (fs s path) as [[entries | content] | ]; try discriminate.
  injection E as _ <-. revert H. now apply knowing_same.
Qed.

Lemma safe_open_read path : safe (open_read path).
Proof.
  intros ids s a s' H E. unfold open_read in E.
  destruct (fs s path) as [[entries | content] | ]; try discriminate.
  injection E as _ <-. revert H. now apply knowing_same.
Qed.

Lemma safe_os_path_exists path : safe (os_path_exists path).
Proof. apply safe_gets. Qed.

(** The flush of a sound session *)
Lemma safe_session_flush : safe session_flush.
Proof.
  intros ids s a s' [[Hc Hp] Hi] E. unfold session_flush in E.
  destruct (insert_all (pending s) (tables s)) as [st | e] eqn:Ei;
    [ | discriminate].
  injection E as _ <-.
  destruct (insert_all_consistent _ _ _ Hc Hp Ei) as [Hc' Hi'].
  split; [split; [exact Hc' | constructor] | ].
  simpl. eapply incl_tran; eassumption.
Qed.

(** Adding an object whose file ids are ids of files *)
Lemma triple_session_add ids o :
  triple (fun s => knowing ids s /\ refers (tables s) o) (session_add o)
    (fun _ => knowing ids).
Proof.
  intros s a s' [[[Hc Hp] Hi] Ho] E. unfold session_add, modify in E.
  injection E as _ <-. split; [split | ]; simpl; try assumption.
  apply Forall_app. split; [assumption | now constructor].
Qed.

Lemma safe_session_add o : (forall st, refers st o) -> safe (session_add o).
Proof.
  intros Ho ids. eapply triple_weaken; [ | | apply (triple_session_add ids o)].
  - intros s H. split; [exact H | apply Ho].
  - auto.
Qed.

Lemma triple_query_File ids :
  triple (knowing ids) query_File
    (fun found s => knowing ids s /\ found = file_rows (tables s)).
Proof.
  unfold query_File.
  eapply triple_bind; [apply safe_session_flush | intros ?].
  intros s found s' H E. rewrite bind_gets in E.
  destruct (table_rows "file" (tables s)); [ | discriminate].
  injection E as <- <-. tauto.
Qed.

Lemma safe_query_File : safe query_File.
Proof.
  intros ids.
  eapply triple_weaken; [ | | apply (triple_query_File ids)]; [auto | ].
  intros a s H. apply H.
Qed.

Create HintDb safe.

#[local] Hint Resolve safe_ret safe_raise safe_lift safe_gets
  safe_os_path_exists safe_listdir safe_open_read safe_session_flush
  safe_query_File : safe.

Ltac safe_step :=
  match goal with
  | |- safe (bind _ _) => apply safe_bind; [ | intros ? ]
  | |- safe (for_each _ _) => apply safe_for_each; intros ?
  | |- safe (if _ then _ else _) => apply safe_if
  | |- safe (match ?x with _ => _ end) => destruct x
  | |- safe (session_add _) => apply safe_session_add; intros ?; exact I
  | |- safe _ => solve [ auto with safe ]
  end.

Lemma safe_add_files basedir verbose : safe (add_files basedir verbose).
Proof.
  unfold add_files, for_each_nodot, add_files_add_client, add_file.
  repeat safe_step.
Qed.

Lemma safe_add_annotations dir ext ty verbose :
  safe (add_annotations dir ext ty verbose).
Proof. unfold add_annotations, add_annotation. repeat safe_step. Qed.

Lemma triple_session_commit ids :
  triple (knowing ids) session_commit
    (fun _ s => knowing ids s /\ database s = Some (tables s)).
Proof.
  unfold session_commit.
  eapply triple_bind; [apply safe_session_flush | intros ?].
  intros s u s' H E. unfold modify in E. injection E as _ <-.
  split; [revert H; now apply knowing_same | reflexivity].
Qed.

Section SoundImport.
Variable filename : string -> Z -> string.
Variable File_name : File -> string.

(** The id that [first_file_id] returns is the id of a file. *)
Lemma triple_first_file_id ids name :
  triple (knowing ids) (first_file_id File_name name)
    (fun id s => knowing (id :: ids) s).
Proof.
  unfold first_file_id.
  eapply triple_bind; [apply triple_query_File | intros found].
  intros s id s' [[Hs Hi] ->] E.
  destruct (filter (fun f => (File_name f =? name)%string)
              (file_rows (tables s))) as [| f l] eqn:Ef; [discriminate | ].
  injection E as <- <-. split; [assumption | ].
  intros x [<- | Hx]; [ | now apply Hi].
  assert (Hf : In f (f :: l)) by now left.
  rewrite <- Ef in Hf. apply filter_In in Hf.
  unfold file_ids. apply in_map. tauto.
Qed.

Lemma safe_add_people_add_client verbose protocol client_id count :
  safe (add_people_add_client filename File_name verbose protocol client_id
          count).
Proof.
  unfold add_people_add_client. apply safe_for_each. intros i ids.
  eapply triple_bind; [apply safe_lift | intros ?].
  eapply triple_bind; [apply triple_first_file_id | intros id].
  eapply triple_weaken; [ | | apply (triple_session_add (id :: ids))].
  - intros s H. split; [exact H | ]. simpl. apply H. now left.
  - intros u s. apply knowing_tail.
Qed.

#[local] Hint Resolve safe_add_people_add_client : safe.

Lemma safe_parse_view1 verbose path protocol :
  safe (parse_view1 filename File_name verbose path protocol).
Proof. unfold parse_view1. repeat safe_step. Qed.

Lemma safe_parse_view2_lines verbose ls :
  forall fold_id protocol,
    safe (parse_view2_lines filename File_name verbose ls fold_id protocol).
Proof.
  induction ls as [| line rest IH]; intros fold_id protocol; simpl.
  - apply safe_ret.
  - repeat safe_step; apply IH.
Qed.

Lemma safe_parse_view2 verbose path :
  safe (parse_view2 filename File_name verbose path).
Proof.
  unfold parse_view2. apply safe_bind; [apply safe_open_read | intros text].
  apply safe_parse_view2_lines.
Qed.

Lemma safe_add_people basedir verbose :
  safe (add_people filename File_name basedir verbose).
Proof.
  unfold add_people.
  apply safe_bind; [apply safe_parse_view1 | intros _].
  apply safe_bind; [apply safe_parse_view1 | intros _].
  apply safe_parse_view2.
Qed.

(** The two file ids of a new pair are ids of files. *)
Lemma safe_new_pair verbose protocol name1 name2 (n1 n2 : result Z)
  is_match :
  safe (a1 <- lift n1 ;;
        file_id1 <- first_file_id File_name (name1 a1) ;;
        a2 <- lift n2 ;;
        file_id2 <- first_file_id File_name (name2 a2) ;;
        lift (gt verbose 1) ;;
        session_add (NewPair protocol file_id1 file_id2 is_match)).
Proof.
  intros ids.
  eapply triple_bind; [apply safe_lift | intros a1].
  eapply triple_bind; [apply triple_first_file_id | intros id1].
  eapply triple_bind; [apply safe_lift | intros a2].
  eapply triple_bind; [apply triple_first_file_id | intros id2].
  eapply triple_bind; [apply safe_lift | intros ?].
  eapply triple_weaken;
    [ | | apply (triple_session_add (id2 :: id1 :: ids))].
  - intros s H. split; [exact H | ]. simpl.
    split; apply H; simpl; tauto.
  - intros u s H. now apply knowing_tail, knowing_tail in H.
Qed.

Lemma safe_parse_file verbose path protocol :
  safe (parse_file filename File_name verbose path protocol).
Proof.
  unfold parse_file, add_mpair, add_upair.
  apply safe_bind; [apply safe_open_read | intros text].
  apply safe_for_each. intros line.
  apply safe_if; [ | apply safe_if; [ | apply safe_ret]].
  - apply (safe_new_pair verbose protocol
             (fun n => filename (item (split line) 0) n)
             (fun n => filename (item (split line) 0) n)).
  - apply (safe_new_pair verbose protocol
             (fun n => filename (item (split line) 0) n)
             (fun n => filename (item (split line) 2) n)).
Qed.

Lemma safe_add_pairs basedir verbose :
  safe (add_pairs filename File_name basedir verbose).
Proof.
  unfold add_pairs.
  apply safe_bind; [apply safe_session_flush | intros _].
  apply safe_bind; [apply safe_parse_file | intros _].
  apply safe_bind; [apply safe_parse_file | intros _].
  apply safe_for_each. intros fold.
  apply safe_bind; [apply safe_parse_file | intros _].
  apply safe_parse_file.
Qed.

Lemma new_tables_consistent : store_consistent new_tables.
Proof.
  unfold store_consistent. cbn.
  do 4 (split; [constructor | ]). split; intros p [].
Qed.

Lemma file_ids_In st id :
  In id (file_ids st) -> exists f, In f (file_rows st) /\ File_id f = id.
Proof.
  unfold file_ids. intros H. apply in_map_iff in H.
  destruct H as [f [Hid Hf]]. eauto.
Qed.


End SoundImport.


(** *** A second run of [create] on the same database *)

Lemma insert_all_app l1 l2 st :
  insert_all (l1 ++ l2) st = rbind (insert_all l1 st) (insert_all l2).
Proof.
  revert st. induction l1 as [| o l1 IH]; intros st; [reflexivity | ].
  simpl. destruct (insert o st) as [st1 | e]; simpl; [apply IH | reflexivity].
Qed.

Lemma table_rows_append name r st n :
  table_rows n (append_row name r st)
  = if (n =? name)%string
    then option_map (fun rows => rows ++ [r])%list (table_rows n st)
    else table_rows n st.
Proof.
  induction st as [| [n' rows'] st IH]; simpl.
  - now destruct (n =? name)%string.
  - destruct (String.eqb_spec n' name) as [-> | Hne]; simpl.
    + rewrite (String.eqb_sym n name).
      now destruct (name =? n)%string.
    + destruct (String.eqb_spec n' n) as [-> | Hn']; [ | exact IH].
      apply String.eqb_neq in Hne. now rewrite Hne.
Qed.

Lemma has_key_app k rows r :
  has_key k rows = true -> has_key k (rows ++ [r]) = true.
Proof.
  unfold has_key. intros H. rewrite existsb_app, H. reflexivity.
Qed.

Lemma has_client_append id name r st :
  has_client id st -> has_client id (append_row name r st).
Proof.
  intros [rows [Ht Hk]]. unfold has_client.
  rewrite table_rows_append, Ht.
  destruct ("client" =? name)%string; simpl; eauto using has_key_app.
Qed.

Lemma has_client_insert id o st st' :
  has_client id st -> insert o st = Ok st' -> has_client id st'.
Proof.
  intros Hc H. apply insert_Ok in H. destruct H as [rows [r [_ [-> _]]]].
  now apply has_client_append.
Qed.

Lemma has_client_insert_all id l :
  forall st st',
    has_client id st -> insert_all l st = Ok st' -> has_client id st'.
Proof.
  induction l as [| o l IH]; intros st st' Hc H; simpl in H.
  - now injection H as <-.
  - apply rbind_Ok in H. destruct H as [st1 [Ho H]].
    eapply IH; [ | exact H]. eapply has_client_insert; eassumption.
Qed.

(** A client whose id is taken cannot be flushed. *)
Lemma doomed_by_client c s :
  has_client (Client_id c) (tables s) ->
  In (NewClient c) (pending s) -> doomed s.
Proof.
  intros Hc Hin. apply in_split in Hin. destruct Hin as [l1 [l2 Hp]].
  unfold doomed. rewrite Hp, insert_all_app.
  destruct (insert_all l1 (tables s)) as [st1 | e] eqn:E1; [ | simpl; eauto].
  destruct (has_client_insert_all _ _ _ _ Hc E1) as [rows [Ht Hk]].
  simpl. unfold insert. simpl. rewrite Ht, Hk. simpl. eauto.
Qed.

(** Rules for an invariant of the session *)
Section Invariants.
Variable I : State -> Prop.

Lemma invariant_ret {A} (a : A) : invariant I (ret a).
Proof. intros s a' s' H E. now injection E as <- <-. Qed.

Lemma invariant_raise {A} e : invariant I (@raise State A e).
Proof. intros s a' s' H E. discriminate E. Qed.

Lemma invariant_lift {A} (r : result A) : invariant I (lift r).
Proof. intros s a' s' H E. unfold lift in E. now injection E as _ <-. Qed.

Lemma invariant_gets {A} (f : State -> A) : invariant I (gets f).
Proof. intros s a' s' H E. now injection E as <- <-. Qed.

Lemma invariant_bind {A B} (m : M State A) (k : A -> M State B) :
  invariant I m -> (forall a, invariant I (k a)) -> invariant I (bind m k).
Proof. intros Hm Hk. eapply triple_bind; [apply Hm | intros a; apply Hk]. Qed.

Lemma invariant_for_each {A} (l : list A) (body : A -> M State unit) :
  (forall x, invariant I (body x)) -> invariant I (for_each l body).
Proof.
  intros H. induction l as [| x l IH]; simpl; [apply invariant_ret | ].
  apply invariant_bind; [apply H | intros _; exact IH].
Qed.

Lemma invariant_if {A} (c : bool) (m1 m2 : M State A) :
  invariant I m1 -> invariant I m2 -> invariant I (if c then m1 else m2).
Proof. now destruct c. Qed.

(** An invariant of the tables and the pending objects is kept by the
    reads of the file system. *)
Hypothesis I_session :
  forall s s', tables s' = tables s -> pending s' = pending s -> I s -> I s'.

Lemma invariant_listdir path : invariant I (listdir path).
Proof.
  intros s a s' H E. unfold listdir in E.
  destruct (fs s path) as [[entries | content] | ]; try discriminate.
  injection E as _ <-. revert H. now apply I_session.
Qed.

Lemma invariant_open_read path : invariant I (open_read path).
Proof.
  intros s a s' H E. unfold open_read in E.
  destruct (fs s path) as [[entries | content] | ]; try discriminate.
  injection E as _ <-. revert H. now apply I_session.
Qed.

End Invariants.

Lemma doomed_session s s' :
  tables s' = tables s -> pending s' = pending s -> doomed s -> doomed s'.
Proof. unfold doomed. intros -> ->. auto. Qed.

Lemma has_client_session id s s' :
  tables s' = tables s -> pending s' = pending s ->
  has_client id (tables s) -> has_client id (tables s').
Proof. now intros -> _. Qed.

Lemma doomed_session_add o : invariant doomed (session_add o).
Proof.
  intros s a s' [e H] E. unfold session_add, modify in E.
  injection E as _ <-. exists e. simpl. now rewrite insert_all_app, H.
Qed.

Lemma has_client_session_add id o :
  invariant (fun s => has_client id (tables s)) (session_add o).
Proof.
  intros s a s' H E. unfold session_add, modify in E.
  now injection E as _ <-.
Qed.

(** The flush that is to fail does not return. *)
Lemma doomed_session_flush {A} (Q : A -> State -> Prop)
  (k : unit -> M State A) :
  triple doomed (bind session_flush k) Q.
Proof.
  intros s a s' [e H] E. unfold bind, session_flush in E.
  rewrite H in E. discriminate E.
Qed.

Lemma doomed_query_File : invariant doomed query_File.
Proof. unfold query_File. apply doomed_session_flush. Qed.

Create HintDb invariant.

#[local] Hint Resolve invariant_ret invariant_raise invariant_lift
  invariant_gets doomed_session_add has_client_session_add
  doomed_query_File : invariant.
#[local] Hint Extern 1 (invariant doomed (listdir _)) =>
  apply (invariant_listdir doomed doomed_session) : invariant.
#[local] Hint Extern 1 (invariant doomed (open_read _)) =>
  apply (invariant_open_read doomed doomed_session) : invariant.
#[local] Hint Extern 1
  (invariant (fun s => has_client ?id (tables s)) (listdir _)) =>
  apply (invariant_listdir _ (has_client_session id)) : invariant.

Ltac invariant_step :=
  match goal with
  | |- invariant _ (bind _ _) => apply invariant_bind; [ | intros ? ]
  | |- invariant _ (for_each _ _) => apply invariant_for_each; intros ?
  | |- invariant _ (if _ then _ else _) => apply invariant_if
  | |- invariant _ (match ?x with _ => _ end) => destruct x
  | |- invariant _ _ => solve [ auto with invariant ]
  end.

Lemma In_insert_sorted x y l : In x (insert_sorted y l) <-> x = y \/ In x l.
Proof.
  induction l as [| z l IH]; simpl; [intuition | ].
  destruct (String.leb y z); simpl; [intuition | ].
  rewrite IH. intuition.
Qed.

Lemma In_sorted x l : In x (sorted l) <-> In x l.
Proof.
  induction l as [| y l IH]; simpl; [tauto | ].
  rewrite In_insert_sorted, IH. intuition.
Qed.

(** A loop that reaches an element whose body establishes [D], every
    body keeping [B] before and [D] after *)
Lemma for_each_reaches {A} (B D : State -> Prop) (l : list A)
  (body : A -> M State unit) x :
  In x l ->
  (forall y, invariant B (body y)) ->
  (forall y, invariant D (body y)) ->
  triple B (body x) (fun _ => D) ->
  triple B (for_each l body) (fun _ => D).
Proof.
  intros Hx HB HD Hbody. induction l as [| y l IH]; [destruct Hx | ].
  simpl. destruct Hx as [-> | Hx].
  - eapply triple_bind; [exact Hbody | intros u].
    apply invariant_for_each, HD.
  - eapply triple_bind; [apply HB | intros u; now apply IH].
Qed.

(** The body of the loop of [add_files] over the clients *)
Lemma add_files_body_invariant I basedir verbose client_dir :
  (forall o, invariant I (session_add o)) ->
  (forall path, invariant I (listdir path)) ->
  invariant I
    (keep <- lift (nodot client_dir) ;;
     if keep then
       client_name <- add_files_add_client client_dir ;;
       lift (gt verbose 1) ;;
       entries <- listdir
                    (os_path_join (os_path_join basedir "all_images")
                       client_dir) ;;
       for_each_nodot (sorted entries) (fun filename_ =>
         if endswith filename_ ".jpg" then
           lift (gt verbose 1) ;;
           add_file filename_
         else ret tt)
     else ret tt).
Proof.
  intros Hadd Hlist.
  unfold for_each_nodot, add_files_add_client, add_file.
  repeat first [ apply Hadd | apply Hlist | apply invariant_ret
               | apply invariant_lift
               | apply invariant_bind; [ | intros ? ]
               | apply invariant_for_each; intros ?
               | apply invariant_if ].
Qed.

(** [add_files] on tables that have one of the clients of the image
    directory *)
Lemma add_files_dooms basedir verbose id :
  nodot id = Ok true ->
  triple
    (fun s =>
       has_client id (tables s) /\
       exists entries,
         fs s (os_path_join basedir "all_images") = Some (Dir entries)
         /\ In id entries)
    (add_files basedir verbose) (fun _ => doomed).
Proof.
  intros Hdot s a s' [Hc [entries [Hfs Hin]]] E.
  unfold add_files in E. unfold bind at 1 in E. unfold listdir at 1 in E.
  rewrite Hfs in E.
  refine (for_each_reaches (fun s => has_client id (tables s)) doomed
            (sorted entries) _ id _ _ _ _ _ _ _ _ E).
  - now apply In_sorted.
  - intros y. apply add_files_body_invariant; auto with invariant.
  - intros y. apply add_files_body_invariant; auto with invariant.
  - rewrite Hdot. intros s1 a1 s1' H1 E1. rewrite bind_lift_ok in E1.
    unfold add_files_add_client in E1.
    rewrite (bind_ok _ _ _ _ _ (eq_refl : (session_add (NewClient (mkClient id)) ;; ret (Client_id (mkClient id)))%py s1 = (Ok id, set_pending (pending s1 ++ [NewClient (mkClient id)]) s1))) in E1.
    assert (Hd : doomed (set_pending (pending s1 ++ [NewClient (mkClient id)])
                           s1)).
    { apply (doomed_by_client (mkClient id)); simpl; [exact H1 | ].
      apply in_or_app. right. now left. }
    revert Hd E1.
    generalize (set_pending (pending s1 ++ [NewClient (mkClient id)]) s1).
    intros s2 Hd E1.
    assert (Hrest : invariant doomed
              (lift (gt verbose 1) ;;
               entries0 <-
                 listdir (os_path_join (os_path_join basedir "all_images") id) ;;
               for_each_nodot (sorted entries0)
                 (fun filename_ =>
                    if endswith filename_ ".jpg"
                    then lift (gt verbose 1) ;; add_file filename_
                    else ret tt))).
    { unfold for_each_nodot, add_file. repeat invariant_step. }
    exact (Hrest s2 a1 s1' Hd E1).
  - exact Hc.
Qed.

Lemma create_all_complete st :
  (forall name, In name metadata -> has_table name st = true) ->
  create_all st = st.
Proof.
  intros H. unfold create_all, metadata in *. simpl.
  rewrite !H; simpl; tauto.
Qed.

Lemma in_client_rows c st :
  In c (client_rows st) -> has_client (Client_id c) st.
Proof.
  unfold client_rows, rows_of, has_client. intros H.
  destruct (table_rows "client" st) as [rows | ]; [ | destruct H].
  exists rows. split; [reflexivity | ].
  apply in_flat_map in H. destruct H as [r [Hr Hc]].
  unfold has_key. apply existsb_exists. exists r. split; [assumption | ].
  destruct r; simpl in Hc; try contradiction.
  destruct Hc as [-> | []]. simpl. apply String.eqb_refl.
Qed.

Section SecondRun.
Variable filename : string -> Z -> string.
Variable File_name : File -> string.

Lemma doomed_first_file_id name :
  invariant doomed (first_file_id File_name name).
Proof.
  unfold first_file_id. apply invariant_bind; [apply doomed_query_File | ].
  intros found. destruct (filter _ found); auto with invariant.
Qed.

#[local] Hint Resolve doomed_first_file_id : invariant.

Lemma doomed_add_people_add_client verbose protocol client_id count :
  invariant doomed
    (add_people_add_client filename File_name verbose protocol client_id
       count).
Proof. unfold add_people_add_client. repeat invariant_step. Qed.

#[local] Hint Resolve doomed_add_people_add_client : invariant.

Lemma doomed_parse_view1 verbose path protocol :
  invariant doomed (parse_view1 filename File_name verbose path protocol).
Proof. unfold parse_view1. repeat invariant_step. Qed.

Lemma doomed_parse_view2_lines verbose ls :
  forall fold_id protocol,
    invariant doomed
      (parse_view2_lines filename File_name verbose ls fold_id protocol).
Proof.
  induction ls as [| line rest IH]; intros fold_id protocol; simpl.
  - apply invariant_ret.
  - repeat invariant_step; apply IH.
Qed.

Lemma doomed_add_people basedir verbose :
  invariant doomed (add_people filename File_name basedir verbose).
Proof.
  unfold add_people, parse_view2.
  apply invariant_bind; [apply doomed_parse_view1 | intros _].
  apply invariant_bind; [apply doomed_parse_view1 | intros _].
  apply invariant_bind; [auto with invariant | intros text].
  apply doomed_parse_view2_lines.
Qed.

(** Up to the opening of the session, on a database that is there and
    has its tables *)
Lemma create_reopens_session args s dbfile v st :
  files_0 args = Ok dbfile ->
  verbose args = Some v ->
  recreate args = false ->
  database s = Some st ->
  create_all st = st ->
  fs s (os_path_dirname dbfile) <> None ->
  exists s3,
    create filename File_name args s
    = (add_files (basedir args) (verbose args) ;;
       add_people filename File_name (basedir args) (verbose args) ;;
       add_pairs filename File_name (basedir args) (verbose args) ;;
       (if str_in "idiap" (annotation_types args) then
          add_annotations (idiap_annotation_dir args) ".pos" "idiap"
            (verbose args)
        else ret tt) ;;
       (if str_in "funneled" (annotation_types args) then
          add_annotations (funneled_annotation_dir args) ".jpg.pts"
            "funneled" (verbose args)
        else ret tt) ;;
       session_commit) s3 /\
    fs s3 = fs s /\
    database s3 = Some st /\
    tables s3 = st.
Proof.
  intros Hf Hv Hre Hd Hall Hdir. unfold create.
  rewrite Hf, bind_lift_ok, Hre, bind_ret.
  unfold os_path_exists. rewrite bind_gets. cbv beta.
  destruct (fs s (os_path_dirname dbfile)) as [n | ] eqn:Edir;
    [ | congruence].
  cbn [negb]. rewrite bind_ret.
  assert (Hct : create_tables args s
                = (Ok tt, set_database (Some st) s)).
  { unfold create_tables. rewrite Hf, bind_lift_ok, Hv. cbn [gt].
    rewrite bind_lift_ok. unfold metadata_create_all.
    rewrite !bind_modify. unfold modify. cbn [database set_database].
    now rewrite Hd, !Hall. }
  rewrite (bind_ok _ _ _ _ _ Hct), bind_lift_ok, Hv. cbn [gt].
  rewrite bind_lift_ok. unfold session_try_nolock. rewrite bind_modify.
  eexists. split; [reflexivity | ]. simpl. auto.
Qed.

(** X15: a second run of [create] on a database that is there, without
    [--recreate], does not return when the client table already has a
    client whose directory is listed in the image directory: the flush
    of this client fails at the latest when [add_pairs] starts.  The
    database file is left as it was. *)
Theorem create_again_raises :
  forall (args : Args) (s : State) (dbfile : string) (v : Z) (st : Store)
         (c : Client) (entries : list string),
    files_0 args = Ok dbfile ->
    verbose args = Some v ->
    recreate args = false ->
    database s = Some st ->
    (forall name, In name metadata -> has_table name st = true) ->
    fs s (os_path_dirname dbfile) <> None ->
    In c (client_rows st) ->
    fs s (os_path_join (basedir args) "all_images") = Some (Dir entries) ->
    In (Client_id c) entries ->
    nodot (Client_id c) = Ok true ->
    (exists e, fst (create filename File_name args s) = Raise e) /\
    database (snd (create filename File_name args s)) = Some st.
Proof.
  intros args s dbfile v st c entries Hf Hv Hre Hd Hall Hdir Hc Hfs Hin Hdot.
  destruct (create_reopens_session args s dbfile v st Hf Hv Hre Hd
              (create_all_complete st Hall) Hdir)
    as [s3 [Hrun [Hfs3 [Hd3 Ht3]]]].
  rewrite Hrun.
  pose proof (commits_import filename File_name args s3) as Hcommit.
  match goal with
  | |- context [fst (?m s3)] =>
      assert (Hm : triple
                     (fun s =>
                        has_client (Client_id c) (tables s) /\
                        exists entries,
                          fs s (os_path_join (basedir args) "all_images")
                          = Some (Dir entries)
                          /\ In (Client_id c) entries)
                     m (fun _ _ => False))
  end.
  { eapply triple_bind; [now apply add_files_dooms | intros u1].
    eapply triple_bind; [apply doomed_add_people | intros u2].
    eapply (triple_bind _ (fun _ _ => False));
      [unfold add_pairs; apply doomed_session_flush | ].
    intros u3 s0 a s' []. }
  match goal with
  | |- context [fst (?m s3)] => destruct (m s3) as [[[] | e] s'] eqn:Em
  end.
  - exfalso. apply (Hm s3 tt s'); [ | exact Em].
    split; [rewrite Ht3; now apply in_client_rows | ].
    exists entries. now rewrite Hfs3.
  - simpl in *. split; [eauto | congruence].
Qed.

End SecondRun.

Lemma create_again_raises_witness :
  let first :=
    snd (create ExampleImport.filename ExampleImport.File_name
           ExampleImport.args ExampleImport.start1) in
  let again :=
    create ExampleImport.filename ExampleImport.File_name ExampleImport.args
      first in
  files_0 ExampleImport.args = Ok "/db/db.sql3" /\
  recreate ExampleImport.args = false /\
  In (mkClient "Ann_Lee") (client_rows (tables first)) /\
  fst again = Raise IntegrityError /\
  database (snd again) = database first.
Proof.
  intros first again.
  assert (Hf : files_0 ExampleImport.args = Ok "/db/db.sql3") by reflexivity.
  assert (Hd : database first = Some (tables first))
    by (vm_compute; reflexivity).
  assert (Hc : In (mkClient "Ann_Lee") (client_rows (tables first)))
    by (vm_compute; tauto).
  assert (Hall : forall name, In name metadata ->
                   has_table name (tables first) = true).
  { intros name Hn. simpl in Hn.
    repeat (destruct Hn as [<- | Hn]; [vm_compute; reflexivity | ]).
    destruct Hn. }
  assert (Hdir : fs first (os_path_dirname "/db/db.sql3") <> None)
    by (vm_compute; discriminate).
  assert (Hfs : fs first (os_path_join (basedir ExampleImport.args)
                            "all_images")
                = Some (Dir ["Bo_Diaz"; ".cache"; "Ann_Lee"]))
    by (vm_compute; reflexivity).
  assert (Hin : In (Client_id (mkClient "Ann_Lee"))
                  ["Bo_Diaz"; ".cache"; "Ann_Lee"]) by (simpl; tauto).
  pose proof (create_again_raises ExampleImport.filename
                ExampleImport.File_name ExampleImport.args first
                "/db/db.sql3" 1 (tables first) (mkClient "Ann_Lee") _
                Hf eq_refl eq_refl Hd Hall Hdir Hc Hfs Hin eq_refl)
    as [_ Hdb].
  split; [exact Hf | split; [reflexivity | split; [exact Hc | ]]].
  split; [vm_compute; reflexivity | ].
  exact (eq_trans Hdb (eq_sym Hd)).
Defined.

(** *** From the name of an image to its file *)

Lemma string_app_nil_r (s : string) : (s ++ "")%string = s.
Proof. induction s as [| c s IH]; simpl; [reflexivity | now rewrite IH]. Qed.

Lemma str_rev_onto_twice s :
  forall acc acc',
    str_rev_onto (str_rev_onto s acc) acc'
    = str_rev_onto acc (s ++ acc')%string.
Proof.
  induction s as [| c s IH]; intros acc acc'; simpl; [reflexivity | ].
  now rewrite IH.
Qed.

Lemma str_rev_involutive s : str_rev (str_rev s) = s.
Proof.
  unfold str_rev. rewrite str_rev_onto_twice. simpl.
  apply string_app_nil_r.
Qed.

Lemma occurs_app c a b : occurs c (a ++ b) = occurs c a || occurs c b.
Proof.
  induction a as [| x a IH]; simpl; [reflexivity | ].
  now rewrite IH, orb_assoc.
Qed.

(** Without the separator there is one field. *)
Lemma last_field_whole sep s :
  forall cur,
    occurs sep s = false ->
    last_field sep cur s = str_rev (str_rev_onto s cur).
Proof.
  induction s as [| c s IH]; intros cur H; simpl in *; [reflexivity | ].
  apply orb_false_iff in H. destruct H as [Hc Hs].
  rewrite Hc. now apply IH.
Qed.

Lemma split_last_whole sep s : occurs sep s = false -> split_last s sep = s.
Proof.
  intros H. unfold split_last. rewrite (last_field_whole _ _ _ H).
  apply str_rev_involutive.
Qed.

(** The last field starts after the last separator. *)
Lemma last_field_after sep a b :
  forall cur,
    last_field sep cur (a ++ String sep b) = last_field sep "" b.
Proof.
  induction a as [| c a IH]; intros cur; simpl.
  - now rewrite Ascii.eqb_refl.
  - destruct (c =? sep)%char; apply IH.
Qed.

Lemma split_last_after sep a b :
  occurs sep b = false -> split_last (a ++ String sep b) sep = b.
Proof.
  intros H. unfold split_last. rewrite last_field_after.
  now apply split_last_whole.
Qed.

Lemma str_take_app a b : str_take (String.length a) (a ++ b) = a.
Proof. induction a as [| c a IH]; simpl; [now destruct b | now rewrite IH]. Qed.

Lemma all_dots_app a b : all_dots (a ++ b) = all_dots a && all_dots b.
Proof.
  induction a as [| c a IH]; simpl; [reflexivity | ].
  now rewrite IH, andb_assoc.
Qed.

Lemma startswith_other c s :
  (c =? "/")%char = false -> startswith (String c s) "/" = false.
Proof.
  intros H. unfold startswith. cbn [String.prefix].
  destruct (ascii_dec "/" c) as [<- | Hne]; [discriminate H | reflexivity].
Qed.

(** The root of a name that ends in [.jpg] *)
Lemma splitext_root_jpg stem :
  occurs "/" stem = false ->
  all_dots stem = false ->
  os_path_splitext_root (stem ++ ".jpg") = stem.
Proof.
  intros Hslash Hdots. unfold os_path_splitext_root, os_path_basename.
  rewrite (split_last_whole "/" (stem ++ ".jpg"))
    by (rewrite occurs_app, Hslash; reflexivity).
  change (stem ++ ".jpg")%string with (stem ++ String "." "jpg")%string.
  rewrite (split_last_after "." stem "jpg") by reflexivity.
  rewrite string_append_length. cbn [String.length].
  replace (String.length stem + 4 - 3 - 1)%nat with (String.length stem)
    by lia.
  rewrite str_take_app, Hdots.
  destruct (Nat.ltb_spec 3 (String.length stem + 4)) as [_ | H];
    [reflexivity | lia].
Qed.

(** X16: [add_file] reads the client and the shot off the name of an
    image.  For a name [client_shot.jpg] whose shot has four characters
    or more and no underscore, it adds the file whose id is the name
    without its extension and whose client is [client]; the path of this
    file, completed with a directory and [.jpg], is the image
    [client/client_shot.jpg] in this directory. *)
Theorem add_file_of_image_name :
  forall (client shot : string) (s : State),
    occurs "/" client = false ->
    occurs "/" shot = false ->
    occurs "_" shot = false ->
    (4 <= String.length shot)%nat ->
    let name := (client ++ "_" ++ shot)%string in
    exists f : File,
      add_file (name ++ ".jpg") s
      = (Ok tt, set_pending (pending s ++ [NewFile f]) s) /\
      File_id f = name /\
      File_client_id f = client /\
      File_shot_id f = ShotStr shot /\
      forall directory : string,
        make_path f (Some directory) (Some ".jpg")
        = os_path_join directory (os_path_join client (name ++ ".jpg")).
Proof.
  intros client shot s Hc Hs Hu Hlen name.
  assert (Hslash : occurs "/" name = false).
  { unfold name. rewrite occurs_app, Hc. simpl. exact Hs. }
  assert (Hdots : all_dots name = false).
  { unfold name. rewrite all_dots_app. simpl. apply andb_false_r. }
  assert (Hroot : os_path_splitext_root (os_path_basename (name ++ ".jpg"))
                  = name).
  { unfold os_path_basename.
    rewrite (split_last_whole "/" (name ++ ".jpg"))
      by (rewrite occurs_app, Hslash; reflexivity).
    now apply splitext_root_jpg. }
  assert (Hshot : split_last name "_" = shot).
  { unfold name. change ("_" ++ shot)%string with (String "_" shot).
    now apply split_last_after. }
  assert (Hclient : slice_to name (- len shot - 1) = client).
  { unfold slice_to, len.
    destruct (Z.ltb_spec (- Z.of_nat (String.length shot) - 1) 0) as [_ | H];
      [ | lia].
    unfold name at 1. rewrite string_append_length. simpl String.length.
    replace (Z.to_nat
               (Z.max 0
                  (Z.of_nat (String.length client + S (String.length shot))
                   + (- Z.of_nat (String.length shot) - 1))))
      with (String.length client) by lia.
    apply str_take_app. }
  assert (Hid : File_id (File_init client (ShotStr shot)) = name).
  { unfold File_init. cbn [File_id str]. unfold str_mul, len.
    replace (Z.to_nat (4 - Z.of_nat (String.length shot))) with 0%nat by lia.
    cbn [str_repeat]. rewrite string_app_nil_r.
    unfold name. now rewrite string_append_assoc. }
  exists (File_init client (ShotStr shot)).
  split; [ | split; [exact Hid | split; [reflexivity | split;
    [reflexivity | ]]]].
  - unfold add_file. rewrite Hroot, Hshot, Hclient. reflexivity.
  - intros directory. unfold make_path.
    assert (Hpath : (File_path (File_init client (ShotStr shot)) ++ ".jpg")%string
                    = os_path_join client (name ++ ".jpg")).
    { change (File_path (File_init client (ShotStr shot)))
        with (os_path_join client (File_id (File_init client (ShotStr shot)))).
      rewrite Hid. unfold os_path_join.
      assert (Hstart : forall e, startswith (name ++ e) "/" = false).
      { intros e. unfold name.
        destruct client as [| c client']; cbn [append];
          apply startswith_other; [reflexivity | ].
        simpl in Hc. apply orb_false_iff in Hc. tauto. }
      rewrite <- (string_app_nil_r name) at 1.
      rewrite !Hstart.
      destruct ((client =? "")%string || endswith client "/");
        now rewrite ?string_append_assoc. }
    destruct directory as [| d directory']; rewrite Hpath; reflexivity.
Qed.

Lemma add_file_of_image_name_witness :
  occurs "/" "Ann_Lee" = false /\
  occurs "_" "0002" = false /\
  (4 <= String.length "0002")%nat /\
  exists f : File,
    add_file "Ann_Lee_0002.jpg" ExampleImport.start1
    = (Ok tt,
       set_pending (pending ExampleImport.start1 ++ [NewFile f])
         ExampleImport.start1) /\
    File_id f = "Ann_Lee_0002" /\
    File_client_id f = "Ann_Lee" /\
    File_shot_id f = ShotStr "0002" /\
    forall directory : string,
      make_path f (Some directory) (Some ".jpg")
      = os_path_join directory (os_path_join "Ann_Lee" "Ann_Lee_0002.jpg").
Proof.
  assert (Hlen : (4 <= String.length "0002")%nat) by (simpl; lia).
  split; [reflexivity | split; [reflexivity | split; [exact Hlen | ]]].
  exact (add_file_of_image_name "Ann_Lee" "0002" ExampleImport.start1
           eq_refl eq_refl eq_refl Hlen).
Defined.

(** *** The models *)

Lemma models_returned self protocol groups subworld w l :
  fst (models self protocol groups subworld w) = Ok l ->
  exists gs queries,
    __check_validity__ groups m_valid_groups = Ok gs /\
    Forall (model_query (str_in "world" gs)) queries /\
    (forall g, gs = [g] -> (List.length queries <= 1)%nat) /\
    fst (collect iter_files queries w) = Ok l.
Proof.
  unfold models. intros H. repeat passed H.
  match goal with
  | Hc : __check_validity__ groups m_valid_groups = Ok ?g,
    Hp : __check_single__ protocol _ = Ok ?p,
    Hq : _ = Ok ?qs |- _ =>
      rename Hq into Hqs; rename p into prot; rename g into gs;
      rename qs into queries;
      exists gs, queries
  end.
  split; [reflexivity | ].
  assert (Hform : Forall (model_query (str_in "world" gs)) queries
                  /\ (forall g, gs = [g] -> (List.length queries <= 1)%nat));
    [ | tauto].
  clear H.
  assert (Hen : forall b cond, model_query b (enrol_files_query cond))
    by (intros b cond; left; eauto).
  assert (Hpa : forall cond, model_query true (pair_files_query cond))
    by (intros cond; right; eauto).
  destruct (prot =? "view1")%string.
  - injection Hqs as <-. split.
    + destruct (str_in "world" gs), (str_in "dev" gs); cbn [when app];
        repeat first [apply Forall_nil | apply Forall_cons]; auto.
    + intros g ->.
      destruct (one_group g) as [[H1 [H2 H3]] | [[H1 [H2 H3]]
                                | [[H1 [H2 H3]] | [H1 [H2 H3]]]]];
        rewrite H1, H2; cbn; lia.
  - apply rbind_Ok in Hqs. destruct Hqs as [qw [Hqw Hqs]].
    apply rbind_Ok in Hqs. destruct Hqs as [qd [Hqd Hqs]].
    injection Hqs as <-.
    assert (Hw : Forall (model_query (str_in "world" gs)) qw
                 /\ (List.length qw <= 1)%nat
                 /\ (str_in "world" gs = false -> qw = [])).
    { destruct (str_in "world" gs).
      - apply rbind_Ok in Hqw. destruct Hqw as [ts [_ Hqw]].
        injection Hqw as <-.
        split; [repeat first [apply Forall_nil | apply Forall_cons]; auto | ].
        split; [simpl; lia | discriminate].
      - injection Hqw as <-.
        split; [apply Forall_nil | split; [simpl; lia | reflexivity]]. }
    assert (Hd : Forall (model_query (str_in "world" gs)) qd
                 /\ (List.length qd <= 1)%nat
                 /\ (str_in "dev" gs = false -> qd = [])).
    { destruct (str_in "dev" gs).
      - apply rbind_Ok in Hqd. destruct Hqd as [ds [_ Hqd]].
        injection Hqd as <-.
        split; [repeat first [apply Forall_nil | apply Forall_cons]; auto | ].
        split; [simpl; lia | discriminate].
      - injection Hqd as <-.
        split; [apply Forall_nil | split; [simpl; lia | reflexivity]]. }
    destruct Hw as [Hw1 [Hw2 Hw3]]. destruct Hd as [Hd1 [Hd2 Hd3]].
    split.
    + apply Forall_app. split; [assumption | ].
      apply Forall_app. split; [assumption | ].
      destruct (str_in "eval" gs); cbn [when];
        repeat first [apply Forall_nil | apply Forall_cons]; auto.
    + intros g ->.
      destruct (one_group g) as [[H1 [H2 H3]] | [[H1 [H2 H3]]
                                | [[H1 [H2 H3]] | [H1 [H2 H3]]]]];
        rewrite ?H3; cbn [when];
        rewrite ?(Hw3 H1), ?(Hd3 H2), ?length_app; cbn [List.length]; lia.
Qed.

Lemma model_query_In b q t f :
  model_query b q -> In f (q t) ->
  In f (file_table t) /\
  exists p, In p (pair_table t) /\
            (File_id f = Pair_enrol_file_id p
             \/ b = true /\ File_id f = Pair_probe_file_id p).
Proof.
  intros [[cond ->] | [-> [cond ->]]] H.
  - apply enrol_files_query_In in H. destruct H as [Hf [p [Hp [_ Hid]]]].
    eauto.
  - apply pair_files_query_In in H. destruct H as [Hf [p [Hp [_ Hid]]]].
    split; [assumption | ]. exists p. split; [assumption | ]. tauto.
Qed.

Lemma collect_models_In b queries :
  forall w t l,
    sqlite_file w = Some t ->
    Forall (model_query b) queries ->
    fst (collect iter_files queries w) = Ok l ->
    forall f, In f l ->
      In f (file_table t) /\
      exists p, In p (pair_table t) /\
                (File_id f = Pair_enrol_file_id p
                 \/ b = true /\ File_id f = Pair_probe_file_id p).
Proof.
  induction queries as [| q qs IH]; intros w t l Hw Hq H f Hf.
  - simpl in H. injection H as <-. destruct Hf.
  - inversion Hq as [| ? ? Hq1 Hqs]; subst.
    cbn [collect] in H. unfold iter_files, run, bind, ret in H.
    rewrite Hw in H.
    pose proof (readonly_collect iter_files qs) as Hro.
    assert (Hro' : snd (collect iter_files qs w) = w).
    { apply Hro. intros q'. unfold iter_files. repeat readonly_step. }
    unfold iter_files, run, bind, ret in Hro'.
    destruct (collect _ qs w) as [[rest | e] w'] eqn:Erest;
      [ | discriminate H].
    simpl in Hro'. subst w'. simpl in H. injection H as <-.
    apply in_app_or in Hf. destruct Hf as [Hf | Hf].
    + apply unique_from_incl in Hf. eapply model_query_In; eassumption.
    + apply (IH w t rest Hw Hqs); [ | assumption].
      unfold iter_files, run, bind, ret. now rewrite Erest.
Qed.

(** X17: every model that [models] returns is a row of the file table
    that is a file of some pair; when the world group is not selected
    it is the enrol file of a pair; and with one group no model comes
    twice. *)
Theorem models_are_files_of_pairs :
  forall (self : Database) (w : World) (t : Tables)
         (protocol : option string) (groups : names)
         (subworld : option string) (l : list File),
    sqlite_file w = Some t ->
    fst (models self protocol groups subworld w) = Ok l ->
    (forall f, In f l ->
       In f (file_table t) /\
       exists p, In p (pair_table t) /\
                 (File_id f = Pair_enrol_file_id p
                  \/ File_id f = Pair_probe_file_id p)) /\
    (~ In "world" (selected m_valid_groups groups) ->
     forall f, In f l ->
       exists p, In p (pair_table t) /\ File_id f = Pair_enrol_file_id p) /\
    (forall g, named groups = [g] -> NoDup (map File_id l)).
Proof.
  intros self w t protocol groups subworld l Hw H.
  destruct (models_returned _ _ _ _ _ _ H) as [gs [queries [Hg [Hq [Hone Hl]]]]].
  pose proof (collect_models_In _ queries w t l Hw Hq Hl) as Hin.
  split; [ | split].
  - intros f Hf. destruct (Hin f Hf) as [Hft [p [Hp Hid]]].
    split; [assumption | ]. exists p. tauto.
  - intros Hnw f Hf. destruct (Hin f Hf) as [_ [p [Hp Hid]]].
    apply check_validity_returns in Hg. subst gs.
    apply str_in_false in Hnw. rewrite Hnw in Hid.
    exists p. split; [assumption | ].
    destruct Hid as [Hid | [Hid _]]; [assumption | discriminate].
  - intros g Hn.
    pose proof (check_validity_single_inv _ _ _ _ Hn Hg) as Hgs.
    specialize (Hone g Hgs).
    destruct queries as [| q [| q' qs]]; simpl in Hone; [ | | lia].
    + simpl in Hl. injection Hl as <-. constructor.
    + cbn [collect] in Hl. unfold iter_files, run, bind, ret in Hl.
      rewrite Hw in Hl. simpl in Hl. injection Hl as <-.
      rewrite app_nil_r. apply unique_from_NoDup, String.eqb_eq.
Qed.

Lemma models_are_files_of_pairs_witness :
  let l := [File_init "Ann_Lee" (ShotInt 2)] in
  sqlite_file Example.world = Some Example.tables /\
  fst (models Example.db (Some "fold1") (AStr "dev") (Some "sevenfolds")
         Example.world) = Ok l /\
  (~ In "world" (selected m_valid_groups (AStr "dev")) ->
   forall f, In f l ->
     exists p, In p (pair_table Example.tables)
               /\ File_id f = Pair_enrol_file_id p) /\
  (forall g, named (AStr "dev") = [g] -> NoDup (map File_id l)).
Proof.
  intros l.
  assert (Hw : sqlite_file Example.world = Some Example.tables)
    by reflexivity.
  assert (Hl : fst (models Example.db (Some "fold1") (AStr "dev")
                      (Some "sevenfolds") Example.world) = Ok l)
    by reflexivity.
  split; [exact Hw | split; [exact Hl | ]].
  exact (proj2 (models_are_files_of_pairs Example.db Example.world
                  Example.tables (Some "fold1") (AStr "dev")
                  (Some "sevenfolds") l Hw Hl)).
Defined.

(** *** The probe files and the pairs *)

Lemma objects_probes_checked self protocol groups purposes subworld
  world_type w :
  named purposes = ["probe"] ->
  In world_type m_valid_types ->
  ~ In "world" (selected m_valid_groups groups) ->
  objects self protocol ANone groups purposes subworld (Some world_type) w
  = bind (checked_conds self protocol groups subworld)
      (fun cs => collect_probes ANone (map probe_files_query cs)) w.
Proof.
  intros Hp Ht Hnw. unfold objects, checked_conds, assert_validity.
  rewrite (check_validity_single purposes "probe" m_valid_purposes Hp)
    by (simpl; tauto).
  rewrite (check_single_valid world_type m_valid_types Ht).
  destruct (negb (is_valid self)); [reflexivity | ].
  unfold bind, lift, ret. cbv beta iota.
  destruct (__check_single__ protocol m_valid_protocols) as [prot | e];
    [ | reflexivity].
  destruct (__check_validity__ groups m_valid_groups) as [gs | e] eqn:Eg;
    [ | reflexivity].
  destruct (check_subworld subworld) as [u | e]; [ | reflexivity].
  apply check_validity_returns in Eg. subst gs.
  apply str_in_false in Hnw. rewrite Hnw. unfold group_conds.
  cbn [str_in existsb String.eqb Ascii.eqb Bool.eqb orb when app].
  destruct (prot =? "view1")%string;
    [ | destruct (str_in "dev" (selected m_valid_groups groups));
        [destruct (__dev_for__ prot) as [ds | e] | ];
        cbn [rbind]; try reflexivity;
        destruct (str_in "eval" (selected m_valid_groups groups)) ];
    try destruct (str_in "dev" (selected m_valid_groups groups));
    cbn [app map collect_files when]; unfold ret; cbv beta iota;
    match goal with
    | |- context [collect_probes ?a ?q w] =>
        destruct (collect_probes a q w) as [[probes | e'] w']
    end; reflexivity.
Qed.

Lemma pairs_checked self protocol groups subworld w :
  ~ In "world" (selected m_valid_groups groups) ->
  pairs self protocol groups ANone subworld w
  = bind (checked_conds self protocol groups subworld)
      (fun cs => collect_pairs m_valid_classes (map pairs_query cs)) w.
Proof.
  intros Hnw. unfold pairs, checked_conds, assert_validity.
  change (__check_validity__ ANone m_valid_classes)
    with (@Ok (list string) m_valid_classes).
  destruct (negb (is_valid self)); [reflexivity | ].
  unfold bind, lift, ret. cbv beta iota.
  destruct (__check_single__ protocol m_valid_protocols) as [prot | e];
    [ | reflexivity].
  destruct (__check_validity__ groups m_valid_groups) as [gs | e] eqn:Eg;
    [ | reflexivity].
  destruct (check_subworld subworld) as [u | e]; [ | reflexivity].
  apply check_validity_returns in Eg. subst gs.
  apply str_in_false in Hnw. rewrite Hnw. unfold group_conds.
  cbn [when app].
  destruct (prot =? "view1")%string;
    [ | destruct (str_in "dev" (selected m_valid_groups groups));
        [destruct (__dev_for__ prot) as [ds | e] | ];
        cbn [rbind]; try reflexivity;
        destruct (str_in "eval" (selected m_valid_groups groups)) ];
    try destruct (str_in "dev" (selected m_valid_groups groups));
    reflexivity.
Qed.

Lemma readonly_checked_conds self protocol groups subworld :
  readonly (checked_conds self protocol groups subworld).
Proof.
  unfold checked_conds, assert_validity. repeat readonly_step.
Qed.

Lemma NoDup_key_eq {E K} (key : E -> K) l x y :
  NoDup (map key l) -> In x l -> In y l -> key x = key y -> x = y.
Proof.
  induction l as [| z l IH]; intros Hnd Hx Hy Hk; [destruct Hx | ].
  simpl in Hnd. inversion Hnd as [| ? ? Hz Hl]; subst.
  destruct Hx as [-> | Hx], Hy as [-> | Hy]; auto.
  - elim Hz. rewrite Hk. now apply in_map.
  - elim Hz. rewrite <- Hk. now apply in_map.
Qed.

(** The probe files of one query and the pairs of the same condition *)
Lemma probes_of_pairs_query t cond id :
  NoDup (map Pair_id (pair_table t)) ->
  In id (map File_id
           (unique_list String.eqb File_id
              (map (fun r => fst (fst r)) (probe_files_query cond t))))
  <->
  In id (map Pair_probe_file_id
           (unique_list Z.eqb Pair_id
              (map (fun r => fst (fst r)) (pairs_query cond t)))).
Proof.
  intros Hnd. unfold unique_list. split; intros H.
  - apply in_map_iff in H. destruct H as [f [<- Hf]].
    apply unique_from_incl in Hf. apply in_map_iff in Hf.
    destruct Hf as [[[f' p] fa] [Heq Hr]]. simpl in Heq. subst f'.
    apply probe_files_query_In in Hr.
    destruct Hr as [Hp [Hc [Hf [Hpr [Hfa Hen]]]]].
    apply String.eqb_eq in Hpr, Hen.
    assert (Hrow : In p (map (fun r => fst (fst r)) (pairs_query cond t))).
    { apply in_map_iff. exists ((p, fa), f). split; [reflexivity | ].
      unfold pairs_query, qfilter, default_query. apply filter_In.
      split; [ | exact Hc]. apply join_In. split; [ | now split].
      apply join_In. now split. }
    destruct (unique_from_complete Pair Z Z.eqb Pair_id Z.eqb_eq [] _ p Hrow)
      as [p' [Hp' Hk]]; [intros [] | ].
    assert (p' = p).
    { apply (NoDup_key_eq Pair_id (pair_table t)); try assumption.
      apply unique_from_incl in Hp'. apply in_map_iff in Hp'.
      destruct Hp' as [r [<- Hr']]. now apply pairs_query_In in Hr'. }
    subst p'. apply in_map_iff. exists p. split; [ | assumption].
    apply String.eqb_eq in Hpr. now symmetry.
  - apply in_map_iff in H. destruct H as [p [<- Hp]].
    apply unique_from_incl in Hp. apply in_map_iff in Hp.
    destruct Hp as [[[p' f1] f2] [Heq Hr]]. simpl in Heq. subst p'.
    unfold pairs_query, qfilter, default_query in Hr.
    apply filter_In in Hr. destruct Hr as [Hr Hc]. apply join_In in Hr.
    destruct Hr as [Hpf [Hf2 Hpr]]. apply join_In in Hpf.
    destruct Hpf as [Hp [Hf1 Hen]]. simpl in *.
    assert (Hrow : In f2 (map (fun r => fst (fst r))
                            (probe_files_query cond t))).
    { apply in_map_iff. exists ((f2, p), f1). split; [reflexivity | ].
      apply probe_files_query_In. apply String.eqb_eq in Hen, Hpr.
      tauto. }
    destruct (unique_from_complete File string String.eqb File_id
                String.eqb_eq [] _ f2 Hrow) as [f' [Hf' Hk]]; [intros [] | ].
    apply in_map_iff. exists f'. split; [ | assumption].
    rewrite Hk. now apply String.eqb_eq.
Qed.

Lemma probes_and_pairs_collected w t cs :
  sqlite_file w = Some t ->
  NoDup (map Pair_id (pair_table t)) ->
  exists probes found,
    collect_probes ANone (map probe_files_query cs) w = (Ok probes, w) /\
    collect_pairs m_valid_classes (map pairs_query cs) w = (Ok found, w) /\
    forall id, In id (map File_id probes)
               <-> In id (map Pair_probe_file_id found).
Proof.
  intros Hw Hnd. induction cs as [| c cs IH].
  - exists [], []. repeat split; auto.
  - destruct IH as [probes [found [Hp [Hf Hids]]]].
    cbn [map collect_probes collect_pairs wanted_ids].
    unfold iter_files, iter_pairs, run, bind, ret in *.
    rewrite Hw, Hp, Hf.
    cbn [str_in existsb String.eqb Ascii.eqb Bool.eqb orb negb].
    eexists. eexists. split; [reflexivity | ]. split; [reflexivity | ].
    intros id. rewrite !map_app, !in_app_iff, Hids.
    now rewrite (probes_of_pairs_query t c id Hnd).
Qed.

(** X18: asked for the probe files of development or evaluation groups,
    without model ids, [objects] fails exactly when [pairs] fails for
    the same protocol, groups and subworld, and otherwise returns the
    probe files of the pairs that [pairs] returns: the same file ids. *)
Theorem probes_are_probe_files_of_pairs :
  forall (self : Database) (w : World) (t : Tables)
         (protocol : option string) (groups purposes : names)
         (subworld : option string) (world_type : string),
    sqlite_file w = Some t ->
    NoDup (map Pair_id (pair_table t)) ->
    named purposes = ["probe"] ->
    In world_type m_valid_types ->
    ~ In "world" (selected m_valid_groups groups) ->
    match
      fst (objects self protocol ANone groups purposes subworld
             (Some world_type) w),
      fst (pairs self protocol groups ANone subworld w)
    with
    | Ok probes, Ok found =>
        forall id, In id (map File_id probes)
                   <-> In id (map Pair_probe_file_id found)
    | Raise e1, Raise e2 => e1 = e2
    | _, _ => False
    end.
Proof.
  intros self w t protocol groups purposes subworld world_type
    Hw Hnd Hp Ht Hnw.
  rewrite (objects_probes_checked _ _ _ _ _ _ _ Hp Ht Hnw).
  rewrite (pairs_checked _ _ _ _ _ Hnw).
  unfold bind.
  pose proof (readonly_checked_conds self protocol groups subworld w) as Hro.
  destruct (checked_conds self protocol groups subworld w)
    as [[cs | e] w1]; simpl in Hro; subst w1; [ | reflexivity].
  destruct (probes_and_pairs_collected w t cs Hw Hnd)
    as [probes [found [Ho [Hf Hids]]]].
  rewrite Ho, Hf. exact Hids.
Qed.

Lemma probes_are_probe_files_of_pairs_witness :
  sqlite_file Example.world = Some Example.tables /\
  NoDup (map Pair_id (pair_table Example.tables)) /\
  fst (objects Example.db (Some "fold1") ANone (AStr "dev") (AStr "probe")
         (Some "sevenfolds") (Some "restricted") Example.world)
  = Ok [File_init "Bo_Diaz" (ShotInt 1); File_init "Ann_Lee" (ShotInt 1)] /\
  fst (pairs Example.db (Some "fold1") (AStr "dev") ANone (Some "sevenfolds")
         Example.world)
  = Ok [mkPair 3 "fold9" "Ann_Lee_0002" "Bo_Diaz_0001" false;
        mkPair 4 "fold10" "Ann_Lee_0002" "Ann_Lee_0001" true] /\
  match
    fst (objects Example.db (Some "fold1") ANone (AStr "dev") (AStr "probe")
           (Some "sevenfolds") (Some "restricted") Example.world),
    fst (pairs Example.db (Some "fold1") (AStr "dev") ANone
           (Some "sevenfolds") Example.world)
  with
  | Ok probes, Ok found =>
      forall id, In id (map File_id probes)
                 <-> In id (map Pair_probe_file_id found)
  | Raise e1, Raise e2 => e1 = e2
  | _, _ => False
  end.
Proof.
  assert (Hnd : NoDup (map Pair_id (pair_table Example.tables))).
  { simpl. repeat constructor; simpl; intuition discriminate. }
  split; [reflexivity | split; [exact Hnd | ]].
  split; [reflexivity | split; [reflexivity | ]].
  apply (probes_are_probe_files_of_pairs Example.db Example.world
           Example.tables (Some "fold1") (AStr "dev") (AStr "probe")
           (Some "sevenfolds") "restricted" eq_refl Hnd eq_refl).
  - simpl. tauto.
  - simpl. intuition discriminate.
Defined.

(** *** A list of people that does not start with a count *)

Section PeopleFile.
Variable filename : string -> Z -> string.
Variable File_name : File -> string.

Lemma parse_view2_lines_person_first verbose ls :
  forall fold_id s,
    person_first ls = true ->
    parse_view2_lines filename File_name verbose ls fold_id None s
    = (Raise UnboundLocalError, s).
Proof.
  induction ls as [| line rest IH]; intros fold_id s H; [discriminate | ].
  simpl in H. cbn [parse_view2_lines].
  destruct (List.length (split line)) as [| [| [| n]]]; simpl;
    try discriminate; try reflexivity; now apply IH.
Qed.

(** X19: when the first line of [people.txt] that has one or two fields
    names a person (two fields), no count line came before it and the
    protocol is not bound: [parse_view2] raises UnboundLocalError.  The
    file has been opened by then, and nothing was added to the
    session. *)
Theorem people_before_count_raises :
  forall (verbose : option Z) (path text : string) (s : State),
    fs s path = Some (Reg text) ->
    person_first (lines text) = true ->
    parse_view2 filename File_name verbose path s
    = (Raise UnboundLocalError, set_reads (reads s ++ [Opened path]) s).
Proof.
  intros verbose path text s Hfs H. unfold parse_view2, bind, open_read.
  rewrite Hfs. now apply parse_view2_lines_person_first.
Qed.

End PeopleFile.

Lemma people_before_count_raises_witness :
  let text := "Ann_Lee 2
1
Bo_Diaz 1
" in
  let s :=
    set_fs (fun p => if (p =? "/lfw/view2/people.txt")%string
                     then Some (Reg text) else None)
      ExampleImport.start1 in
  fs s "/lfw/view2/people.txt" = Some (Reg text) /\
  person_first (lines text) = true /\
  parse_view2 ExampleImport.filename ExampleImport.File_name (Some 1)
    "/lfw/view2/people.txt" s
  = (Raise UnboundLocalError,
     set_reads (reads s ++ [Opened "/lfw/view2/people.txt"]) s).
Proof.
  intros text s.
  assert (Hfs : fs s "/lfw/view2/people.txt" = Some (Reg text))
    by reflexivity.
  assert (Hp : person_first (lines text) = true) by reflexivity.
  split; [exact Hfs | split; [exact Hp | ]].
  exact (people_before_count_raises ExampleImport.filename
           ExampleImport.File_name (Some 1) "/lfw/view2/people.txt" text s
           Hfs Hp).
Defined.

(** *** [checkfiles] *)

Lemma collect_files_returns ids qs w t :
  sqlite_file w = Some t -> exists l, collect_files ids qs w = (Ok l, w).
Proof.
  intros Hw. induction qs as [| q qs [rest IH]]; [exists []; reflexivity | ].
  cbn [collect_files]. unfold iter_files, run, bind, ret.
  rewrite Hw, IH. eauto.
Qed.

Lemma collect_probes_returns ids qs w t :
  sqlite_file w = Some t -> exists l, collect_probes ids qs w = (Ok l, w).
Proof.
  intros Hw. induction qs as [| q qs [rest IH]]; [exists []; reflexivity | ].
  cbn [collect_probes]. unfold iter_files, run, bind, ret.
  rewrite Hw, IH. eauto.
Qed.

Lemma valid_protocol_cases prot :
  In prot m_valid_protocols ->
  prot = "view1" \/ exists k, 1 <= k <= 10 /\ prot = fold_name k.
Proof.
  simpl. intros H.
  destruct H as [<- | H]; [now left | right].
  destruct H as [<- | H]; [exists 1; split; [lia | reflexivity] | ].
  destruct H as [<- | H]; [exists 2; split; [lia | reflexivity] | ].
  destruct H as [<- | H]; [exists 3; split; [lia | reflexivity] | ].
  destruct H as [<- | H]; [exists 4; split; [lia | reflexivity] | ].
  destruct H as [<- | H]; [exists 5; split; [lia | reflexivity] | ].
  destruct H as [<- | H]; [exists 6; split; [lia | reflexivity] | ].
  destruct H as [<- | H]; [exists 7; split; [lia | reflexivity] | ].
  destruct H as [<- | H]; [exists 8; split; [lia | reflexivity] | ].
  destruct H as [<- | H]; [exists 9; split; [lia | reflexivity] | ].
  destruct H as [<- | H]; [exists 10; split; [lia | reflexivity] | ].
  destruct H.
Qed.

(** With its defaults, [objects] returns for every protocol of a valid
    database. *)
Lemma objects_of_returns self w t prot :
  valid_database self w t ->
  In prot m_valid_protocols ->
  exists l, Checkfiles.objects_of self prot w = (Ok l, w).
Proof.
  intros [Hvalid Hw] Hp. unfold Checkfiles.objects_of, objects.
  assert (Hg : ~ outside m_valid_groups ANone) by (intros [k [[] _]]).
  assert (Hpu : ~ outside m_valid_purposes ANone) by (intros [k [[] _]]).
  assert (Ht : In "restricted" m_valid_types) by (simpl; tauto).
  assert (Hs : ~ bad_subworld (Some "sevenfolds"))
    by (simpl; intros H; apply H; vm_compute; tauto).
  pass_validity Hvalid.
  assert (Hend : forall qs pqs,
             exists l,
               (found <- collect_files ANone qs ;;
                probes <- collect_probes ANone pqs ;;
                ret (found ++ probes)%list) w = (Ok l, w)).
  { intros qs pqs. unfold bind, ret.
    destruct (collect_files_returns ANone qs w t Hw) as [found ->].
    destruct (collect_probes_returns ANone pqs w t Hw) as [probes ->].
    eauto. }
  destruct (valid_protocol_cases prot Hp) as [-> | [k [Hk ->]]].
  - cbn [String.eqb Ascii.eqb Bool.eqb]. rewrite bind_lift_ok. apply Hend.
  - rewrite fold_name_not_view1.
    change (selected m_valid_groups ANone) with m_valid_groups.
    change (selected m_valid_purposes ANone) with m_valid_purposes.
    cbn [str_in existsb String.eqb Ascii.eqb Bool.eqb orb m_valid_groups
           m_valid_purposes].
    rewrite (world_for_fold k "sevenfolds" 7 Hk) by (simpl; tauto).
    rewrite (dev_for_fold k Hk). cbn [rbind]. rewrite bind_lift_ok.
    apply Hend.
Qed.

Lemma setitem_In k v d k' v' :
  In (k', v') (Checkfiles.setitem k v d) -> (k', v') = (k, v) \/ In (k', v') d.
Proof.
  induction d as [| [k0 v0] d IH]; simpl.
  - intros [H | []]. now left.
  - destruct (k0 =? k)%string; simpl; intuition.
Qed.

Lemma setitem_keys k v d k' :
  In k' (map fst (Checkfiles.setitem k v d)) <-> k' = k \/ In k' (map fst d).
Proof.
  induction d as [| [k0 v0] d IH]; simpl.
  - intuition.
  - destruct (String.eqb_spec k0 k) as [-> | Hne]; simpl;
      [intuition | rewrite IH; intuition].
Qed.

Lemma setitem_NoDup k v d :
  NoDup (map fst d) -> NoDup (map fst (Checkfiles.setitem k v d)).
Proof.
  induction d as [| [k0 v0] d IH]; simpl; intros H.
  - repeat constructor. intros [].
  - inversion H as [| ? ? Hk Hd]; subst.
    destruct (String.eqb_spec k0 k) as [-> | Hne]; simpl.
    + now constructor.
    + constructor; [ | now apply IH].
      rewrite setitem_keys. intuition.
Qed.

Lemma query_op_readonly {A} (m : M World A) e :
  readonly m ->
  Checkfiles.query_op m e = (fst (m (Checkfiles.world e)), e).
Proof.
  intros H. unfold Checkfiles.query_op. specialize (H (Checkfiles.world e)).
  destruct (m (Checkfiles.world e)) as [r w]. simpl in *. subst w.
  now destruct e.
Qed.

(** The loop over the objects of a protocol keeps the dictionary of
    the files not found up to date. *)
Lemma sort_files_reported args e r :
  forall seen good bad,
    reported e args seen bad ->
    exists good' bad',
      Checkfiles.sort_files args r good bad e = (Ok (good', bad'), e) /\
      reported e args (seen ++ r) bad'.
Proof.
  induction r as [| f r IH]; intros seen good bad Hrep.
  - exists good, bad. rewrite app_nil_r. now split.
  - cbn [Checkfiles.sort_files]. unfold Checkfiles.os_path_exists.
    rewrite bind_gets. cbv beta.
    replace (seen ++ f :: r)%list with ((seen ++ [f]) ++ r)%list
      by (now rewrite <- app_assoc).
    destruct Hrep as [Hnd [Hin Hall]].
    destruct (Checkfiles.path_exists e (Checkfiles.path_of args f)) eqn:Ef.
    + apply IH. split; [assumption | split].
      * intros k f' Hk. destruct (Hin k f' Hk) as [H1 [H2 H3]].
        repeat split; auto. apply in_or_app. now left.
      * intros f' Hf' Hmiss. apply in_app_or in Hf'.
        destruct Hf' as [Hf' | [<- | []]]; [now apply Hall | congruence].
    + apply IH. split; [now apply setitem_NoDup | split].
      * intros k f' Hk. apply setitem_In in Hk.
        destruct Hk as [Hk | Hk].
        -- injection Hk as -> ->. repeat split; auto.
           apply in_or_app. right. now left.
        -- destruct (Hin k f' Hk) as [H1 [H2 H3]].
           repeat split; auto. apply in_or_app. now left.
      * intros f' Hf' Hmiss. apply setitem_keys. apply in_app_or in Hf'.
        destruct Hf' as [Hf' | [<- | []]]; [right; now apply Hall | now left].
Qed.

(** The loop over the protocols, on a valid database *)
Lemma each_protocol_reported args db e t protocols :
  valid_database db (Checkfiles.world e) t ->
  incl protocols m_valid_protocols ->
  forall seen good bad r,
    reported e args seen bad ->
    exists good' bad',
      Checkfiles.each_protocol args db protocols good bad r e
      = (Ok (good', bad',
             match rev protocols with
             | [] => r
             | last :: _ =>
                 Some (all_objects db (Checkfiles.world e) [last])
             end), e) /\
      reported e args (seen ++ all_objects db (Checkfiles.world e) protocols)
        bad'.
Proof.
  intros Hvalid. induction protocols as [| prot rest IH];
    intros Hincl seen good bad r Hrep.
  - exists good, bad. simpl. rewrite app_nil_r. now split.
  - cbn [Checkfiles.each_protocol].
    assert (Hp : In prot m_valid_protocols) by (apply Hincl; now left).
    destruct (objects_of_returns db _ t prot Hvalid Hp) as [l Hl].
    assert (Hro : readonly (Checkfiles.objects_of db prot))
      by apply readonly_objects.
    rewrite (bind_ok _ _ _ _ _
               (eq_trans (query_op_readonly _ e Hro)
                  (f_equal (fun x => (fst x, e)) Hl))).
    cbn [fst].
    destruct (sort_files_reported args e l seen good bad Hrep)
      as [good1 [bad1 [Hsort Hrep1]]].
    rewrite (bind_ok _ _ _ _ _ Hsort). cbn [fst snd].
    destruct (IH (fun x Hx => Hincl x (or_intror Hx))
                (seen ++ l)%list good1 bad1 (Some l) Hrep1)
      as [good' [bad' [Hrun Hrep']]].
    exists good', bad'. rewrite Hrun. split.
    + f_equal. f_equal. f_equal. cbn [rev].
      destruct (rev rest) as [| last rest'] eqn:Erev; cbn [app].
      * unfold all_objects. cbn [flat_map]. rewrite Hl. cbn [fst].
        now rewrite app_nil_r.
      * reflexivity.
    + unfold all_objects in *. cbn [flat_map]. rewrite Hl. cbn [fst].
      now rewrite app_assoc.
Qed.

Lemma for_each_write args (lines_ : list string) e :
  for_each lines_ (Checkfiles.write args) e
  = (Ok tt,
     Checkfiles.mkEnv (Checkfiles.world e) (Checkfiles.path_exists e)
       (Checkfiles.stdout e
        ++ if Checkfiles.selftest args then [] else lines_)).
Proof.
  revert e. induction lines_ as [| line rest IH]; intros e.
  - simpl. destruct e. simpl.
    destruct (Checkfiles.selftest args); now rewrite app_nil_r.
  - cbn [for_each]. unfold bind. unfold Checkfiles.write at 1.
    destruct (Checkfiles.selftest args) eqn:Es.
    + unfold ret. now rewrite IH.
    + unfold modify. rewrite IH. simpl. now rewrite <- app_assoc.
Qed.

Lemma for_each_map {S A B} (f : A -> B) (body : B -> M S unit) (l : list A) :
  for_each l (fun x => body (f x)) = for_each (map f l) body.
Proof. induction l as [| x l IH]; simpl; [reflexivity | now rewrite IH]. Qed.

Section Report.
Variable items : Checkfiles.dict -> list (string * File).
Hypothesis items_any_order : forall d, Permutation (items d) d.

Lemma report_written args bad r e :
  Checkfiles.report items args bad (Some r) e
  = (Ok tt,
     Checkfiles.mkEnv (Checkfiles.world e) (Checkfiles.path_exists e)
       (Checkfiles.stdout e
        ++ if Checkfiles.selftest args then []
           else report_lines args (items bad) r)).
Proof.
  unfold Checkfiles.report, report_lines.
  pose proof (items_any_order bad) as Hperm.
  destruct bad as [| kv bad].
  - apply Permutation_sym, Permutation_nil in Hperm. rewrite Hperm.
    destruct e. simpl. destruct (Checkfiles.selftest args);
      now rewrite app_nil_r.
  - destruct (items (kv :: bad)) as [| kv' rest] eqn:Ei.
    + apply Permutation_nil in Hperm. discriminate.
    + rewrite <- Ei in *.
      rewrite (for_each_map (fun kv0 => Checkfiles.missing_line args (snd kv0))
                 (Checkfiles.write args)).
      unfold bind. rewrite for_each_write.
      rewrite (Permutation_length Hperm).
      unfold Checkfiles.write. destruct (Checkfiles.selftest args).
      * unfold ret. simpl. now rewrite app_nil_r.
      * unfold modify. simpl. rewrite !Ei. simpl.
        now rewrite <- app_assoc.
Qed.

(** X20: on a database that is there, [checkfiles] never fails and
    returns 0.  It writes one line for every id of a file not found,
    in the order of the dictionary, and a summary; the files not found
    are the objects of the eleven protocols whose path does not exist,
    each id once; the total of the summary counts the objects of the
    last protocol, [fold10], only.  With [--self-test] nothing is
    written. *)
Theorem checkfiles_reports_missing_files :
  forall (args : Checkfiles.Args) (e : Checkfiles.Env) (t : Tables)
         (db : Database),
    sqlite_file (Checkfiles.world e) = Some t ->
    fst (__init__ (Checkfiles.world e)) = Ok db ->
    let objs := all_objects db (Checkfiles.world e) m_valid_protocols in
    exists (bad : Checkfiles.dict) (r : list File),
      Checkfiles.checkfiles items args e
      = (Ok 0,
         Checkfiles.mkEnv (Checkfiles.world e) (Checkfiles.path_exists e)
           (Checkfiles.stdout e
            ++ if Checkfiles.selftest args then []
               else report_lines args (items bad) r)) /\
      fst (Checkfiles.objects_of db "fold10" (Checkfiles.world e)) = Ok r /\
      NoDup (map fst bad) /\
      (forall k f, In (k, f) bad ->
         k = File_id f /\ In f objs
         /\ Checkfiles.path_exists e (Checkfiles.path_of args f) = false) /\
      (forall f, In f objs ->
         Checkfiles.path_exists e (Checkfiles.path_of args f) = false ->
         In (File_id f) (map fst bad)).
Proof.
  intros args e t db Hw Hinit objs.
  assert (Hdb : db = {| m_session := Some ReadonlySession |}).
  { unfold __init__, connect, bind, gets, ret in Hinit. rewrite Hw in Hinit.
    simpl in Hinit. now injection Hinit as <-. }
  assert (Hvalid : valid_database db (Checkfiles.world e) t)
    by (split; [now rewrite Hdb | assumption]).
  assert (Hinit' : Checkfiles.query_op __init__ e = (Ok db, e)).
  { unfold Checkfiles.query_op, __init__, connect, bind, gets, ret.
    rewrite Hw, Hdb. simpl. now destruct e. }
  assert (Hrep0 : reported e args [] []).
  { split; [constructor | split]; [intros k f [] | intros f []]. }
  destruct (each_protocol_reported args db e t m_valid_protocols Hvalid
              (incl_refl _) [] [] [] None Hrep0)
    as [good [bad [Hrun Hrep]]].
  cbn [app] in Hrep. fold objs in Hrep.
  destruct (objects_of_returns db _ t "fold10" Hvalid) as [r Hr];
    [simpl; tauto | ].
  exists bad, r.
  split; [ | split; [now rewrite Hr | exact Hrep]].
  unfold Checkfiles.checkfiles.
  rewrite (bind_ok _ _ _ _ _ Hinit'), (bind_ok _ _ _ _ _ Hrun).
  cbn [rev m_valid_protocols app].
  unfold all_objects. cbn [flat_map]. rewrite Hr. cbn [fst].
  rewrite app_nil_r.
  rewrite (bind_ok _ _ _ _ _ (report_written args bad r e)).
  reflexivity.
Qed.

End Report.

Lemma checkfiles_reports_missing_files_witness :
  let items := fun d : Checkfiles.dict => d in
  let args := Checkfiles.mkArgs "/lfw" ".jpg" false in
  let e :=
    Checkfiles.mkEnv Example.world
      (fun p => (p =? "/lfw/Ann_Lee/Ann_Lee_0001.jpg")%string) [] in
  (forall d, Permutation (items d) d) /\
  sqlite_file (Checkfiles.world e) = Some Example.tables /\
  fst (__init__ (Checkfiles.world e)) = Ok Example.db /\
  Checkfiles.checkfiles items args e
  = (Ok 0,
     Checkfiles.mkEnv Example.world (Checkfiles.path_exists e)
       [Checkfiles.missing_line args (File_init "Bo_Diaz" (ShotInt 1));
        Checkfiles.missing_line args (File_init "Ann_Lee" (ShotInt 2));
        Checkfiles.summary_line args 2 7]) /\
  exists (bad : Checkfiles.dict) (r : list File),
    Checkfiles.checkfiles items args e
    = (Ok 0,
       Checkfiles.mkEnv (Checkfiles.world e) (Checkfiles.path_exists e)
         (Checkfiles.stdout e
          ++ if Checkfiles.selftest args then []
             else report_lines args (items bad) r)) /\
    fst (Checkfiles.objects_of Example.db "fold10" (Checkfiles.world e))
    = Ok r /\
    NoDup (map fst bad).
Proof.
  intros items args e.
  assert (Hperm : forall d, Permutation (items d) d)
    by (intros d; apply Permutation_refl).
  assert (Hw : sqlite_file (Checkfiles.world e) = Some Example.tables)
    by reflexivity.
  assert (Hinit : fst (__init__ (Checkfiles.world e)) = Ok Example.db)
    by reflexivity.
  split; [exact Hperm | split; [exact Hw | split; [exact Hinit | ]]].
  split; [vm_compute; reflexivity | ].
  pose proof (checkfiles_reports_missing_files items Hperm args e
                Example.tables Example.db Hw Hinit)
    as [bad [r [Hrun [Hr [Hnd _]]]]].
  exists bad, r. split; [exact Hrun | split; [exact Hr | exact Hnd]].
Defined.

(** X21: without the database file, [checkfiles] raises the
    RuntimeError of the first call of [objects]: nothing is checked and
    nothing is written. *)
Theorem checkfiles_without_database :
  forall (items : Checkfiles.dict -> list (string * File))
         (args : Checkfiles.Args) (e : Checkfiles.Env),
    sqlite_file (Checkfiles.world e) = None ->
    Checkfiles.checkfiles items args e = (Raise RuntimeError, e).
Proof.
  intros items args [[sf] exists_ out] Hw. simpl in Hw. subst sf.
  reflexivity.
Qed.

Lemma checkfiles_without_database_witness :
  let e := Checkfiles.mkEnv Example.no_file (fun _ => true) [] in
  sqlite_file (Checkfiles.world e) = None /\
  Checkfiles.checkfiles (fun d => d) (Checkfiles.mkArgs "" "" false) e
  = (Raise RuntimeError, e).
Proof.
  intros e. split; [reflexivity | ].
  exact (checkfiles_without_database (fun d => d)
           (Checkfiles.mkArgs "" "" false) e eq_refl).
Defined.

(** *** [--recreate] *)

Section Recreate.
Variable filename : string -> Z -> string.
Variable File_name : File -> string.

(** X22: with [--recreate], and a database file named on the command
    line, a run of [create] does not depend on the database that was
    there: it goes exactly as the run from the same state without a
    database file, to the same result, the same final database and the
    same reads. *)
Theorem recreate_forgets_the_old_database :
  forall (args : Args) (s : State) (dbfile : string),
    files_0 args = Ok dbfile ->
    recreate args = true ->
    create filename File_name args s
    = create filename File_name args (set_database None s).
Proof.
  intros args s dbfile Hf Hre. unfold create.
  rewrite Hf, !bind_lift_ok.
  rewrite (bind_ok _ _ _ _ _ (recreate_block_any args s)).
  rewrite (bind_ok _ _ _ _ _ (recreate_block_any args (set_database None s))).
  rewrite Hre. now destruct s.
Qed.

End Recreate.

Lemma recreate_forgets_the_old_database_witness :
  let args :=
    {| files := ["/db/db.sql3"]; recreate := true; verbose := Some 1;
       basedir := "/lfw"; annotation_types := ["funneled"];
       idiap_annotation_dir := None;
       funneled_annotation_dir := Some "/ann" |} in
  let old :=
    snd (create ExampleImport.filename ExampleImport.File_name
           ExampleImport.args ExampleImport.start1) in
  files_0 args = Ok "/db/db.sql3" /\
  recreate args = true /\
  database old <> None /\
  create ExampleImport.filename ExampleImport.File_name args old
  = create ExampleImport.filename ExampleImport.File_name args
      (set_database None old).
Proof.
  intros args old.
  assert (Hf : files_0 args = Ok "/db/db.sql3") by reflexivity.
  assert (Hre : recreate args = true) by reflexivity.
  assert (Hold : database old <> None) by (vm_compute; discriminate).
  split; [exact Hf | split; [exact Hre | split; [exact Hold | ]]].
  exact (recreate_forgets_the_old_database ExampleImport.filename
           ExampleImport.File_name args old "/db/db.sql3" Hf Hre).
Defined.

(** *** What [add_files] adds *)

Lemma nodot_returns x keep :
  nodot x = Ok keep -> keep = negb (hidden x).
Proof.
  destruct x as [| c x]; simpl; [discriminate | ]. now intros [= <-].
Qed.

(** The loop of [add_files] over the entries of a client directory *)
Lemma add_images_loop (g : result bool) l :
  forall s s',
    for_each_nodot l
      (fun filename_ =>
         if endswith filename_ ".jpg"
         then lift g ;; add_file filename_
         else ret tt) s = (Ok tt, s') ->
    pending s'
    = (pending s
       ++ map (fun n => NewFile (image_file n))
            (filter (fun x => negb (hidden x) && endswith x ".jpg") l))%list
    /\ fs s' = fs s /\ reads s' = reads s /\ tables s' = tables s
    /\ database s' = database s.
Proof.
  unfold for_each_nodot.
  induction l as [| x l IH]; intros s s' H.
  - injection H as <-. rewrite app_nil_r. auto.
  - cbn [for_each] in H. unfold bind at 1 2 in H. unfold lift at 1 in H.
    destruct (nodot x) as [keep | e] eqn:Ex; [ | discriminate].
    apply nodot_returns in Ex. subst keep. cbn [filter].
    destruct (hidden x); cbn [negb andb] in *.
    + unfold ret at 1 in H. now apply IH.
    + destruct (endswith x ".jpg").
      * unfold bind at 1, lift at 1 in H.
        destruct g as [b | e]; [ | discriminate].
        unfold add_file, session_add, modify in H.
        apply IH in H. cbn [pending fs reads tables database set_pending] in H.
        destruct H as [Hp Hrest]. split; [ | exact Hrest].
        rewrite Hp. cbn [map]. now rewrite <- app_assoc.
      * unfold ret at 1 in H. now apply IH.
Qed.

(** The loop of [add_files] over the entries of the image directory *)
Lemma add_clients_loop basedir (g : result bool) l :
  forall s s',
    for_each_nodot l
      (fun client_dir =>
         client_name <- add_files_add_client client_dir ;;
         lift g ;;
         entries <- listdir
                      (os_path_join (os_path_join basedir "all_images")
                         client_dir) ;;
         for_each_nodot (sorted entries)
           (fun filename_ =>
              if endswith filename_ ".jpg"
              then lift g ;; add_file filename_
              else ret tt)) s = (Ok tt, s') ->
    pending s'
    = (pending s
       ++ flat_map
            (fun d =>
               NewClient (mkClient d)
               :: match fs s (os_path_join (os_path_join basedir "all_images")
                                d) with
                  | Some (Dir es) =>
                      map (fun n => NewFile (image_file n)) (images_of es)
                  | _ => []
                  end)
            (filter (fun x => negb (hidden x)) l))%list
    /\ fs s' = fs s /\ tables s' = tables s /\ database s' = database s.
Proof.
  unfold for_each_nodot at 1.
  induction l as [| x l IH]; intros s s' H.
  - injection H as <-. rewrite app_nil_r. auto.
  - cbn [for_each] in H. unfold bind at 1 2 in H. unfold lift at 1 in H.
    destruct (nodot x) as [keep | e] eqn:Ex; [ | discriminate].
    apply nodot_returns in Ex. subst keep. cbn [filter].
    destruct (hidden x); cbn [negb] in *.
    + unfold ret at 1 in H. now apply IH.
    + unfold add_files_add_client, session_add, modify in H.
      unfold bind at 1 2 3, ret at 1, lift at 1 in H.
      destruct g as [b | e]; [ | discriminate].
      unfold bind at 1, listdir at 1 in H.
      cbn [fs set_pending] in H.
      destruct (fs s (os_path_join (os_path_join basedir "all_images") x))
        as [[es | content] | ] eqn:Edir; try discriminate.
      match type of H with
      | context [for_each_nodot ?es' ?body ?s0] =>
          destruct (for_each_nodot es' body s0) as [[[] | e] s1] eqn:Einner;
            [ | discriminate]
      end.
      apply add_images_loop in Einner.
      cbn [pending fs reads tables database set_pending set_reads] in Einner.
      destruct Einner as [Hp1 [Hf1 [_ [Ht1 Hd1]]]].
      apply IH in H. destruct H as [Hp [Hf [Ht Hd]]].
      rewrite Hf1 in Hp.
      split; [ | repeat split; congruence].
      rewrite Hp, Hp1. cbn [flat_map]. rewrite Edir. unfold images_of.
      rewrite <- !app_assoc. reflexivity.
Qed.

(** X23: what [add_files] adds.  When it returns, the session has, after
    the objects that were pending, one client for every entry of the
    image directory that is not hidden, in sorted order, each followed
    by the files of the entries of its directory that are not hidden
    and end in [.jpg], in sorted order; nothing is flushed: the tables
    and the database file are as they were. *)
Theorem add_files_adds_clients_and_images :
  forall (basedir : string) (verbose : option Z) (s s' : State)
         (entries : list string),
    fs s (os_path_join basedir "all_images") = Some (Dir entries) ->
    add_files basedir verbose s = (Ok tt, s') ->
    pending s'
    = (pending s
       ++ objects_of_tree (fs s) (os_path_join basedir "all_images") entries)%list
    /\ fs s' = fs s /\ tables s' = tables s /\ database s' = database s.
Proof.
  intros basedir verbose s s' entries Hfs H.
  unfold add_files in H. unfold bind at 1, listdir at 1 in H.
  rewrite Hfs in H. apply add_clients_loop in H.
  cbn [pending fs tables database set_reads] in H. exact H.
Qed.

Lemma add_files_adds_clients_and_images_witness :
  let s' := snd (add_files "/lfw" (Some 1) ExampleImport.start1) in
  fs ExampleImport.start1 (os_path_join "/lfw" "all_images")
  = Some (Dir ["Bo_Diaz"; ".cache"; "Ann_Lee"]) /\
  add_files "/lfw" (Some 1) ExampleImport.start1 = (Ok tt, s') /\
  pending s'
  = [NewClient (mkClient "Ann_Lee");
     NewFile (File_init "Ann_Lee" (ShotStr "0001"));
     NewFile (File_init "Ann_Lee" (ShotStr "0002"));
     NewClient (mkClient "Bo_Diaz");
     NewFile (File_init "Bo_Diaz" (ShotStr "0001"))] /\
  pending s'
  = (pending ExampleImport.start1
     ++ objects_of_tree (fs ExampleImport.start1)
          (os_path_join "/lfw" "all_images")
          ["Bo_Diaz"; ".cache"; "Ann_Lee"])%list.
Proof.
  intros s'.
  assert (Hfs : fs ExampleImport.start1 (os_path_join "/lfw" "all_images")
                = Some (Dir ["Bo_Diaz"; ".cache"; "Ann_Lee"]))
    by reflexivity.
  assert (Hrun : add_files "/lfw" (Some 1) ExampleImport.start1 = (Ok tt, s'))
    by (vm_compute; reflexivity).
  split; [exact Hfs | split; [exact Hrun | split; [vm_compute; reflexivity | ]]].
  exact (proj1 (add_files_adds_clients_and_images "/lfw" (Some 1)
                  ExampleImport.start1 s' _ Hfs Hrun)).
Defined.

(** *** The rows of the clients and of the files *)

Lemma new_clients_app l1 l2 :
  new_clients (l1 ++ l2) = (new_clients l1 ++ new_clients l2)%list.
Proof. apply flat_map_app. Qed.

Lemma new_files_app l1 l2 :
  new_files (l1 ++ l2) = (new_files l1 ++ new_files l2)%list.
Proof. apply flat_map_app. Qed.

Lemma new_clients_images (names : list string) :
  new_clients (map (fun n => NewFile (image_file n)) names) = [].
Proof. induction names as [| n names IH]; [reflexivity | exact IH]. Qed.

Lemma new_files_images (names : list string) :
  new_files (map (fun n => NewFile (image_file n)) names)
  = map (fun n => RFile (image_file n)) names.
Proof.
  induction names as [| n names IH]; [reflexivity | ].
  cbn [map]. change (new_files (?o :: ?l)) with
    ((match o with NewFile f => [RFile f] | _ => [] end) ++ new_files l)%list.
  cbn. now rewrite IH.
Qed.

(** The objects [add_files] adds, table by table *)
Lemma new_clients_of_tree tree imagedir entries :
  new_clients (objects_of_tree tree imagedir entries)
  = client_rows_of_tree entries.
Proof.
  unfold objects_of_tree, client_rows_of_tree.
  induction (filter (fun x => negb (hidden x)) (sorted entries)) as [| d l IH];
    [reflexivity | ].
  cbn [flat_map map]. rewrite new_clients_app, IH.
  destruct (tree (os_path_join imagedir d)) as [[es | content] | ];
    cbn [new_clients flat_map app]; try reflexivity.
  fold (new_clients (map (fun n => NewFile (image_file n)) (images_of es))).
  now rewrite new_clients_images.
Qed.

Lemma new_files_of_tree tree imagedir entries :
  new_files (objects_of_tree tree imagedir entries)
  = file_rows_of_tree tree imagedir entries.
Proof.
  unfold objects_of_tree, file_rows_of_tree.
  induction (filter (fun x => negb (hidden x)) (sorted entries)) as [| d l IH];
    [reflexivity | ].
  cbn [flat_map]. rewrite new_files_app, IH. f_equal.
  destruct (tree (os_path_join imagedir d)) as [[es | content] | ];
    cbn [new_files flat_map app]; try reflexivity.
  fold (new_files (map (fun n => NewFile (image_file n)) (images_of es))).
  now rewrite new_files_images.
Qed.

(** A directory made on the way holds no image. *)
Lemma file_rows_of_tree_made (t1 t2 : string -> option node) imagedir entries :
  (forall p, t2 p = t1 p \/ (t1 p = None /\ t2 p = Some (Dir []))) ->
  file_rows_of_tree t2 imagedir entries = file_rows_of_tree t1 imagedir entries.
Proof.
  intros H. unfold file_rows_of_tree. apply flat_map_ext. intros d.
  destruct (H (os_path_join imagedir d)) as [-> | [-> ->]]; reflexivity.
Qed.

(** An INSERT that succeeds puts a client at the end of the client
    table, a file at the end of the file table, and leaves the two tables
    as they are otherwise. *)
Lemma insert_rows o st st' :
  insert o st = Ok st' ->
  rows_of "client" st' = (rows_of "client" st ++ new_clients [o])%list /\
  rows_of "file" st' = (rows_of "file" st ++ new_files [o])%list.
Proof.
  intros H. apply insert_Ok in H. destruct H as [rows [r [Ht [-> Hr]]]].
  rewrite !(rows_of_append _ _ _ _ _ Ht).
  pose proof (rows_of_table _ _ _ Ht) as Hrows.
  destruct o as [c | f | pr fid | pr e p m | a]; cbn in Hr, Hrows |- *;
    rewrite ?app_nil_r; try (split; reflexivity).
  - destruct Hr as [-> _]. now rewrite Hrows.
  - destruct Hr as [-> _]. now rewrite Hrows.
Qed.

Lemma insert_all_rows l :
  forall st st',
    insert_all l st = Ok st' ->
    rows_of "client" st' = (rows_of "client" st ++ new_clients l)%list /\
    rows_of "file" st' = (rows_of "file" st ++ new_files l)%list.
Proof.
  induction l as [| o l IH]; intros st st' H; simpl in H.
  - injection H as <-. cbn. now rewrite !app_nil_r.
  - apply rbind_Ok in H. destruct H as [st1 [Ho H]].
    apply insert_rows in Ho. apply IH in H.
    destruct Ho as [Hc1 Hf1], H as [Hc Hf].
    rewrite Hc, Hf, Hc1, Hf1, <- !app_assoc.
    change (o :: l) with ([o] ++ l)%list.
    now rewrite new_clients_app, new_files_app.
Qed.

Lemma stocked_session C F s s' :
  tables s' = tables s -> pending s' = pending s ->
  stocked C F s -> stocked C F s'.
Proof. unfold stocked. now intros -> ->. Qed.

(** The objects of the other three classes change neither table. *)
Lemma stocked_session_add C F o :
  new_clients [o] = [] -> new_files [o] = [] ->
  invariant (stocked C F) (session_add o).
Proof.
  intros Hc Hf s a s' [HC HF] E. unfold session_add, modify in E.
  injection E as _ <-. unfold stocked. cbn [tables pending set_pending].
  now rewrite new_clients_app, new_files_app, Hc, Hf, !app_nil_r.
Qed.

(** A flush moves the pending clients and files to their tables. *)
Lemma triple_stocked_flush C F :
  triple (stocked C F) session_flush
    (fun _ s => stocked C F s /\ pending s = []).
Proof.
  intros s a s' [HC HF] E. unfold session_flush in E.
  destruct (insert_all (pending s) (tables s)) as [st | e] eqn:Ei;
    [ | discriminate].
  injection E as _ <-. apply insert_all_rows in Ei. destruct Ei as [Hc Hf].
  unfold stocked. cbn [tables pending set_pending set_tables].
  rewrite Hc, Hf, HC, HF. cbn. now rewrite !app_nil_r.
Qed.

Lemma stocked_session_flush C F : invariant (stocked C F) session_flush.
Proof.
  intros s a s' H E. exact (proj1 (triple_stocked_flush C F s a s' H E)).
Qed.

Lemma stocked_query_File C F : invariant (stocked C F) query_File.
Proof.
  unfold query_File.
  apply invariant_bind; [apply stocked_session_flush | intros ?].
  apply invariant_bind; [apply invariant_gets | intros st].
  destruct (table_rows "file" st); [apply invariant_ret | apply invariant_raise].
Qed.

Lemma triple_stocked_commit C F :
  triple (stocked C F) session_commit
    (fun _ s => stocked C F s /\ pending s = []
                /\ database s = Some (tables s)).
Proof.
  unfold session_commit.
  eapply triple_bind; [apply triple_stocked_flush | intros ?].
  intros s u s' [H Hp] E. unfold modify in E. injection E as _ <-.
  split; [revert H; now apply stocked_session | ]. now split.
Qed.

#[local] Hint Resolve stocked_session_flush stocked_query_File : invariant.
#[local] Hint Extern 1 (invariant (stocked _ _) (listdir _)) =>
  apply invariant_listdir, stocked_session : invariant.
#[local] Hint Extern 1 (invariant (stocked _ _) (open_read _)) =>
  apply invariant_open_read, stocked_session : invariant.
#[local] Hint Extern 1 (invariant (stocked _ _) (session_add _)) =>
  apply stocked_session_add; reflexivity : invariant.

Lemma stocked_add_annotations C F dir ext ty verbose :
  invariant (stocked C F) (add_annotations dir ext ty verbose).
Proof.
  unfold add_annotations, add_annotation, os_path_exists.
  repeat invariant_step.
Qed.

(** What [add_files] leaves in a session that was empty *)
Lemma add_files_stocks basedir verbose entries s s' :
  fs s (os_path_join basedir "all_images") = Some (Dir entries) ->
  tables s = new_tables -> pending s = [] ->
  add_files basedir verbose s = (Ok tt, s') ->
  stocked (client_rows_of_tree entries)
    (file_rows_of_tree (fs s) (os_path_join basedir "all_images") entries) s'.
Proof.
  intros Hfs Ht Hp H.
  unfold add_files in H. unfold bind at 1, listdir at 1 in H.
  rewrite Hfs in H. apply add_clients_loop in H.
  cbn [pending fs tables database set_reads] in H.
  destruct H as [Hp' [_ [Ht' _]]].
  unfold stocked. rewrite Hp', Ht', Ht, Hp. cbn [app].
  fold (objects_of_tree (fs s) (os_path_join basedir "all_images") entries).
  rewrite new_clients_of_tree, new_files_of_tree. split; reflexivity.
Qed.

Lemma table_rows_None name st :
  table_rows name st = None -> ~ In name (map fst st).
Proof.
  induction st as [| [n rows] st IH]; simpl; [tauto | ].
  destruct (String.eqb_spec n name) as [-> | Hne]; [discriminate | ].
  intros H [E | Hin]; [contradiction | now apply IH].
Qed.

Section ImportedRows.
Variable filename : string -> Z -> string.
Variable File_name : File -> string.

Lemma stocked_first_file_id C F name :
  invariant (stocked C F) (first_file_id File_name name).
Proof. unfold first_file_id. repeat invariant_step. Qed.

#[local] Hint Resolve stocked_first_file_id : invariant.

Lemma stocked_add_people_add_client C F verbose protocol client_id count :
  invariant (stocked C F)
    (add_people_add_client filename File_name verbose protocol client_id
       count).
Proof. unfold add_people_add_client. repeat invariant_step. Qed.

#[local] Hint Resolve stocked_add_people_add_client : invariant.

Lemma stocked_parse_view2_lines C F verbose ls :
  forall fold_id protocol,
    invariant (stocked C F)
      (parse_view2_lines filename File_name verbose ls fold_id protocol).
Proof.
  induction ls as [| line rest IH]; intros fold_id protocol; simpl.
  - apply invariant_ret.
  - repeat invariant_step; apply IH.
Qed.

Lemma stocked_add_people C F basedir verbose :
  invariant (stocked C F) (add_people filename File_name basedir verbose).
Proof.
  unfold add_people, parse_view1, parse_view2.
  repeat invariant_step. apply stocked_parse_view2_lines.
Qed.

Lemma stocked_add_pairs C F basedir verbose :
  invariant (stocked C F) (add_pairs filename File_name basedir verbose).
Proof.
  unfold add_pairs, parse_file, add_mpair, add_upair.
  repeat invariant_step.
Qed.

(** Up to the opening of the session: the session is empty, on the five
    new tables, and the file system is as it was but for the directory
    of the database file, made empty when it was not there. *)
Lemma create_opens_empty_session args s dbfile v :
  files_0 args = Ok dbfile ->
  verbose args = Some v ->
  database s = None \/ recreate args = true ->
  os_path_dirname dbfile <> "" \/ fs s (os_path_dirname dbfile) <> None ->
  exists s3,
    create filename File_name args s
    = (add_files (basedir args) (verbose args) ;;
       add_people filename File_name (basedir args) (verbose args) ;;
       add_pairs filename File_name (basedir args) (verbose args) ;;
       (if str_in "idiap" (annotation_types args) then
          add_annotations (idiap_annotation_dir args) ".pos" "idiap"
            (verbose args)
        else ret tt) ;;
       (if str_in "funneled" (annotation_types args) then
          add_annotations (funneled_annotation_dir args) ".jpg.pts"
            "funneled" (verbose args)
        else ret tt) ;;
       session_commit) s3 /\
    (forall p, fs s3 p = fs s p \/ (fs s p = None /\ fs s3 p = Some (Dir []))) /\
    tables s3 = new_tables /\
    pending s3 = [].
Proof.
  intros Hf Hv Hfresh Hdir. unfold create. rewrite Hf, bind_lift_ok.
  destruct (recreate_block args s Hfresh) as [s1 [Hpre [Hd1 [Hr1 Hfs1]]]].
  rewrite (bind_ok _ _ _ _ _ Hpre).
  unfold os_path_exists. rewrite bind_gets. cbv beta. rewrite Hfs1.
  destruct (fs s (os_path_dirname dbfile)) as [n | ] eqn:Edir; cbn [negb].
  - rewrite bind_ret. cbv beta. eexists.
    rewrite (bind_ok _ _ _ _ _ (create_tables_new args dbfile v s1 Hf Hv Hd1)).
    rewrite bind_lift_ok.
    assert (Hgt : gt (verbose args) 2 = Ok (2 <? v)) by now rewrite Hv.
    rewrite Hgt, bind_lift_ok.
    unfold session_try_nolock. rewrite bind_modify. cbv beta.
    split; [reflexivity | ]. simpl. rewrite Hfs1. auto.
  - destruct Hdir as [Hne | Hne]; [ | congruence].
    unfold os_makedirs. apply String.eqb_neq in Hne. rewrite Hne.
    rewrite bind_modify. cbv beta. eexists.
    rewrite (bind_ok _ _ _ _ _
               (create_tables_new args dbfile v (set_fs _ s1) Hf Hv Hd1)).
    rewrite bind_lift_ok.
    assert (Hgt : gt (verbose args) 2 = Ok (2 <? v)) by now rewrite Hv.
    rewrite Hgt, bind_lift_ok.
    unfold session_try_nolock. rewrite bind_modify. cbv beta.
    split; [reflexivity | ]. simpl. rewrite Hfs1.
    split; [ | auto]. intros p.
    destruct (String.eqb_spec p (os_path_dirname dbfile)) as [-> | Hp]; auto.
Qed.

(** X25: the rows [create] inserts for the image tree.  A run that
    starts without a database (or with [--recreate]), the verbosity
    being a number, and that returns, leaves a database of exactly five
    tables, client, file, people, pair and annotation, in which the
    client table holds one row for every entry of the image directory
    that is not hidden, in sorted order, and the file table one row for
    every image (an entry in [.jpg] that is not hidden) of these client
    directories, directory after directory and in sorted order within
    each; every row of the database is in the table of its class. *)
Theorem create_inserts_the_clients_and_files :
  forall (args : Args) (s : State) (dbfile : string) (v : Z)
         (entries : list string),
    files_0 args = Ok dbfile ->
    verbose args = Some v ->
    database s = None \/ recreate args = true ->
    os_path_dirname dbfile <> "" \/ fs s (os_path_dirname dbfile) <> None ->
    fs s (os_path_join (basedir args) "all_images") = Some (Dir entries) ->
    fst (create filename File_name args s) = Ok tt ->
    exists st : Store,
      database (snd (create filename File_name args s)) = Some st /\
      map fst st = ["client"; "file"; "people"; "pair"; "annotation"] /\
      table_rows "client" st = Some (client_rows_of_tree entries) /\
      table_rows "file" st
      = Some (file_rows_of_tree (fs s)
                (os_path_join (basedir args) "all_images") entries) /\
      rows_in_their_tables st.
Proof.
  intros args s dbfile v entries Hf Hv Hfresh Hdir Hfs Hok.
  destruct (create_opens_empty_session args s dbfile v Hf Hv Hfresh Hdir)
    as [s3 [Hrun [Hfs3 [Ht3 Hp3]]]].
  destruct (create_opens_session filename File_name args s dbfile v
              Hf Hv Hfresh Hdir) as [s3' [Hrun' [_ [Hd3' [Ht3' _]]]]].
  pose proof (ends_import filename File_name args s3') as Hend.
  rewrite <- Hrun' in Hend. rewrite Hrun in Hok. rewrite Hrun in *.
  clear Hrun'.
  assert (Hfs3' : fs s3 (os_path_join (basedir args) "all_images")
                  = Some (Dir entries)).
  { destruct (Hfs3 (os_path_join (basedir args) "all_images")) as [E | [E _]];
      congruence. }
  set (C := client_rows_of_tree entries).
  set (F := file_rows_of_tree (fs s)
              (os_path_join (basedir args) "all_images") entries).
  match type of Hok with
  | fst (bind ?m0 ?k0 s3) = _ =>
      assert (Hrest : forall u, triple (stocked C F) (k0 u)
                (fun _ s' => stocked C F s' /\ pending s' = []
                             /\ database s' = Some (tables s')))
  end.
  { intros u.
    eapply triple_bind; [apply stocked_add_people | intros ?].
    eapply triple_bind; [apply stocked_add_pairs | intros ?].
    eapply triple_bind;
      [apply invariant_if;
         [apply stocked_add_annotations | apply invariant_ret]
      | intros ?].
    eapply triple_bind;
      [apply invariant_if;
         [apply stocked_add_annotations | apply invariant_ret]
      | intros ?].
    apply triple_stocked_commit. }
  match type of Hok with
  | fst (?m s3) = _ => destruct (m s3) as [r s'] eqn:Em
  end.
  simpl in Hok. subst r. cbn [snd] in *.
  unfold bind at 1 in Em.
  destruct (add_files (basedir args) (verbose args) s3) as [[[] | e] s4] eqn:E4;
    [ | discriminate].
  pose proof (add_files_stocks _ _ _ _ _ Hfs3' Ht3 Hp3 E4) as H4.
  rewrite (file_rows_of_tree_made (fs s) (fs s3) _ _ Hfs3) in H4.
  destruct (Hrest tt s4 tt s' H4 Em) as [[HC HF] [Hp Hd]].
  rewrite Hp in HC, HF. cbn in HC, HF. rewrite app_nil_r in HC, HF.
  destruct Hend as [s5 [[_ [Hd5 [Hn5 [Hty5 _]]]] [_ Hd']]].
  exists (tables s'). split; [exact Hd | ].
  assert (Hsame : Some (tables s') = Some new_tables
                  \/ Some (tables s') = Some (tables s5)).
  { rewrite <- Hd. destruct Hd' as [Hd' | Hd']; [left | right]; congruence. }
  assert (Hnames : map fst (tables s')
                   = ["client"; "file"; "people"; "pair"; "annotation"]).
  { destruct Hsame as [E | E]; injection E as ->; [reflexivity | ].
    rewrite Hn5, Ht3'. reflexivity. }
  assert (Htyped : rows_in_their_tables (tables s')).
  { destruct Hsame as [E | E]; injection E as ->;
      [apply new_tables_typed | ].
    apply Hty5. rewrite Ht3'. apply new_tables_typed. }
  split; [exact Hnames | ].
  assert (Htable : forall name,
            In name ["client"; "file"] ->
            table_rows name (tables s') = Some (rows_of name (tables s'))).
  { intros name Hin. unfold rows_of.
    destruct (table_rows name (tables s')) as [rows | ] eqn:Et;
      [reflexivity | ].
    exfalso. apply (table_rows_None _ _ Et). rewrite Hnames.
    simpl in Hin. simpl. intuition. }
  rewrite !Htable by (simpl; auto). rewrite HC, HF. auto.
Qed.

End ImportedRows.

Lemma create_inserts_the_clients_and_files_witness :
  let run :=
    create ExampleImport.filename ExampleImport.File_name ExampleImport.args
      ExampleImport.start1 in
  files_0 ExampleImport.args = Ok "/db/db.sql3" /\
  fs ExampleImport.start1 (os_path_join "/lfw" "all_images")
  = Some (Dir ["Bo_Diaz"; ".cache"; "Ann_Lee"]) /\
  fst run = Ok tt /\
  client_rows_of_tree ["Bo_Diaz"; ".cache"; "Ann_Lee"]
  = [RClient (mkClient "Ann_Lee"); RClient (mkClient "Bo_Diaz")] /\
  file_rows_of_tree (fs ExampleImport.start1) (os_path_join "/lfw" "all_images")
    ["Bo_Diaz"; ".cache"; "Ann_Lee"]
  = [RFile (File_init "Ann_Lee" (ShotStr "0001"));
     RFile (File_init "Ann_Lee" (ShotStr "0002"));
     RFile (File_init "Bo_Diaz" (ShotStr "0001"))] /\
  exists st : Store,
    database (snd run) = Some st /\
    map fst st = ["client"; "file"; "people"; "pair"; "annotation"] /\
    table_rows "client" st
    = Some (client_rows_of_tree ["Bo_Diaz"; ".cache"; "Ann_Lee"]) /\
    table_rows "file" st
    = Some (file_rows_of_tree (fs ExampleImport.start1)
              (os_path_join "/lfw" "all_images")
              ["Bo_Diaz"; ".cache"; "Ann_Lee"]) /\
    rows_in_their_tables st.
Proof.
  intros run.
  assert (Hf : files_0 ExampleImport.args = Ok "/db/db.sql3") by reflexivity.
  assert (Hfs : fs ExampleImport.start1 (os_path_join "/lfw" "all_images")
                = Some (Dir ["Bo_Diaz"; ".cache"; "Ann_Lee"])) by reflexivity.
  assert (Hok : fst run = Ok tt) by (vm_compute; reflexivity).
  split; [exact Hf | split; [exact Hfs | split; [exact Hok | ]]].
  split; [vm_compute; reflexivity | split; [vm_compute; reflexivity | ]].
  refine (create_inserts_the_clients_and_files ExampleImport.filename
            ExampleImport.File_name ExampleImport.args ExampleImport.start1
            "/db/db.sql3" 1 _ Hf eq_refl (or_introl eq_refl) _ Hfs Hok).
  left. intros H. vm_compute in H. discriminate H.
Defined.

(** *** The objects of the import *)

Lemma flat_map_single {X Y} (f : X -> Y) (l : list X) :
  flat_map (fun x => [f x]) l = map f l.
Proof. induction l as [| x l IH]; simpl; [reflexivity | now rewrite IH]. Qed.

Lemma file_rows_of_files tree imagedir entries :
  file_rows_of_tree tree imagedir entries
  = map RFile (files_of_tree tree imagedir entries).
Proof.
  unfold file_rows_of_tree, files_of_tree.
  induction (filter (fun x => negb (hidden x)) (sorted entries)) as [| d l IH];
    [reflexivity | ].
  cbn [flat_map]. rewrite map_app, IH. f_equal.
  destruct (tree (os_path_join imagedir d)) as [[es | content] | ];
    try reflexivity.
  now rewrite map_map.
Qed.

Lemma files_of_file_rows (l : list File) :
  flat_map (fun r => match r with RFile f => [f] | _ => [] end) (map RFile l)
  = l.
Proof. induction l as [| f l IH]; simpl; [reflexivity | now rewrite IH]. Qed.

Lemma objects_of_tree_made (t1 t2 : string -> option node) imagedir entries :
  (forall p, t2 p = t1 p \/ (t1 p = None /\ t2 p = Some (Dir []))) ->
  objects_of_tree t2 imagedir entries = objects_of_tree t1 imagedir entries.
Proof.
  intros H. unfold objects_of_tree. apply flat_map_ext. intros d.
  destruct (H (os_path_join imagedir d)) as [-> | [-> ->]]; reflexivity.
Qed.

Lemma importing_session tree all L s s' :
  fs s' = fs s -> tables s' = tables s -> pending s' = pending s ->
  importing tree all L s -> importing tree all L s'.
Proof.
  unfold importing, made, logged. intros -> -> ->. tauto.
Qed.

(** Rules for the steps of an import *)
Section Adds.
Variable tree : string -> option node.
Variable all : list File.

Lemma adds_ret {A} (a : A) : adds tree all [] (ret a).
Proof. intros L s a' s' H E. injection E as <- <-. now rewrite app_nil_r. Qed.

Lemma adds_raise {A} l e : adds tree all l (@raise State A e).
Proof. intros L s a' s' H E. discriminate E. Qed.

Lemma adds_lift {A} (r : result A) : adds tree all [] (lift r).
Proof.
  intros L s a' s' H E. unfold lift in E. injection E as _ <-.
  now rewrite app_nil_r.
Qed.

Lemma gives_lift {A} (r : result A) (d : A) :
  gives tree all (match r with Ok a => a | Raise _ => d end) (lift r).
Proof.
  intros L s a' s' H E. unfold lift in E. injection E as -> <-. now split.
Qed.

Lemma adds_bind {A B} l1 l2 (m : M State A) (k : A -> M State B) :
  adds tree all l1 m -> (forall a, adds tree all l2 (k a)) ->
  adds tree all (l1 ++ l2) (bind m k).
Proof.
  intros Hm Hk L. rewrite app_assoc.
  eapply triple_bind; [apply Hm | intros a; apply Hk].
Qed.

Lemma gives_bind {A B} (a : A) l (m : M State A) (k : A -> M State B) :
  gives tree all a m -> adds tree all l (k a) -> adds tree all l (bind m k).
Proof.
  intros Hm Hk L. eapply triple_bind; [apply Hm | ].
  intros r s b s' [-> H] E. eapply Hk; eassumption.
Qed.

Lemma adds_for_each {X} (g : X -> list obj) (l : list X)
  (body : X -> M State unit) :
  (forall x, adds tree all (g x) (body x)) ->
  adds tree all (flat_map g l) (for_each l body).
Proof.
  intros H. induction l as [| x l IH]; simpl; [apply adds_ret | ].
  apply adds_bind; [apply H | intros _; exact IH].
Qed.

Lemma adds_if {A} (c : bool) l1 l2 (m1 m2 : M State A) :
  adds tree all l1 m1 -> adds tree all l2 m2 ->
  adds tree all (if c then l1 else l2) (if c then m1 else m2).
Proof. now destruct c. Qed.

(** A file that is read holds the text the tree has for it. *)
Lemma gives_open_read path : gives tree all (text_of tree path) (open_read path).
Proof.
  intros L s c s' H E. unfold open_read in E.
  destruct (fs s path) as [[es | content] | ] eqn:Ep; try discriminate.
  injection E as <- <-. split.
  - unfold text_of. destruct H as [Hm _].
    destruct (Hm path) as [Ht | [_ Ht]]; [ | congruence].
    now rewrite <- Ht, Ep.
  - revert H. now apply importing_session.
Qed.

(** An object that is no file joins the objects added. *)
Lemma adds_session_add o :
  new_files [o] = [] -> adds tree all [o] (session_add o).
Proof.
  intros Ho L s a s' [Hm [[fl [HL Hi]] Hf]] E.
  unfold session_add, modify in E. injection E as _ <-.
  split; [exact Hm | split].
  - exists fl. cbn [pending tables set_pending].
    split; [now rewrite HL, app_assoc | exact Hi].
  - now rewrite new_files_app, Ho, app_nil_r.
Qed.

Lemma triple_importing_flush L :
  triple (importing tree all L) session_flush
    (fun _ s => importing tree all L s /\ pending s = []).
Proof.
  intros s a s' [Hm [[fl [HL Hi]] Hf]] E. unfold session_flush in E.
  destruct (insert_all (pending s) (tables s)) as [st | e] eqn:Ei;
    [ | discriminate].
  injection E as _ <-. split; [ | reflexivity].
  split; [exact Hm | split; [ | exact Hf]].
  exists (fl ++ pending s)%list. cbn [pending tables set_pending set_tables].
  split; [now rewrite app_nil_r | ].
  now rewrite insert_all_app, Hi.
Qed.

Lemma adds_session_flush : adds tree all [] session_flush.
Proof.
  intros L s a s' H E. rewrite app_nil_r.
  exact (proj1 (triple_importing_flush L s a s' H E)).
Qed.

(** Once the session is flushed the file table holds the files of the
    import. *)
Lemma importing_file_rows L s :
  importing tree all L s -> pending s = [] -> file_rows (tables s) = all.
Proof.
  intros [_ [[fl [HL Hi]] Hf]] Hp. rewrite Hp, app_nil_r in HL. subst fl.
  apply insert_all_rows in Hi. destruct Hi as [_ Hrows].
  rewrite file_rows_of, Hrows, Hf. cbn [rows_of table_rows new_tables].
  cbn. apply files_of_file_rows.
Qed.

Lemma gives_query_File : gives tree all all query_File.
Proof.
  intros L s r s' H E. unfold query_File in E. unfold bind at 1 in E.
  destruct (session_flush s) as [[[] | e] s1] eqn:E1; [ | discriminate].
  destruct (triple_importing_flush L s tt s1 H E1) as [H1 Hp1].
  rewrite bind_gets in E.
  destruct (table_rows "file" (tables s1)); [ | discriminate].
  injection E as <- <-. split; [ | exact H1].
  now apply (importing_file_rows L).
Qed.

Lemma adds_add_annotation dir ext ty verbose f :
  adds tree all (annotation_of tree dir ext ty f)
    (add_annotation dir ext ty verbose f).
Proof.
  intros L s a s' H E. unfold add_annotation, os_path_exists in E.
  rewrite bind_gets in E. unfold annotation_of.
  pose proof H as [Hm _].
  destruct (Hm (make_path f dir (Some ext))) as [Ht | [Ht Hd]].
  - rewrite <- Ht.
    destruct (fs s (make_path f dir (Some ext))) as [[es | content] | ] eqn:Ep;
      cbn [negb] in E.
    + unfold bind at 1, lift at 1 in E.
      destruct (gt verbose 1); [ | discriminate].
      unfold bind at 1, open_read in E. rewrite Ep in E. discriminate.
    + unfold bind at 1, lift at 1 in E.
      destruct (gt verbose 1); [ | discriminate].
      unfold bind at 1, open_read in E. rewrite Ep in E.
      refine (adds_session_add
                (NewAnnotation (mkAnnotation (File_id f) ty content))
                eq_refl L _ a s' _ E).
      revert H. now apply importing_session.
    + injection E as _ <-. now rewrite app_nil_r.
  - rewrite Hd in E. cbn [negb] in E.
    unfold bind at 1, lift at 1 in E.
    destruct (gt verbose 1); [ | discriminate].
    unfold bind at 1, open_read in E. rewrite Hd in E. discriminate.
Qed.

Lemma adds_add_annotations dir ext ty verbose :
  adds tree all (annotations_of tree all dir ext ty)
    (add_annotations dir ext ty verbose).
Proof.
  unfold add_annotations, annotations_of.
  apply (adds_bind [] _); [apply adds_session_flush | intros _].
  eapply gives_bind; [apply gives_query_File | ].
  apply adds_for_each. intros f. apply adds_add_annotation.
Qed.

Lemma triple_importing_commit L :
  triple (importing tree all L) session_commit
    (fun _ s => insert_all L new_tables = Ok (tables s)
                /\ database s = Some (tables s)).
Proof.
  unfold session_commit.
  eapply triple_bind; [apply triple_importing_flush | intros ?].
  intros s u s' [[_ [[fl [HL Hi]] _]] Hp] E. unfold modify in E.
  injection E as _ <-. cbn [tables database set_database].
  rewrite Hp, app_nil_r in HL. subst fl. now split.
Qed.

Variable filename : string -> Z -> string.
Variable File_name : File -> string.

(** The file looked up is the first of the files of the import that has
    the name. *)
Lemma gives_first_file_id name :
  gives tree all (found File_name all name) (first_file_id File_name name).
Proof.
  unfold first_file_id. intros L.
  eapply triple_bind; [apply gives_query_File | ].
  intros r s id s' [-> H] E. unfold found.
  destruct (filter (fun f => (File_name f =? name)%string) all) as [| f l];
    [discriminate | ].
  injection E as <- <-. now split.
Qed.

Lemma adds_add_people_add_client verbose protocol client_id count :
  adds tree all (people_of_client filename File_name all protocol client_id count)
    (add_people_add_client filename File_name verbose protocol client_id
       count).
Proof.
  unfold add_people_add_client, people_of_client.
  rewrite <- flat_map_single. apply adds_for_each. intros i.
  apply (adds_bind [] [_]); [apply adds_lift | intros _].
  eapply gives_bind; [apply gives_first_file_id | ].
  now apply adds_session_add.
Qed.

Lemma adds_parse_view1 verbose path protocol :
  adds tree all
    (people_of_view1 filename File_name all (text_of tree path) protocol)
    (parse_view1 filename File_name verbose path protocol).
Proof.
  unfold parse_view1, people_of_view1.
  eapply gives_bind; [apply gives_open_read | ].
  apply adds_for_each. intros line. cbv zeta.
  apply adds_if; [ | apply adds_ret].
  eapply gives_bind; [apply (gives_lift _ 0) | ].
  apply adds_add_people_add_client.
Qed.

Lemma adds_parse_view2_lines verbose ls :
  forall fold_id protocol,
    adds tree all (people_of_view2 filename File_name all ls fold_id protocol)
      (parse_view2_lines filename File_name verbose ls fold_id protocol).
Proof.
  induction ls as [| line rest IH]; intros fold_id protocol; simpl.
  - apply adds_ret.
  - destruct (List.length (split line) =? 1)%nat; [apply IH | ].
    destruct (List.length (split line) =? 2)%nat; [ | apply IH].
    destruct protocol as [p | ]; [ | apply adds_raise].
    eapply gives_bind; [apply (gives_lift _ 0) | ].
    apply adds_bind; [apply adds_add_people_add_client | intros _].
    eapply gives_bind; [apply (gives_lift _ 0) | ].
    apply adds_bind; [apply adds_add_people_add_client | intros _].
    apply IH.
Qed.

Lemma adds_add_people basedir verbose :
  adds tree all (people_of filename File_name tree all basedir)
    (add_people filename File_name basedir verbose).
Proof.
  unfold add_people, people_of.
  apply adds_bind; [apply adds_parse_view1 | intros _].
  apply adds_bind; [apply adds_parse_view1 | intros _].
  unfold parse_view2.
  eapply gives_bind; [apply gives_open_read | ].
  apply adds_parse_view2_lines.
Qed.

Lemma adds_new_pair verbose protocol name1 name2 (f1 f2 : string) is_match :
  adds tree all
    [NewPair protocol
       (found File_name all (name1 (number_of f1)))
       (found File_name all (name2 (number_of f2))) is_match]
    (a1 <- lift (int f1) ;;
     file_id1 <- first_file_id File_name (name1 a1) ;;
     a2 <- lift (int f2) ;;
     file_id2 <- first_file_id File_name (name2 a2) ;;
     lift (gt verbose 1) ;;
     session_add (NewPair protocol file_id1 file_id2 is_match)).
Proof.
  eapply gives_bind; [apply (gives_lift _ 0) | ].
  eapply gives_bind; [apply gives_first_file_id | ].
  eapply gives_bind; [apply (gives_lift _ 0) | ].
  eapply gives_bind; [apply gives_first_file_id | ].
  apply (adds_bind [] [_]); [apply adds_lift | intros _].
  now apply adds_session_add.
Qed.

Lemma adds_parse_file verbose path protocol :
  adds tree all
    (pairs_of_file filename File_name all (text_of tree path) protocol)
    (parse_file filename File_name verbose path protocol).
Proof.
  unfold parse_file, pairs_of_file, add_mpair, add_upair.
  eapply gives_bind; [apply gives_open_read | ].
  apply adds_for_each. intros line. cbv zeta.
  apply adds_if; [ | apply adds_if; [ | apply adds_ret]].
  - apply (adds_new_pair verbose protocol
             (fun n => filename (item (split line) 0) n)
             (fun n => filename (item (split line) 0) n)).
  - apply (adds_new_pair verbose protocol
             (fun n => filename (item (split line) 0) n)
             (fun n => filename (item (split line) 2) n)).
Qed.

Lemma adds_add_pairs basedir verbose :
  adds tree all (pairs_of filename File_name tree all basedir)
    (add_pairs filename File_name basedir verbose).
Proof.
  unfold add_pairs, pairs_of.
  apply (adds_bind [] _); [apply adds_session_flush | intros _].
  apply adds_bind; [apply adds_parse_file | intros _].
  apply adds_bind; [apply adds_parse_file | intros _].
  apply adds_for_each. intros fold.
  apply adds_bind; [apply adds_parse_file | intros _].
  apply adds_parse_file.
Qed.

Lemma adds_annotations args :
  adds tree all (annotations_for tree all args)
    ((if str_in "idiap" (annotation_types args) then
        add_annotations (idiap_annotation_dir args) ".pos" "idiap"
          (verbose args)
      else ret tt) ;;
     (if str_in "funneled" (annotation_types args) then
        add_annotations (funneled_annotation_dir args) ".jpg.pts" "funneled"
          (verbose args)
      else ret tt)).
Proof.
  unfold annotations_for.
  apply adds_bind; [ | intros _];
    (apply adds_if; [apply adds_add_annotations | apply adds_ret]).
Qed.

End Adds.

(** What [add_files] leaves in a session that was empty, on the new
    tables *)
Lemma add_files_importing tree basedir verbose entries s s' :
  made tree s ->
  tree (os_path_join basedir "all_images") = Some (Dir entries) ->
  tables s = new_tables -> pending s = [] ->
  add_files basedir verbose s = (Ok tt, s') ->
  importing tree
    (files_of_tree tree (os_path_join basedir "all_images") entries)
    (objects_of_tree tree (os_path_join basedir "all_images") entries) s'.
Proof.
  intros Hm Ht Htab Hp H.
  assert (Hfs : fs s (os_path_join basedir "all_images") = Some (Dir entries)).
  { destruct (Hm (os_path_join basedir "all_images")) as [E | [E _]];
      congruence. }
  unfold add_files in H. unfold bind at 1, listdir at 1 in H.
  rewrite Hfs in H. apply add_clients_loop in H.
  cbn [pending fs tables database set_reads] in H.
  destruct H as [Hp' [Hfs' [Ht' _]]].
  rewrite Hp in Hp'. cbn [app] in Hp'.
  fold (objects_of_tree (fs s) (os_path_join basedir "all_images") entries)
    in Hp'.
  rewrite (objects_of_tree_made tree (fs s) _ _ Hm) in Hp'.
  split; [ | split].
  - intros p. rewrite Hfs'. apply Hm.
  - exists []. rewrite Hp', Ht', Htab. now split.
  - now rewrite new_files_of_tree, file_rows_of_files.
Qed.

Section ImportedObjects.
Variable filename : string -> Z -> string.
Variable File_name : File -> string.

(** X26: the database [create] leaves is the one its input determines.
    A run that starts without a database (or with [--recreate]), the
    verbosity being a number, and that returns, leaves the database made
    by inserting into the five new tables, in this order: the clients
    and files of the image tree; a people row for each image of each
    person of the two people files of view 1 and, fold after fold and
    twice (for the fold and for [view2]), of the people file of view 2;
    a pair for each line of three or four fields of the two pairs files
    of view 1 and, twice, of the ten of view 2; and an annotation, of the
    types selected, for each file whose annotation file is there.  The
    file ids of people and pairs are those of the first file of the file
    table that has the name. *)
Theorem create_inserts_the_imported_objects :
  forall (args : Args) (s : State) (dbfile : string) (v : Z)
         (entries : list string),
    files_0 args = Ok dbfile ->
    verbose args = Some v ->
    database s = None \/ recreate args = true ->
    os_path_dirname dbfile <> "" \/ fs s (os_path_dirname dbfile) <> None ->
    fs s (os_path_join (basedir args) "all_images") = Some (Dir entries) ->
    fst (create filename File_name args s) = Ok tt ->
    exists st : Store,
      database (snd (create filename File_name args s)) = Some st /\
      insert_all (imported filename File_name args (fs s) entries) new_tables
      = Ok st.
Proof.
  intros args s dbfile v entries Hf Hv Hfresh Hdir Hfs Hok.
  destruct (create_opens_empty_session filename File_name args s dbfile v
              Hf Hv Hfresh Hdir) as [s3 [Hrun [Hfs3 [Ht3 Hp3]]]].
  rewrite Hrun in *. clear Hrun.
  set (imagedir := os_path_join (basedir args) "all_images") in *.
  set (all := files_of_tree (fs s) imagedir entries).
  set (L0 := objects_of_tree (fs s) imagedir entries).
  match type of Hok with
  | fst (?m s3) = _ => destruct (m s3) as [r s'] eqn:Em
  end.
  simpl in Hok. subst r. cbn [snd].
  unfold bind at 1 in Em.
  destruct (add_files (basedir args) (verbose args) s3) as [[[] | e] s4] eqn:E4;
    [ | discriminate].
  pose proof (add_files_importing (fs s) _ _ _ _ _ Hfs3 Hfs Ht3 Hp3 E4) as H4.
  fold imagedir in H4. fold all in H4. fold L0 in H4.
  assert (Hrest :
    triple (importing (fs s) all L0)
      (add_people filename File_name (basedir args) (verbose args) ;;
       add_pairs filename File_name (basedir args) (verbose args) ;;
       (if str_in "idiap" (annotation_types args) then
          add_annotations (idiap_annotation_dir args) ".pos" "idiap"
            (verbose args)
        else ret tt) ;;
       (if str_in "funneled" (annotation_types args) then
          add_annotations (funneled_annotation_dir args) ".jpg.pts"
            "funneled" (verbose args)
        else ret tt) ;;
       session_commit)
      (fun _ s' =>
         insert_all
           (((L0 ++ people_of filename File_name (fs s) all (basedir args))
             ++ pairs_of filename File_name (fs s) all (basedir args))
            ++ annotations_for (fs s) all args) new_tables
         = Ok (tables s')
         /\ database s' = Some (tables s'))).
  { eapply triple_bind; [apply adds_add_people | intros ?].
    eapply triple_bind; [apply adds_add_pairs | intros ?].
    unfold annotations_for. rewrite app_assoc.
    eapply triple_bind;
      [apply adds_if; [apply adds_add_annotations | apply adds_ret]
      | intros ?].
    eapply triple_bind;
      [apply adds_if; [apply adds_add_annotations | apply adds_ret]
      | intros ?].
    apply triple_importing_commit. }
  destruct (Hrest s4 tt s' H4 Em) as [Hi Hd].
  exists (tables s'). split; [exact Hd | ].
  unfold imported. fold imagedir. fold all. fold L0.
  now rewrite !app_assoc.
Qed.

End ImportedObjects.

Lemma create_inserts_the_imported_objects_witness :
  let run :=
    create ExampleImport.filename ExampleImport.File_name ExampleImport.args
      ExampleImport.start1 in
  files_0 ExampleImport.args = Ok "/db/db.sql3" /\
  fs ExampleImport.start1 (os_path_join "/lfw" "all_images")
  = Some (Dir ["Bo_Diaz"; ".cache"; "Ann_Lee"]) /\
  fst run = Ok tt /\
  imported ExampleImport.filename ExampleImport.File_name ExampleImport.args
    (fs ExampleImport.start1) ["Bo_Diaz"; ".cache"; "Ann_Lee"]
  = [NewClient (mkClient "Ann_Lee");
     NewFile (File_init "Ann_Lee" (ShotStr "0001"));
     NewFile (File_init "Ann_Lee" (ShotStr "0002"));
     NewClient (mkClient "Bo_Diaz");
     NewFile (File_init "Bo_Diaz" (ShotStr "0001"));
     NewPeople "train" "Ann_Lee_0001"; NewPeople "train" "Ann_Lee_0002";
     NewPeople "test" "Bo_Diaz_0001";
     NewPeople "fold1" "Ann_Lee_0001"; NewPeople "fold1" "Ann_Lee_0002";
     NewPeople "view2" "Ann_Lee_0001"; NewPeople "view2" "Ann_Lee_0002";
     NewPeople "fold2" "Bo_Diaz_0001"; NewPeople "view2" "Bo_Diaz_0001";
     NewPair "train" "Ann_Lee_0001" "Ann_Lee_0002" true;
     NewPair "train" "Ann_Lee_0001" "Bo_Diaz_0001" false;
     NewPair "fold1" "Ann_Lee_0002" "Ann_Lee_0001" true;
     NewPair "view2" "Ann_Lee_0002" "Ann_Lee_0001" true;
     NewPair "fold10" "Ann_Lee_0002" "Bo_Diaz_0001" false;
     NewPair "view2" "Ann_Lee_0002" "Bo_Diaz_0001" false;
     NewAnnotation (mkAnnotation "Ann_Lee_0002" "funneled" "10 20")] /\
  exists st : Store,
    database (snd run) = Some st /\
    insert_all
      (imported ExampleImport.filename ExampleImport.File_name
         ExampleImport.args (fs ExampleImport.start1)
         ["Bo_Diaz"; ".cache"; "Ann_Lee"]) new_tables
    = Ok st.
Proof.
  intros run.
  assert (Hf : files_0 ExampleImport.args = Ok "/db/db.sql3") by reflexivity.
  assert (Hfs : fs ExampleImport.start1 (os_path_join "/lfw" "all_images")
                = Some (Dir ["Bo_Diaz"; ".cache"; "Ann_Lee"])) by reflexivity.
  assert (Hok : fst run = Ok tt) by (vm_compute; reflexivity).
  split; [exact Hf | split; [exact Hfs | split; [exact Hok | ]]].
  split; [vm_compute; reflexivity | ].
  refine (create_inserts_the_imported_objects ExampleImport.filename
            ExampleImport.File_name ExampleImport.args ExampleImport.start1
            "/db/db.sql3" 1 _ Hf eq_refl (or_introl eq_refl) _ Hfs Hok).
  left. intros H. vm_compute in H. discriminate H.
Defined.
